(** * Bulk wiki maintenance scripts: scan / commit pipeline

    A shallow embedding of the Python scripts of the repository
    (search.py, delete_pages.py, languageredirects.py, movepages.py,
    findandreplace.py, redirectdictionary.py) and the properties their
    specification states about them.

    Conventions.
    - A Python [str] is a [string]: the sequence of its code points, one
      [ascii] per code point, so the model covers the code points
      U+0000..U+00FF.  [str.lower], [str.isspace] and [str.strip] are
      exact on that range.
    - A Python [dict] is a [gmap]; a list is a [list].
    - The wiki (pywikibot's [Site] and [Page]) is an external
      collaborator: it is modelled by a record holding the pages, an
      oracle saying which calls raise, and what the wiki records for a
      page when a text is saved.  A page is known by its title, taken
      as it is given ([Page(site, t).title()] is [t]).
    - Effects (store calls, sleeps, log lines) are recorded in a trace;
      progress bars are left out, but where a script counts with one.
    - The workers of a thread pool only read the wiki; their runs are
      taken one after the other, and the order in which their futures
      complete is a parameter, any permutation of the futures. *)

From Stdlib Require Import Ascii.
From stdpp Require Import gmap strings list fin_maps pretty sorting.

(* ===================================================================== *)
(** * Python's [str] builtins used by the scripts *)
(* ===================================================================== *)
Module pystr.

(** The code point of a character. *)
Definition ord (c : ascii) : nat := nat_of_ascii c.

(** [c.isspace()] on U+0000..U+00FF: TAB, LF, VT, FF, CR, FS, GS, RS,
    US, SPACE, NEL and NBSP. *)
Definition isspace (c : ascii) : bool :=
  let n := ord c in
  (((9 <=? n) && (n <=? 13)) || ((28 <=? n) && (n <=? 32))
   || (n =? 133) || (n =? 160))%nat.

(** [c.lower()] on U+0000..U+00FF: A-Z and the accented capitals
    U+00C0..U+00DE (U+00D7, the multiplication sign, apart) move up by
    32; every other code point is left as it is. *)
Definition lower_char (c : ascii) : ascii :=
  let n := ord c in
  if (((65 <=? n) && (n <=? 90))
      || ((192 <=? n) && (n <=? 222) && negb (n =? 215)))%nat
  then ascii_of_nat (n + 32)%nat else c.

(** [s.lower()] *)
Fixpoint lower (s : string) : string :=
  match s with
  | EmptyString => EmptyString
  | String c s' => String (lower_char c) (lower s')
  end.

(** [s.startswith(p)] *)
Fixpoint startswith (p s : string) : bool :=
  match p, s with
  | EmptyString, _ => true
  | String a p', String b s' => if decide (a = b) then startswith p' s' else false
  | String _ _, EmptyString => false
  end.

(** [sub in s]: [sub] occurs in [s] as a contiguous substring. *)
Fixpoint contains (sub s : string) : bool :=
  startswith sub s ||
  match s with
  | EmptyString => false
  | String _ s' => contains sub s'
  end.

(** [s.split(sep)] for a non-empty [sep] (Python raises [ValueError] on
    an empty separator; the scripts only pass the two operator
    literals).  The text is scanned from the left; [cur] is the piece
    being read and [skip] counts the characters of a separator that was
    just recognised and is still to be stepped over. *)
Fixpoint split_go (sep : string) (skip : nat) (cur s : string) : list string :=
  match s with
  | EmptyString => [cur]
  | String c s' =>
      match skip with
      | S k => split_go sep k cur s'
      | O =>
          if startswith sep s
          then cur :: split_go sep (String.length sep - 1)%nat EmptyString s'
          else split_go sep 0%nat (cur +:+ String c EmptyString) s'
      end
  end.

Definition split (sep s : string) : list string := split_go sep 0%nat EmptyString s.

(** [s.lstrip()], [s.rstrip()] and [s.strip()] with no argument. *)
Fixpoint lstrip (s : string) : string :=
  match s with
  | EmptyString => EmptyString
  | String c s' => if isspace c then lstrip s' else s
  end.

Fixpoint rstrip (s : string) : string :=
  match s with
  | EmptyString => EmptyString
  | String c s' =>
      match rstrip s' with
      | EmptyString => if isspace c then EmptyString else String c EmptyString
      | r => String c r
      end
  end.

Definition strip (s : string) : string := lstrip (rstrip s).

(** The truth value of a string: non-empty. *)
Definition truthy (s : string) : bool :=
  match s with EmptyString => false | String _ _ => true end.

(** [s.replace(old, new)] for a non-empty [old]: every piece between
    occurrences of [old], joined by [new]. *)
Fixpoint join (sep : string) (l : list string) : string :=
  match l with
  | [] => EmptyString
  | [x] => x
  | x :: l' => x +:+ sep +:+ join sep l'
  end.

Definition replace (old new s : string) : string := join new (split old s).

(** The newline character, ["\n"] in the scripts. *)
Definition nl : string := String (ascii_of_nat 10) EmptyString.

(** [all(...)] and [any(...)] over a list. *)
Definition all {A} (f : A → bool) (l : list A) : bool := forallb f l.
Definition any {A} (f : A → bool) (l : list A) : bool := existsb f l.

(** [s.splitlines()] on U+0000..U+00FF: a line ends at LF, VT, FF, CR,
    FS, GS, RS or NEL, and CR LF ends one line; the line breaks are not
    kept, and a text that ends in a line break has no empty last line.
    [line] is the line being read. *)
Definition is_linebreak (c : ascii) : bool :=
  let n := ord c in
  (((10 <=? n) && (n <=? 13)) || ((28 <=? n) && (n <=? 30)) || (n =? 133))%nat.

Fixpoint splitlines_go (line s : string) : list string :=
  match s with
  | EmptyString => if truthy line then [line] else []
  | String c s' =>
      if is_linebreak c then
        line :: match s' with
                | String c' s'' =>
                    if ((ord c =? 13) && (ord c' =? 10))%nat
                    then splitlines_go EmptyString s''
                    else splitlines_go EmptyString s'
                | EmptyString => splitlines_go EmptyString s'
                end
      else splitlines_go (line +:+ String c EmptyString) s'
  end.

Definition splitlines (s : string) : list string := splitlines_go EmptyString s.

(** [s[start:-back]] for [0 < back]: the characters from index [start]
    up to, and without, the last [back] ones; empty when there are
    none. *)
Definition slice (start back : nat) (s : string) : string :=
  String.substring start (String.length s - back - start) s.

End pystr.

(* ===================================================================== *)
(** * The wiki behind pywikibot, and the effects of a script *)
(* ===================================================================== *)
Module pywikibot.

(** The exception classes the scripts tell apart; every other exception
    is an [OtherException].  [str e] is the message [str(e)].
    [pywikibot.exceptions] has no class named [PageNotSavedError] or
    [PermissionError]: looking one of them up raises an
    [AttributeError]. *)
Inductive exn_class :=
| NoPageError | IsRedirectPageError | InvalidTitleError
| LockedPageError | AttributeError
| OSError | OtherException.

Record exn := Exn { class_of : exn_class; str : string }.

Inductive result (A : Type) :=
| Ok (a : A)
| Raise (e : exn).
Arguments Ok {A} a.
Arguments Raise {A} e.

(** One revision of a page.  [user] is [None] when the revision has no
    recorded user (a hidden or suppressed name); it may also be the
    empty string. *)
Record revision := Revision { user : option string; revid : nat }.

Record page := Page {
  text : string;
  history : list revision;         (* what [page.revisions()] yields *)
  redirect_target : option string  (* [Some t] for a redirect page to [t] *)
}.

(** The calls a script makes to the wiki. *)
Inductive call :=
| c_login
| c_exists (title : string)
| c_text (title : string)
| c_revisions (title : string)
| c_getReferences (title : string)
| c_isRedirectPage (title : string)
| c_getRedirectTarget (title : string)
| c_backlinks (title : string)
| c_preload (batch : list string)
| c_save (title : string)
| c_delete (title : string)
| c_move (title new_title : string).

(** The wiki: its pages, the redirect pages the wiki reports as
    referring to a title, an oracle telling which calls raise
    (a network fault, a protected page, missing rights, ...), and what
    the wiki records for a page besides the text when a text is saved
    under a title: [saved s title before text] is the history the page
    then has (with the revisions the save added) and the target the
    wiki reads off the text when it takes it for a redirect; [before]
    is the page as it was, if there was one. *)
Record site := Site {
  pages : gmap string page;
  references : string → list string;
  raises : call → option exn;
  saved : string → option page → string → list revision * option string
}.

(** The calls that change the wiki. *)
Inductive mutation :=
| m_save (title text summary : string)
| m_delete (title reason : string)
| m_move (title new_title reason : string).

(** What a run does, in order.  A mutation is recorded with the
    exception it raised, if any. *)
Inductive event :=
| ev_exists (title : string)
| ev_mutate (m : mutation) (raised : option exn)
| ev_sleep (seconds : nat)
| ev_log (line : string).

(** The state a script runs in: the wiki, the script's global
    [queue.Queue()], and the trace of its effects so far. *)
Record world := World {
  wiki : site;
  queue : list string;
  trace : list event
}.

(** A computation that may raise. *)
Definition io (A : Type) : Type := world → result A * world.

#[global] Instance io_ret : MRet io := λ A a w, (Ok a, w).
#[global] Instance io_bind : MBind io := λ A B f c w,
  match c w with
  | (Ok a, w') => f a w'
  | (Raise e, w') => (Raise e, w')
  end.

Definition ret {A} (a : A) : io A := mret a.
Definition raise {A} (e : exn) : io A := λ w, (Raise e, w).

(** [try: body  except Exception as e: handler e] *)
Definition try_except {A} (body : io A) (handler : exn → io A) : io A := λ w,
  match body w with
  | (Ok a, w') => (Ok a, w')
  | (Raise e, w') => handler e w'
  end.

Definition emit (ev : event) : io unit := λ w,
  (Ok (), World (wiki w) (queue w) (trace w ++ [ev])).

(** [print(line)] and [tqdm.write(line)] *)
Definition log (line : string) : io unit := emit (ev_log line).

(** [time.sleep(seconds)] *)
Definition sleep (seconds : nat) : io unit := emit (ev_sleep seconds).

Definition get_site : io site := λ w, (Ok (wiki w), w).
Definition set_site (s : site) : io unit := λ w, (Ok (), World s (queue w) (trace w)).

(** [c] raises what the oracle says, or runs [k]. *)
Definition guarded {A} (c : call) (k : io A) : io A :=
  s ← get_site;
  match raises s c with
  | Some e => raise e
  | None => k
  end.

(** [site = pywikibot.Site(); site.login()] *)
Definition site_login : io unit := guarded c_login (ret ()).

(** [page.exists()] *)
Definition page_exists (title : string) : io bool :=
  emit (ev_exists title);;
  guarded (c_exists title)
    (s ← get_site; ret (bool_decide (is_Some (pages s !! title)))).

(** [page.text]: the empty string for a page that does not exist. *)
Definition page_text (title : string) : io string :=
  guarded (c_text title)
    (s ← get_site; ret (from_option text EmptyString (pages s !! title))).

(** [page.revisions()], read to its end. *)
Definition page_revisions (title : string) : io (list revision) :=
  guarded (c_revisions title)
    (s ← get_site;
     match pages s !! title with
     | Some p => ret (history p)
     | None => raise (Exn NoPageError title)
     end).

(** [page.getReferences(follow_redirects=False, filter_redirects=True)] *)
Definition page_getReferences (title : string) : io (list string) :=
  guarded (c_getReferences title) (s ← get_site; ret (references s title)).

(** [page.backlinks(filter_redirects=True)] *)
Definition page_backlinks (title : string) : io (list string) :=
  guarded (c_backlinks title) (s ← get_site; ret (references s title)).

(** [page.isRedirectPage()] *)
Definition page_isRedirectPage (title : string) : io bool :=
  guarded (c_isRedirectPage title)
    (s ← get_site;
     ret (from_option (λ p, bool_decide (is_Some (redirect_target p))) false
             (pages s !! title))).

(** [page.getRedirectTarget().title()] *)
Definition page_getRedirectTarget (title : string) : io string :=
  guarded (c_getRedirectTarget title)
    (s ← get_site;
     match pages s !! title with
     | None => raise (Exn NoPageError title)
     | Some p =>
         match redirect_target p with
         | Some t => ret t
         | None => raise (Exn OtherException title)
         end
     end).

(** The wiki after a mutation that was accepted, or the exception the
    wiki answers.  After a save the page has the text that was saved;
    its history and its redirect target are what the wiki records. *)
Definition apply_mutation (m : mutation) (s : site) : result site :=
  let with_pages ps := Site ps (references s) (raises s) (saved s) in
  match m with
  | m_save title new_text _ =>
      let recorded := saved s title (pages s !! title) new_text in
      Ok (with_pages (<[title := Page new_text recorded.1 recorded.2]> (pages s)))
  | m_delete title _ =>
      match pages s !! title with
      | Some _ => Ok (with_pages (delete title (pages s)))
      | None => Raise (Exn NoPageError title)
      end
  | m_move title new_title _ =>
      match pages s !! title, pages s !! new_title with
      | Some p, None => Ok (with_pages (<[new_title := p]> (delete title (pages s))))
      | None, _ => Raise (Exn NoPageError title)
      | Some _, Some _ => Raise (Exn OtherException new_title)
      end
  end.

Definition call_of (m : mutation) : call :=
  match m with
  | m_save title _ _ => c_save title
  | m_delete title _ => c_delete title
  | m_move title new_title _ => c_move title new_title
  end.

(** A mutation call: it raises (the wiki is left as it was) or the wiki
    changes; either way the call is recorded. *)
Definition mutate (m : mutation) : io unit :=
  s ← get_site;
  match raises s (call_of m) with
  | Some e => emit (ev_mutate m (Some e));; raise e
  | None =>
      match apply_mutation m s with
      | Ok s' => emit (ev_mutate m None);; set_site s'
      | Raise e => emit (ev_mutate m (Some e));; raise e
      end
  end.

(** [page.text = text; page.save(summary=summary, ...)] *)
Definition page_save (title text summary : string) : io unit :=
  mutate (m_save title text summary).
(** [page.delete(reason=reason, mark=True)] *)
Definition page_delete (title reason : string) : io unit :=
  mutate (m_delete title reason).
(** [page.move(new_title, reason=reason)] *)
Definition page_move (title new_title reason : string) : io unit :=
  mutate (m_move title new_title reason).

(** The script's global queue: [put], [get], [empty], [qsize]. *)
Definition queue_put (item : string) : io unit := λ w,
  (Ok (), World (wiki w) (queue w ++ [item]) (trace w)).
Definition queue_empty : io bool := λ w,
  (Ok (bool_decide (queue w = [])), w).
Definition queue_qsize : io nat := λ w, (Ok (length (queue w)), w).
(** [get] on an empty queue would block; the scripts only call it after
    [empty()] returned [False]. *)
Definition queue_get : io string := λ w,
  match queue w with
  | item :: rest => (Ok item, World (wiki w) rest (trace w))
  | [] => (Raise (Exn OtherException "queue.get on an empty queue"), w)
  end.

(** [for x in l: body x] *)
Fixpoint for_each {A} (l : list A) (body : A → io unit) : io unit :=
  match l with
  | [] => ret ()
  | x :: l' => body x;; for_each l' body
  end.

(** A task handed to an executor runs to its end in a worker; what it
    raised is kept in the future and raised again by [future.result()]. *)
Definition run_task {A} (task : io A) : io (result A) := λ w,
  match task w with
  | (r, w') => (Ok r, w')
  end.

Definition future_result {A} (future : result A) : io A :=
  match future with
  | Ok a => ret a
  | Raise e => raise e
  end.

(** [executor.submit(worker, x) for x in xs]: the futures, paired with
    their inputs.  The workers only read the wiki and reach shared
    state through the queue and the log, so their runs are taken one
    after the other. *)
Fixpoint submit_all {A B} (worker : A → io B) (xs : list A) : io (list (A * result B)) :=
  match xs with
  | [] => ret []
  | x :: xs' =>
      r ← run_task (worker x);
      rest ← submit_all worker xs';
      ret ((x, r) :: rest)
  end.

(** The start of a run. *)
Definition init (s : site) : world := World s [] [].

End pywikibot.

(* ===================================================================== *)
(** * search.py: the query evaluator and the page search *)
(* ===================================================================== *)
Module search.
Import pystr pywikibot.

(** The two operators of the search grammar. *)
Definition OR : string := "~OR~".
Definition AND : string := "~AND~".

(** [[p.strip() for p in s.split(sep) if p.strip()]] *)
Definition stripped_parts (sep s : string) : list string :=
  strip <$> filter (λ p, truthy (strip p) = true) (split sep s).

(** [sub in text], or [sub.lower() in text.lower()] when the search is
    not case sensitive. *)
Definition found (case_sensitive : bool) (sub text : string) : bool :=
  if case_sensitive then contains sub text
  else contains (lower sub) (lower text).

(** The body of the [for part in parts] loop of [matches_operator]:
    [true] when the loop returns [True] at [part]. *)
Definition part_matches (case_sensitive : bool) (text part : string) : bool :=
  if contains AND part then
    let subparts := stripped_parts AND part in
    all (λ sub, found case_sensitive sub text) subparts
  else found case_sensitive part text.

Definition matches_operator (term text : string) (case_sensitive : bool) : bool :=
  if contains OR term then
    let parts := stripped_parts OR term in
    any (part_matches case_sensitive text) parts
  else if contains AND term then
    let subparts := stripped_parts AND term in
    all (λ sub, found case_sensitive sub text) subparts
  else found case_sensitive term text.

Definition matches_search (search_str text : string) (case_sensitive : bool) : bool :=
  matches_operator search_str text case_sensitive.

Definition matches_ignore (ignore_str text : string) (case_sensitive : bool) : bool :=
  matches_operator ignore_str text case_sensitive.

(** The tuple [search_page] receives.  [country_code_pattern] is the
    compiled regular expression, used only through
    [country_code_pattern.search(title)]. *)
Record task := Task {
  title : string;
  text : string;
  search_terms_list : list string;
  case_sensitive : bool;
  ignore_strings : list string;
  ignore_country_codes : bool;
  country_code_pattern : string → bool
}.

(** [search_page]: the title when a match is found, [None] otherwise. *)
Definition search_page (t : task) : option string :=
  if ignore_country_codes t && country_code_pattern t (title t) then None
  else if any (λ ignore_str,
                 truthy ignore_str
                 && matches_ignore ignore_str (text t) (case_sensitive t))
              (ignore_strings t)
  then None
  else if any (λ term, matches_search term (text t) (case_sensitive t))
              (search_terms_list t)
  then Some (title t)
  else None.

(** ** The cache file *)

(** The files of the working directory, by name, and the number of
    [write] calls the device still accepts before it fails ([None]: it
    does not fail). *)
Record disk := Disk {
  files : gmap string string;
  writes_left : option nat
}.

(** [open(name, 'w')]: the file is created, or cut to length zero. *)
Definition open_w (name : string) (d : disk) : disk :=
  Disk (<[name := EmptyString]> (files d)) (writes_left d).

(** [f.write(chunk)] on the file opened as [name]. *)
Definition write (name chunk : string) (d : disk) : result unit * disk :=
  match writes_left d with
  | Some O => (Raise (Exn OSError "write failed"), d)
  | budget =>
      (Ok (), Disk (alter (λ content, content +:+ chunk) name (files d))
                   (Nat.pred <$> budget))
  end.

(** [json.dump(obj, f)] writes the chunks of the encoding one by one. *)
Fixpoint dump_chunks (chunks : list string) (name : string) (d : disk)
    : result unit * disk :=
  match chunks with
  | [] => (Ok (), d)
  | chunk :: rest =>
      match write name chunk d with
      | (Ok _, d') => dump_chunks rest name d'
      | (Raise e, d') => (Raise e, d')
      end
  end.

Section cache.
(** The chunks [json.dump(cache, f, ensure_ascii=False)] writes for a
    dictionary: the JSON encoder is Python's, not the repository's. *)
Variable json_chunks : gmap string string → list string.

Definition save_cache (cache : gmap string string) (cache_file : string) (d : disk)
    : result unit * disk :=
  dump_chunks (json_chunks cache) cache_file (open_w cache_file d).

(** [load_batch]: the titles of the batch with their texts (a title
    that comes twice comes with the same text). *)
Definition load_batch (batch : list string) : io (gmap string string) :=
  guarded (c_preload batch)
    (s ← get_site;
     ret (list_to_map
            ((λ title, (title, from_option pywikibot.text EmptyString (pages s !! title)))
               <$> batch))).

(** [[all_titles[i:i+batch_size] for i in range(0, len(all_titles), batch_size)]] *)
Fixpoint batches_of (turns batch_size : nat) (all_titles : list string)
    : list (list string) :=
  match turns, all_titles with
  | S turns', _ :: _ =>
      take batch_size all_titles :: batches_of turns' batch_size (drop batch_size all_titles)
  | _, _ => []
  end.

(** The loop over the completed futures: a batch that failed is
    reported and left out. *)
Fixpoint merge_batches (wiki_cache : gmap string string)
    (completed : list (list string * result (gmap string string)))
    : io (gmap string string) :=
  match completed with
  | [] => ret wiki_cache
  | (_, future) :: rest =>
      wiki_cache' ← try_except
        (batch_dict ← future_result future;
         ret (batch_dict ∪ wiki_cache))
        (λ e, log ("Error loading a batch for cache: " +:+ str e);; ret wiki_cache);
      merge_batches wiki_cache' rest
  end.

Definition update_wiki_cache (as_completed : ∀ A, list A → list A)
    (all_titles : list string) (cache_file : string) (w : world) (d : disk)
    : result (gmap string string) * world * disk :=
  let batch_size := 500%nat in
  let batches := batches_of (length all_titles) batch_size all_titles in
  match (futures ← submit_all load_batch batches;
         merge_batches ∅ (as_completed _ futures)) w with
  | (Raise e, w') => (Raise e, w', d)
  | (Ok wiki_cache, w') =>
      match save_cache wiki_cache cache_file d with
      | (Ok _, d') => (Ok wiki_cache, w', d')
      | (Raise e, d') => (Raise e, w', d')
      end
  end.

End cache.

(** The grammar as the specification words it: the expression is split
    on [~OR~] into clauses, each clause on [~AND~] into terms, and each
    term is one substring test. *)
Definition evaluate_spec (expression text : string) (caseSensitive : bool) : bool :=
  any (λ clause, all (λ term, found caseSensitive term text) (split AND clause))
      (split OR expression).

(** Steps 5 and 6 of [main]: one task for each item of the cache, the
    tasks searched by a pool, the titles found collected as the futures
    complete ([if result: matching_titles.append(result)]), and the list
    sorted.  [search_page] makes no call that can raise, so the
    [except] branch of the collecting loop is never taken. *)
Definition main_search (as_completed : ∀ A, list A → list A)
    (wiki_cache : gmap string string) (search_terms_list : list string)
    (case_sensitive : bool) (ignore_strings : list string)
    (ignore_country_codes : bool) (country_code_pattern : string → bool)
    : list string :=
  let tasks :=
    (λ item, Task item.1 item.2 search_terms_list case_sensitive ignore_strings
               ignore_country_codes country_code_pattern)
      <$> map_to_list wiki_cache in
  let futures := search_page <$> tasks in
  let matching_titles :=
    omap (λ result, match result with
                    | Some title => if truthy title then Some title else None
                    | None => None
                    end)
         (as_completed _ futures) in
  merge_sort String.le matching_titles.

End search.


(* ===================================================================== *)
(** * delete_pages.py: the safety gate, the redirect scan, the deletions *)
(* ===================================================================== *)
Module delete_pages.
Import pystr pywikibot.

Definition allowed_editors : list string := ["CalvyBot"; "Calvy"].

(** The truth value of [revision.user]: false for [None] and for the
    empty string. *)
Definition editor_truthy (editor : option string) : bool :=
  match editor with
  | Some name => truthy name
  | None => false
  end.

(** [editor in allowed_editors] *)
Definition editor_allowed (editor : option string) : bool :=
  match editor with
  | Some name => bool_decide (name ∈ allowed_editors)
  | None => false
  end.

(** The [for revision in revisions] loop of [check_page_edit_safety]:
    [false] when it returns [False] at some revision, [true] when it
    runs to its end. *)
Fixpoint only_allowed_editors (revisions : list revision) : bool :=
  match revisions with
  | [] => true
  | revision :: rest =>
      let editor := user revision in
      if editor_truthy editor && negb (editor_allowed editor) then false
      else only_allowed_editors rest
  end.

Definition check_page_edit_safety (page_title : string) : io bool :=
  try_except
    (page_exists' ← page_exists page_title;
     if negb page_exists' then ret false
     else
       (revisions ← page_revisions page_title;
        ret (only_allowed_editors revisions)))
    (λ e,
       log ("Error checking edit history for " +:+ page_title +:+ ": " +:+ str e);;
       ret false).

(** The body of the loop of [find_redirects_to_page] for one referring
    page: whether its title is appended to [redirects]. *)
Definition is_redirect_to (target_page_title referring_page : string) : io bool :=
  try_except
    (is_redirect ← page_isRedirectPage referring_page;
     if (is_redirect : bool) then
       (redirect_target ← page_getRedirectTarget referring_page;
        ret (bool_decide (redirect_target = target_page_title)))
     else ret false)
    (λ e,
       match class_of e with
       | IsRedirectPageError | NoPageError | InvalidTitleError => ret false
       | _ =>
           log ("Error checking redirect " +:+ referring_page +:+ ": " +:+ str e);;
           ret false
       end).

Fixpoint collect_redirects (target_page_title : string)
    (referring_pages redirects : list string) : io (list string) :=
  match referring_pages with
  | [] => ret redirects
  | referring_page :: rest =>
      hit ← is_redirect_to target_page_title referring_page;
      collect_redirects target_page_title rest
        (if (hit : bool) then redirects ++ [referring_page] else redirects)
  end.

Definition find_redirects_to_page (target_page_title : string) : io (list string) :=
  try_except
    (referring_pages ← page_getReferences target_page_title;
     collect_redirects target_page_title referring_pages [])
    (λ e,
       log ("Error finding redirects for " +:+ target_page_title +:+ ": " +:+ str e);;
       ret []).

Definition process_page_for_redirects (page_title : string)
    : io (string * list string * string) :=
  try_except
    (is_safe ← check_page_edit_safety page_title;
     if negb is_safe then
       (log ("SKIPPED " +:+ page_title +:+ ": edited by unauthorized users");;
        ret (page_title, [], "SKIPPED_UNSAFE"))
     else
       (redirects ← find_redirects_to_page page_title;
        queue_put page_title;;
        for_each redirects queue_put;;
        ret (page_title, redirects, "SAFE")))
    (λ e,
       log ("Error processing " +:+ page_title +:+ ": " +:+ str e);;
       ret (page_title, [], "ERROR")).

(** The variables of [phase_1]. *)
Record phase_1_state := Phase1 {
  redirect_data : gmap string (list string);
  total_redirects_found : nat;
  skipped_unsafe : nat;
  processed_safe : nat
}.

Definition phase_1_start : phase_1_state := Phase1 ∅ 0%nat 0%nat 0%nat.

(** One turn of the [for future in as_completed(futures)] loop.
    [futures[future]] is the title the future was submitted for. *)
Definition phase_1_collect (st : phase_1_state)
    (futures_future : string) (future : result (string * list string * string))
    : io phase_1_state :=
  try_except
    (r ← future_result future;
     let '(page_title, redirects_list, safety_status) := r in
     if decide (safety_status = "SKIPPED_UNSAFE") then
       ret (Phase1 (redirect_data st) (total_redirects_found st)
               (skipped_unsafe st + 1) (processed_safe st))
     else if decide (safety_status = "SAFE") then
       ((if decide (0 < length redirects_list)%nat then
           log ("Found " +:+ pretty (length redirects_list)
                +:+ " redirects for: " +:+ page_title)
         else ret ());;
        ret (Phase1 (<[page_title := redirects_list]> (redirect_data st))
                (total_redirects_found st + length redirects_list)
                (skipped_unsafe st) (processed_safe st + 1)))
     else
       ret (Phase1 (<[page_title := []]> (redirect_data st))
               (total_redirects_found st) (skipped_unsafe st) (processed_safe st)))
    (λ e,
       let page_title := futures_future in
       log ("Error processing " +:+ page_title +:+ ": " +:+ str e);;
       ret (Phase1 (<[page_title := []]> (redirect_data st))
               (total_redirects_found st) (skipped_unsafe st) (processed_safe st))).

Fixpoint phase_1_loop (st : phase_1_state)
    (completed : list (string * result (string * list string * string)))
    : io phase_1_state :=
  match completed with
  | [] => ret st
  | (title, future) :: rest =>
      st' ← phase_1_collect st title future;
      phase_1_loop st' rest
  end.

(** The pool of [phase_1], for the titles read from the list file.
    [worker] is the function submitted for each title and
    [as_completed] the order in which the futures are handed back. *)
Definition phase_1_scan
    (worker : string → io (string * list string * string))
    (as_completed : ∀ A, list A → list A)
    (titles : list string) : io phase_1_state :=
  futures ← submit_all worker titles;
  phase_1_loop phase_1_start (as_completed _ futures).

Definition phase_1 := phase_1_scan process_page_for_redirects.

(** What the third [except] clause of [process_deletion_queue] raises
    when an exception reaches it: the clause names
    [pywikibot.exceptions.PageNotSavedError], which does not exist. *)
Definition attribute_error : exn :=
  Exn AttributeError "module 'pywikibot.exceptions' has no attribute 'PageNotSavedError'".

(** One turn of the [while] loop of [process_deletion_queue], for the
    title taken from the queue.  [counts] is
    [(successful_deletions, failed_deletions)].  The [except] clauses
    are tried in turn: an exception that is neither a [NoPageError] nor
    a [LockedPageError] reaches the third clause, whose class cannot be
    looked up, so the [AttributeError] of the lookup leaves the loop
    and the clauses after it are never reached. *)
Definition delete_one (deletion_reason page_title : string) (counts : nat * nat)
    : io (nat * nat) :=
  let '(successful_deletions, failed_deletions) := counts in
  try_except
    (page_exists' ← page_exists page_title;
     if negb page_exists' then
       (log ("Skipping " +:+ page_title +:+ ": page does not exist");;
        ret (successful_deletions, failed_deletions))
     else
       (page_delete page_title deletion_reason;;
        ret (successful_deletions + 1, failed_deletions)))
    (λ e,
       match class_of e with
       | NoPageError =>
           log ("Skipping " +:+ page_title +:+ ": page does not exist");;
           ret (successful_deletions, failed_deletions)
       | LockedPageError =>
           log ("Failed to delete " +:+ page_title +:+ ": page is protected");;
           ret (successful_deletions, failed_deletions + 1)
       | _ => raise attribute_error
       end).

(** The [while not deletion_queue.empty()] loop.  Every turn takes one
    title off the queue and nothing is put on it meanwhile, so the loop
    makes at most [queue_size] turns; an exception that leaves a turn
    leaves the loop. *)
Fixpoint deletion_loop (turns : nat) (deletion_reason : string) (counts : nat * nat)
    : io (nat * nat) :=
  match turns with
  | O => ret counts
  | S turns' =>
      empty ← queue_empty;
      if (empty : bool) then ret counts
      else
        (page_title ← queue_get;
         counts' ← delete_one deletion_reason page_title counts;
         deletion_loop turns' deletion_reason counts')
  end.

Definition process_deletion_queue (deletion_reason : string) : io (nat * nat) :=
  queue_size ← queue_qsize;
  deletion_loop queue_size deletion_reason (0, 0)%nat.

(** [while not deletion_queue.empty(): deletion_queue.get()] at the start
    of [phase_2]: every turn takes one item off, so the loop makes as
    many turns as the queue holds items. *)
Fixpoint clear_loop (turns : nat) : io unit :=
  match turns with
  | O => ret ()
  | S turns' =>
      empty ← queue_empty;
      if (empty : bool) then ret ()
      else (queue_get;; clear_loop turns')
  end.

Definition clear_queue : io unit :=
  queue_size ← queue_qsize;
  clear_loop queue_size.

(** The inner loop of [phase_2] over the redirects of a page. *)
Fixpoint put_redirects (redirects : list string) (total_pages : nat) : io nat :=
  match redirects with
  | [] => ret total_pages
  | redirect :: rest =>
      queue_put redirect;;
      put_redirects rest (total_pages + 1)
  end.

(** [for page_title, redirects in redirect_data.items()] of [phase_2]. *)
Fixpoint fill_queue (items : list (string * list string)) (total_pages : nat) : io nat :=
  match items with
  | [] => ret total_pages
  | (page_title, redirects) :: rest =>
      queue_put page_title;;
      total_pages' ← put_redirects redirects (total_pages + 1);
      fill_queue rest total_pages'
  end.

(** [phase_2].  [loaded] is what [load_redirect_data()] returned: the
    items of the dictionary read from the JSON file, or [None];
    [confirm] and [deletion_reason_input] are the two answers typed at
    the prompts. *)
Definition phase_2 (loaded : option (list (string * list string)))
    (confirm deletion_reason_input : string) : io bool :=
  site_login;;
  log "Warning: This phase requires administrator/delete permissions.";;
  log "If you don't have delete rights, the script will fail gracefully for each page.";;
  match loaded with
  | None => ret false
  | Some redirect_data =>
      clear_queue;;
      total_pages ← fill_queue redirect_data 0;
      log ("Loaded data for " +:+ pretty (length redirect_data) +:+ " main pages.");;
      log ("Total pages to delete: " +:+ pretty total_pages);;
      if decide (lower confirm ≠ "yes") then
        (log "Operation cancelled.";; ret false)
      else
        (let deletion_reason := strip deletion_reason_input in
         let deletion_reason :=
           if truthy deletion_reason then deletion_reason
           else "Batch deletion via script (including redirects)" in
         log (nl +:+ "Phase 2: Processing deletions single-threaded...");;
         counts ← process_deletion_queue deletion_reason;
         log (nl +:+ "Deletion complete!");;
         log ("Successfully deleted: " +:+ pretty counts.1 +:+ " pages");;
         log ("Failed deletions: " +:+ pretty counts.2 +:+ " pages");;
         ret true)
  end.

End delete_pages.

(* ===================================================================== *)
(** * languageredirects.py: redirects for translated titles *)
(* ===================================================================== *)
Module languageredirects.
Import pystr pywikibot.

Definition illegal_chars : list string :=
  ["{"; "}"; "["; "]"; "<"; ">"; "|"; ":"; "?"; "*";
   String (ascii_of_nat 34) EmptyString; "\"; "/"; "#"; "@"; "&"; "%"].

Definition has_illegal_chars (title : string) : bool :=
  any (λ char, contains char title) illegal_chars.

Definition create_redirect (title target : string) : io unit :=
  if has_illegal_chars target then ret ()
  else
    (redirect_page_exists ← page_exists target;
     if negb redirect_page_exists then
       (let content := "#REDIRECT [[" +:+ title +:+ "]]" in
        page_save target content "Create language redirect";;
        sleep 10)
     else ret ()).

(** [list(redirect_dict.values()).count(v)] *)
Definition values_count (redirect_dict : gmap string string) (v : string) : nat :=
  length (filter (λ v', v' = v) (map_to_list redirect_dict).*2).

(** [{k: v for k, v in redirect_dict.items()
      if list(redirect_dict.values()).count(v) == 1}] *)
Definition unique_redirect_dict (redirect_dict : gmap string string)
    : gmap string string :=
  filter (λ kv, values_count redirect_dict kv.2 = 1%nat) redirect_dict.

(** [main], from the dictionary the scan has filled. *)
Definition main_create (redirect_dict : gmap string string) : io unit :=
  for_each (map_to_list (unique_redirect_dict redirect_dict))
    (λ '(page_name, target), create_redirect page_name target).

(** The [for line in text.splitlines()] loop of [process_line]: it
    stops at the first line that starts with the template, and yields
    its value unless the value has an illegal character. *)
Fixpoint title_value (lines : list string) : option string :=
  match lines with
  | [] => None
  | line :: rest =>
      if startswith "{{Title|" line then
        let title_value := strip (slice 8 2 line) in
        if negb (has_illegal_chars title_value) then Some title_value else None
      else title_value rest
  end.

(** [process_line]: the entry it writes into [redirect_dict], if any. *)
Definition process_line (line : string) : io (option (string * string)) :=
  let title := strip line in
  page_exists' ← page_exists title;
  if negb page_exists' then ret None
  else
    (text ← page_text title;
     ret ((λ title_value, (title, title_value)) <$> title_value (splitlines text))).

(** The [for future in as_completed(futures): future.result()] loop of
    [main].  The workers write their entries into the dictionary that
    [main] reads once every future has been waited for; an exception
    held by a future leaves [main] here, with the dictionary unread. *)
Fixpoint collect (redirect_dict : gmap string string)
    (completed : list (string * result (option (string * string))))
    : io (gmap string string) :=
  match completed with
  | [] => ret redirect_dict
  | (_, future) :: rest =>
      entry ← future_result future;
      collect match entry with
              | Some (title, title_value) => <[title := title_value]> redirect_dict
              | None => redirect_dict
              end rest
  end.

Definition main (as_completed : ∀ A, list A → list A) (lines : list string) : io unit :=
  futures ← submit_all process_line lines;
  redirect_dict ← collect ∅ (as_completed _ futures);
  main_create redirect_dict.

End languageredirects.

(* ===================================================================== *)
(** * movepages.py *)
(* ===================================================================== *)
Module movepages.
Import pystr pywikibot.

Definition move_page (page new_title : string) : io bool :=
  let page_name := page in
  let summary := "Moving page to " +:+ new_title in
  try_except
    (page_move page new_title summary;; ret true)
    (λ e,
       log ("Error moving page " +:+ page_name +:+ ": " +:+ str e);;
       ret false).

(** The body of the [for line in lines] loop of [main]. *)
Definition move_line (line : string) : io unit :=
  let page_name := strip line in
  let new_title := default EmptyString (last (split "/" page_name)) in
  let new_title := new_title +:+ " (scripts item parameter)" in
  moved ← move_page page_name new_title;
  if (moved : bool) then sleep 6 else ret ().

Definition main (lines : list string) : io unit := for_each lines move_line.

End movepages.

(* ===================================================================== *)
(** * findandreplace.py *)
(* ===================================================================== *)
Module findandreplace.
Import pystr pywikibot.

(** [for phrase, replacement in mappings.items():
       text = text.replace(phrase, replacement)]; the phrases of the
    script are not empty. *)
Definition apply_mappings (mappings : list (string * string)) (text : string) : string :=
  foldl (λ text '(phrase, replacement), replace phrase replacement text) text mappings.

(** One turn of the [while] loop of [process_edit_queue]. *)
Definition edit_one (mappings : list (string * string)) (page_title : string) : io unit :=
  try_except
    (page_exists' ← page_exists page_title;
     if (page_exists' : bool) then
       (text ← page_text page_title;
        let original_text := text in
        let text := apply_mappings mappings text in
        if decide (text ≠ original_text) then
          page_save page_title text "update research recipe wording."
        else ret ())
     else ret ())
    (λ e, log ("An error occurred while processing " +:+ page_title +:+ ": " +:+ str e)).

Fixpoint edit_loop (turns : nat) (mappings : list (string * string)) : io unit :=
  match turns with
  | O => ret ()
  | S turns' =>
      empty ← queue_empty;
      if (empty : bool) then ret ()
      else
        (page_title ← queue_get;
         edit_one mappings page_title;;
         edit_loop turns' mappings)
  end.

Definition process_edit_queue (mappings : list (string * string)) : io unit :=
  queue_size ← queue_qsize;
  edit_loop queue_size mappings.

Definition find_and_replace (mappings : list (string * string)) (page_title : string)
    : io (option string) :=
  try_except
    (page_exists' ← page_exists page_title;
     if negb page_exists' then
       (log ("Page " +:+ page_title +:+ " does not exist.");; ret None)
     else
       (text ← page_text page_title;
        let original_text := text in
        let text := apply_mappings mappings text in
        if decide (text ≠ original_text) then ret (Some page_title) else ret None))
    (λ e,
       log ("An error occurred while checking " +:+ page_title +:+ ": " +:+ str e);;
       ret None).

(** The mappings of [main], in the order of the dictionary. *)
Definition mappings : list (string * string) :=
  [("[[Carbonated Water (fluid)|carbonated water]]", "[[Seltzer Water (fluid)|seltzer water]]");
   ("[[Carbonated Water (fluid|carbonated water]]", "[[Seltzer Water (fluid)|seltzer water]]");
   ("[[Tainted Water (fluid)|tainted water]]", "[[Water (Tainted) (fluid)|tainted water]]")].

(** The loop of [main] over the completed futures:
    [result = future.result(); if result: edit_queue.put(result)]. *)
Fixpoint collect (completed : list (string * result (option string))) : io unit :=
  match completed with
  | [] => ret ()
  | (_, future) :: rest =>
      result ← future_result future;
      match result with
      | Some page_title => if truthy page_title then queue_put page_title else ret ()
      | None => ret ()
      end;;
      collect rest
  end.

(** [list(edit_queue.queue)] *)
Definition queue_items : io (list string) := λ w, (Ok (queue w), w).

(** [while not edit_queue.empty(): edit_queue.get()] *)
Fixpoint clear_loop (turns : nat) : io unit :=
  match turns with
  | O => ret ()
  | S turns' =>
      empty ← queue_empty;
      if (empty : bool) then ret ()
      else (queue_get;; clear_loop turns')
  end.

(** [main] with the mappings as a parameter.  [file] is the list of the
    lines of [search_results.txt], or [None] when the file is not there
    ([open] is the only call of the body that raises
    [FileNotFoundError]). *)
Definition main_with (mappings : list (string * string))
    (as_completed : ∀ A, list A → list A) (file : option (list string)) : io unit :=
  match file with
  | None => log "search_results.txt file not found."
  | Some lines =>
      try_except
        (let pages := strip <$> lines in
         futures ← submit_all (find_and_replace mappings) pages;
         collect (as_completed _ futures);;
         items ← queue_items;
         let sorted_pages := merge_sort String.le items in
         queue_size ← queue_qsize;
         clear_loop queue_size;;
         for_each sorted_pages queue_put;;
         log "Processing edit queue...";;
         process_edit_queue mappings)
        (λ e, log ("An unexpected error occurred: " +:+ str e))
  end.

Definition main (as_completed : ∀ A, list A → list A) (file : option (list string))
    : io unit :=
  main_with mappings as_completed file.

End findandreplace.

(* ===================================================================== *)
(** * redirectdictionary.py *)
(* ===================================================================== *)
Module redirectdictionary.
Import pystr pywikibot.

Definition process_article (title : string) : io (string * list string) :=
  let title := strip title in
  if negb (truthy title) then ret (title, [])
  else
    (redirect_list ← try_except
       (page_backlinks title)
       (λ e, log ("Error processing page " +:+ title +:+ ": " +:+ str e);; ret []);
     ret (title, redirect_list)).

(** The variables of the collecting loop of [main]: the dictionary and
    the count of the progress bar. *)
Record main_state := Main {
  redirect_dict : gmap string (list string);
  pbar : nat
}.

(** The [for future in as_completed(futures)] loop: [future.result()]
    is not guarded here. *)
Fixpoint main_loop (st : main_state)
    (completed : list (string * result (string * list string))) : io main_state :=
  match completed with
  | [] => ret st
  | (_, future) :: rest =>
      r ← future_result future;
      let '(title, redirect_list) := r in
      let redirect_dict' :=
        if truthy title then <[title := redirect_list]> (redirect_dict st)
        else redirect_dict st in
      main_loop (Main redirect_dict' (pbar st + 1)) rest
  end.

(** The pool of [main], for the lines read from the list file.
    [worker] is the function submitted for each line and [as_completed]
    the order in which the futures are handed back. *)
Definition main_scan_with (worker : string → io (string * list string))
    (as_completed : ∀ A, list A → list A)
    (article_titles : list string) : io main_state :=
  futures ← submit_all worker article_titles;
  main_loop (Main ∅ 0%nat) (as_completed _ futures).

Definition main_scan := main_scan_with process_article.

End redirectdictionary.

(* ===================================================================== *)
(** * The vocabulary of the properties *)
(* ===================================================================== *)

Import pystr pywikibot.

(** The world after further events. *)
Definition after (w : world) (evs : list event) : world :=
  World (wiki w) (queue w) (trace w ++ evs).

(** [term] occurs in [text]; in their lower-cased forms when the search
    is not case sensitive. *)
Definition Found (case_sensitive : bool) (term text : string) : Prop :=
  if case_sensitive then ∃ a b, text = a +:+ term +:+ b
  else ∃ a b, lower text = a +:+ lower term +:+ b.




Definition is_mutation (ev : event) : Prop :=
  match ev with
  | ev_mutate _ _ => True
  | _ => False
  end.

(** How the collecting loop of [phase_1] handles the future submitted
    for a title: it counts it as safe, counts it as skipped, or (for a
    future that holds an exception, or whose status is neither) records
    the title with no redirects. *)
Definition is_safe_future (f : string * result (string * list string * string)) : bool :=
  match f.2 with
  | Ok (_, _, safety_status) => bool_decide (safety_status = "SAFE")
  | Raise _ => false
  end.

Definition is_skipped_future (f : string * result (string * list string * string)) : bool :=
  match f.2 with
  | Ok (_, _, safety_status) => bool_decide (safety_status = "SKIPPED_UNSAFE")
  | Raise _ => false
  end.

Definition is_error_future (f : string * result (string * list string * string)) : bool :=
  negb (is_safe_future f) && negb (is_skipped_future f).

(** What the loop adds to [total_redirects_found] for a future. *)
Definition redirects_counted (f : string * result (string * list string * string)) : nat :=
  match f.2 with
  | Ok (_, redirects_list, safety_status) =>
      if decide (safety_status = "SAFE") then length redirects_list else 0
  | Raise _ => 0
  end.

(** The entry the loop writes into [redirect_data] for a future. *)
Definition recorded_entry (f : string * result (string * list string * string))
    : option (string * list string) :=
  match f.2 with
  | Raise _ => Some (f.1, [])
  | Ok (page_title, redirects_list, safety_status) =>
      if decide (safety_status = "SKIPPED_UNSAFE") then None
      else if decide (safety_status = "SAFE") then Some (page_title, redirects_list)
      else Some (page_title, [])
  end.

(** The line the loop writes for a future. *)
Definition collect_line (f : string * result (string * list string * string))
    : option string :=
  match f.2 with
  | Raise e => Some ("Error processing " +:+ f.1 +:+ ": " +:+ str e)
  | Ok (page_title, redirects_list, safety_status) =>
      if decide (safety_status = "SAFE") then
        if decide (0 < length redirects_list)
        then Some ("Found " +:+ pretty (length redirects_list)
                   +:+ " redirects for: " +:+ page_title)
        else None
      else None
  end.

(** The chunks written one after the other. *)
Definition joined (chunks : list string) : string := foldr String.append "" chunks.

(** How many of the chunks the device accepts. *)
Definition written (budget : option nat) (chunks : list string) : nat :=
  match budget with
  | None => length chunks
  | Some b => b `min` length chunks
  end.

(** A deletion that the wiki accepted. *)
Definition is_accepted_delete (ev : event) : bool :=
  match ev with
  | ev_mutate (m_delete _ _) None => true
  | _ => false
  end.

Definition accepted_deletes (evs : list event) : nat :=
  length (filter (λ ev, is_accepted_delete ev = true) evs).

(** The titles named by mutation calls, accepted or not. *)
Definition mutated_titles (evs : list event) : list string :=
  omap (λ ev, match ev with
              | ev_mutate m _ =>
                  Some match m with
                       | m_save title _ _ => title
                       | m_delete title _ => title
                       | m_move title _ _ => title
                       end
              | _ => None
              end) evs.

(** The answer of the safety gate, read off the wiki. *)
Definition is_safe (s : site) (title : string) : bool :=
  match raises s (c_exists title), pages s !! title, raises s (c_revisions title) with
  | None, Some p, None => delete_pages.only_allowed_editors (history p)
  | _, _, _ => false
  end.

(** [referring] is found to be a redirect to [target]: the two calls
    on it do not raise, it is a redirect page, and its target is
    [target]. *)
Definition redirects_to (s : site) (target referring : string) : bool :=
  match raises s (c_isRedirectPage referring), pages s !! referring with
  | None, Some p =>
      match redirect_target p, raises s (c_getRedirectTarget referring) with
      | Some t, None => bool_decide (t = target)
      | _, _ => false
      end
  | _, _ => false
  end.

(** The redirects [find_redirects_to_page] returns, read off the wiki. *)
Definition redirects_found (s : site) (target : string) : list string :=
  match raises s (c_getReferences target) with
  | Some _ => []
  | None => filter (λ r, redirects_to s target r = true) (references s target)
  end.

(** The exceptions the deletion loop handles: the classes of its first
    two [except] clauses. *)
Definition handled (e : exn) : bool :=
  match class_of e with
  | NoPageError | LockedPageError => true
  | _ => false
  end.

(** The line the deletion loop writes for an exception it handles, and
    whether the exception is counted as a failed deletion. *)
Definition deletion_line (page_title : string) (e : exn) : string :=
  match class_of e with
  | NoPageError => "Skipping " +:+ page_title +:+ ": page does not exist"
  | _ => "Failed to delete " +:+ page_title +:+ ": page is protected"
  end.

Definition counts_as_failure (e : exn) : nat :=
  match class_of e with
  | NoPageError => 0
  | _ => 1
  end.

(** The wiki without the page [title]. *)
Definition without_page (title : string) (s : site) : site :=
  Site (delete title (pages s)) (references s) (raises s) (saved s).

(** What the scan of a title returns, and what it puts on the deletion
    queue, read off the wiki. *)
Definition scan_result (s : site) (title : string) : string * list string * string :=
  if is_safe s title then (title, redirects_found s title, "SAFE")
  else (title, [], "SKIPPED_UNSAFE").

Definition scan_queued (s : site) (title : string) : list string :=
  if is_safe s title then title :: redirects_found s title else [].

(** The titles a dictionary of redirects names, in the order [phase_2]
    queues them: each page, then its redirects. *)
Definition listed_titles (redirect_data : list (string * list string)) : list string :=
  concat ((λ item, item.1 :: item.2) <$> redirect_data).


(** An event that is no mutation call, or a deletion with the reason
    [reason]. *)
Definition deletes_with (reason : string) (ev : event) : Prop :=
  match ev with
  | ev_mutate (m_delete _ r) _ => r = reason
  | ev_mutate _ _ => False
  | _ => True
  end.

(** The text [load_batch] reads for a title. *)
Definition text_of (s : site) (title : string) : string :=
  from_option pywikibot.text "" (pages s !! title).

(** What the future of a batch holds. *)
Definition batch_future (s : site) (batch : list string) : result (gmap string string) :=
  match raises s (c_preload batch) with
  | Some e => Raise e
  | None => Ok (list_to_map ((λ title, (title, text_of s title)) <$> batch))
  end.

(** The redirects [process_article] returns for a title, read off the
    wiki: none when the call raises. *)
Definition backlinks_found (s : site) (title : string) : list string :=
  match raises s (c_backlinks title) with
  | Some _ => []
  | None => references s title
  end.

(** What [process_article] returns for a line of the input file. *)
Definition article_result (s : site) (line : string) : string * list string :=
  if truthy (strip line) then (strip line, backlinks_found s (strip line))
  else (strip line, []).

(** The scan of [findandreplace] finds that the page [title] needs the
    edit: the two calls on it do not raise, the page exists, and the
    mappings change its text. *)
Definition needs_edit (mappings : list (string * string)) (s : site) (title : string) : bool :=
  match raises s (c_exists title), pages s !! title, raises s (c_text title) with
  | None, Some p, None =>
      bool_decide (findandreplace.apply_mappings mappings (text p) ≠ text p)
  | _, _, _ => false
  end.

(** The wiki after the text of the page [title], with the mappings
    applied, was saved. *)
Definition edited (mappings : list (string * string)) (title : string) (s : site) : site :=
  match pages s !! title with
  | Some p =>
      let new_text := findandreplace.apply_mappings mappings (text p) in
      let recorded := saved s title (Some p) new_text in
      Site (<[title := Page new_text recorded.1 recorded.2]> (pages s))
           (references s) (raises s) (saved s)
  | None => s
  end.

(** From [s] to [s'] no page has come or gone, and a page whose title
    is not in [titles] is as it was. *)
Definition changed_in (titles : list string) (s s' : site) : Prop :=
  references s' = references s
  ∧ raises s' = raises s
  ∧ saved s' = saved s
  ∧ ∀ title,
      (is_Some (pages s' !! title) ↔ is_Some (pages s !! title))
      ∧ (title ∉ titles → pages s' !! title = pages s !! title).



(** What the future of a line of the input holds after the scan. *)
Definition line_future (s : site) (line : string) : result (option (string * string)) :=
  match raises s (c_exists (strip line)) with
  | Some e => Raise e
  | None =>
      match pages s !! strip line with
      | None => Ok None
      | Some p =>
          match raises s (c_text (strip line)) with
          | Some e => Raise e
          | None =>
              Ok ((λ title_value, (strip line, title_value))
                    <$> languageredirects.title_value (splitlines (text p)))
          end
      end
  end.

(** What a turn of the deletion loop answers to an exception [e], from
    the counters [(s, f)]: it writes its line and goes on, or is left
    by the [AttributeError]. *)
Definition deletion_answer (page_title : string) (e : exn) (s f : nat) (w : world)
    : result (nat * nat) * world :=
  if handled e
  then (Ok (s, f + counts_as_failure e), after w [ev_log (deletion_line page_title e)])
  else (Raise delete_pages.attribute_error, w).

(** Every exception the wiki raises for the existence check or the
    deletion of [title] is one the deletion loop handles. *)
Definition faults_handled (s : site) (title : string) : Prop :=
  ∀ e, raises s (c_exists title) = Some e ∨ raises s (c_delete title) = Some e →
       handled e = true.

(* ===================================================================== *)
(** * Example wikis, queues and files *)
(* ===================================================================== *)

(** A page whose text holds both a search term and an ignore string. *)
Definition task_both : search.task :=
  search.Task "Foo" "bread and water" ["bread"] false ["WATER"] false (λ _, false).

(** A wiki with a page edited by the bot, by a user whose name is
    empty and by a user whose name is hidden, and a redirect to it
    written by somebody else. *)
Definition bread : page :=
  Page "Bread is food."
       [Revision (Some "CalvyBot") 1; Revision (Some "") 2; Revision None 3] None.

Definition loaf : page :=
  Page "#REDIRECT [[Bread]]" [Revision (Some "Alice") 4] (Some "Bread").

(** A wiki records a save as one more revision, by the account of the
    bot. *)
Definition bot_revision (title : string) (before : option page) (text : string)
    : list revision * option string :=
  (from_option history [] before ++ [Revision (Some "CalvyBot") 0],
   before ≫= redirect_target).

Definition gate_site : site :=
  Site (<["Bread" := bread]> (<["Loaf" := loaf]> ∅))
       (λ title, if decide (title = "Bread") then ["Loaf"] else [])
       (λ _, None)
       bot_revision.

(** The queue holds a title with no page, then the page ["Bread"]. *)
Definition ghost_first : world := World gate_site ["Ghost"; "Bread"] [].

(** A wiki on which the page ["A"] exists but cannot be moved, and the
    page ["B"] can. *)
Definition locked_site : site :=
  Site (<["A" := Page "a" [] None]> (<["B" := Page "b" [] None]> ∅))
       (λ _, [])
       (λ c, match c with
             | c_move "A" _ => Some (Exn LockedPageError "Page A is locked.")
             | _ => None
             end)
       bot_revision.

(** The candidates of the specification's example. *)
Definition candidates : gmap string string :=
  <["P1" := "X"]> (<["P2" := "X"]> (<["P3" := "Y"]> ∅)).

(** A worker that raises for the title ["Loaf"]. *)
Definition faulty_worker (title : string) : io (string * list string * string) :=
  if decide (title = "Loaf") then raise (Exn OtherException "connection lost")
  else delete_pages.process_page_for_redirects title.

(** The same for the pool of [redirectdictionary]. *)
Definition faulty_article (title : string) : io (string * list string) :=
  if decide (title = "Loaf") then raise (Exn OtherException "connection lost")
  else redirectdictionary.process_article title.

(** A stand-in for the JSON encoder, right for keys and values that
    need no escaping: the chunks are the opening brace, then for each
    item a separator (but for the first), the key in quotes, a colon,
    and the value in quotes, then the closing brace; an empty
    dictionary is one chunk. *)
Definition quoted (s : string) : string :=
  String (ascii_of_nat 34) s +:+ String (ascii_of_nat 34) "".

Fixpoint item_chunks (first : bool) (items : list (string * string)) : list string :=
  match items with
  | [] => []
  | (key, value) :: rest =>
      (if first then [] else [", "]) ++ [quoted key; ": "; quoted value]
      ++ item_chunks false rest
  end.

Definition plain_json_chunks (cache : gmap string string) : list string :=
  match map_to_list cache with
  | [] => ["{}"]
  | items => ["{"] ++ item_chunks true items ++ ["}"]
  end.

(** A disk that holds a published cache and fails at the second write. *)
Definition old_snapshot : string :=
  joined (plain_json_chunks (<["Bread" := "Bread is food."]> ∅)).

Definition failing_disk : search.disk :=
  search.Disk (<["wiki_cache.json" := old_snapshot]> ∅) (Some 1).

Definition new_cache : gmap string string := <["Bread" := "Bread is good."]> ∅.

(** A wiki on which the page ["A"] exists but is protected against
    deletion, and the page ["B"] is not. *)
Definition protected_site : site :=
  Site (<["A" := Page "a" [] None]> (<["B" := Page "b" [] None]> ∅))
       (λ _, [])
       (λ c, match c with
             | c_delete "A" => Some (Exn LockedPageError "Page A is protected.")
             | _ => None
             end)
       bot_revision.

(** A cache of three pages. *)
Definition small_cache : gmap string string :=
  <["Loaf" := "A loaf is bread."]>
    (<["Bread" := "Bread is food."]> (<["Water" := "Water is wet."]> ∅)).

(** A wiki with a translated page: its second line gives the title. *)
Definition translated_site : site :=
  Site (<["Bread/fr" := Page ("{{Header}}" +:+ nl +:+ "{{Title|Pain}}" +:+ nl +:+ "Du pain.")
                          [] None]> ∅)
       (λ _, [])
       (λ _, None)
       bot_revision.

(** The same wiki when the check of the title ["Ghost"] fails. *)
Definition offline_site : site :=
  Site (pages translated_site) (λ _, [])
       (λ c, match c with
             | c_exists "Ghost" => Some (Exn OtherException "connection lost")
             | _ => None
             end)
       bot_revision.

(* ===================================================================== *)
(** * Properties *)
(* ===================================================================== *)

(** ** Strings *)

Lemma append_nil_l (s : string) : "" +:+ s = s.
Proof. reflexivity. Qed.

Lemma append_cons (c : ascii) (s t : string) : String c s +:+ t = String c (s +:+ t).
Proof. reflexivity. Qed.

Ltac str_simpl := rewrite ?append_cons, ?append_nil_l in *.

Lemma append_empty_r (s : string) : s +:+ "" = s.
Proof. induction s as [|c s IH]; [done |]. str_simpl. by rewrite IH. Qed.

Lemma append_assoc (s1 s2 s3 : string) : (s1 +:+ s2) +:+ s3 = s1 +:+ s2 +:+ s3.
Proof. induction s1 as [|c s1 IH]; [done |]. str_simpl. by rewrite IH. Qed.

Lemma startswith_spec (p s : string) :
  startswith p s = true ↔ ∃ b, s = p +:+ b.
Proof.
  revert s. induction p as [|a p IH]; intros s; simpl.
  - split; [eauto | done].
  - destruct s as [|b s].
    + split; [done | by intros [? ?]].
    + destruct (decide (a = b)) as [->|Hne].
      * rewrite IH. split; intros [t Ht]; exists t; str_simpl; [by rewrite Ht | by inversion Ht].
      * split; [done | intros [t Ht]; str_simpl; inversion Ht; congruence].
Qed.

Lemma contains_spec (sub s : string) :
  contains sub s = true ↔ ∃ a b, s = a +:+ sub +:+ b.
Proof.
  induction s as [|c s IH].
  - simpl. rewrite orb_false_r, startswith_spec. split.
    + intros [b Hb]. by exists "", b.
    + intros ([|? a] & b & Hab); [by exists b | done].
  - cbn [contains]. rewrite orb_true_iff, startswith_spec, IH. split.
    + intros [[b Hb]|(a & b & Hab)].
      * by exists "", b.
      * exists (String c a), b. str_simpl. by rewrite Hab.
    + intros ([|c' a] & b & Hab).
      * left. by exists b.
      * right. str_simpl. inversion Hab; subst. by exists a, b.
Qed.

(** A text in which the separator does not occur is one piece. *)
Lemma split_go_absent (sep cur s : string) :
  contains sep s = false → split_go sep 0 cur s = [cur +:+ s].
Proof.
  revert cur. induction s as [|c s IH]; intros cur Hno.
  - simpl. by rewrite append_empty_r.
  - cbn [contains] in Hno. apply orb_false_iff in Hno as [Hp Hs].
    cbn [split_go]. rewrite Hp, (IH _ Hs), append_assoc. done.
Qed.

Lemma split_absent (sep s : string) : contains sep s = false → split sep s = [s].
Proof. intros H. unfold split. by rewrite split_go_absent. Qed.

Lemma lstrip_idem (s : string) : lstrip (lstrip s) = lstrip s.
Proof.
  induction s as [|c s IH]; simpl; [done |].
  destruct (isspace c) eqn:Hc; [done |]. simpl. by rewrite Hc.
Qed.

Lemma rstrip_idem (s : string) : rstrip (rstrip s) = rstrip s.
Proof.
  induction s as [|c s IH]; simpl; [done |].
  destruct (rstrip s) as [|d r] eqn:Hr.
  - destruct (isspace c) eqn:Hc; simpl; [done | by rewrite Hc].
  - cbn [rstrip] in *. by rewrite IH.
Qed.

(** Cutting the left end of a text that has no space at its right end
    leaves none there. *)
Lemma rstrip_lstrip (s : string) : rstrip s = s → rstrip (lstrip s) = lstrip s.
Proof.
  induction s as [|c s IH]; intros Hs; [done |].
  cbn [lstrip]. destruct (isspace c) eqn:Hc; [| done].
  apply IH. cbn [rstrip] in Hs. destruct (rstrip s) as [|d r].
  - rewrite Hc in Hs. done.
  - by inversion Hs.
Qed.

Lemma strip_idem (s : string) : strip (strip s) = strip s.
Proof.
  unfold strip. rewrite (rstrip_lstrip (rstrip s)) by apply rstrip_idem.
  apply lstrip_idem.
Qed.

(** ** The query evaluator (search.py) *)

(** A piece kept by [stripped_parts] is not empty and has no space at
    either end. *)
Lemma stripped_parts_elem (sep s p : string) :
  p ∈ search.stripped_parts sep s → strip p = p ∧ truthy p = true.
Proof.
  unfold search.stripped_parts. intros Hp.
  apply list_elem_of_fmap in Hp as (q & -> & Hq).
  apply list_elem_of_filter in Hq as [Hq _].
  split; [apply strip_idem | done].
Qed.

Lemma stripped_parts_absent (sep p : string) :
  contains sep p = false → strip p = p → truthy p = true →
  search.stripped_parts sep p = [p].
Proof.
  intros Hno Hp Ht. unfold search.stripped_parts.
  rewrite split_absent by done.
  rewrite filter_cons_True by (by rewrite Hp). simpl. by rewrite Hp.
Qed.

Lemma found_spec (cs : bool) (term text : string) :
  search.found cs term text = true ↔ Found cs term text.
Proof. unfold search.found, Found. destruct cs; apply contains_spec. Qed.

Lemma all_spec {A} (f : A → bool) (l : list A) :
  all f l = true ↔ ∀ x, x ∈ l → f x = true.
Proof.
  unfold all. rewrite forallb_forall.
  split; intros H x Hx; apply H; by apply list_elem_of_In.
Qed.

Lemma any_spec {A} (f : A → bool) (l : list A) :
  any f l = true ↔ ∃ x, x ∈ l ∧ f x = true.
Proof.
  unfold any. rewrite existsb_exists.
  split; intros (x & Hx & Hf); exists x; split; try done; by apply list_elem_of_In.
Qed.

(** A clause of an [~OR~] expression matches when all of its [~AND~]
    pieces occur in the text. *)
Lemma part_matches_spec (cs : bool) (text part : string) :
  strip part = part → truthy part = true →
  search.part_matches cs text part = true ↔
  ∀ t, t ∈ search.stripped_parts search.AND part → Found cs t text.
Proof.
  intros Hs Ht. unfold search.part_matches.
  destruct (contains search.AND part) eqn:Hand.
  - rewrite all_spec. by setoid_rewrite found_spec.
  - rewrite stripped_parts_absent by done. rewrite found_spec.
    split; [intros H t ->%list_elem_of_singleton; done |].
    intros H. apply H. by apply list_elem_of_singleton.
Qed.

(** C4, as the specification states it, does not hold: the code trims
    the pieces and drops the empty ones.  With spaces around the
    operator, ["a ~OR~ b"] matches the text ["a"] although neither
    ["a "] nor [" b"] occurs in it; and ["a~OR~"] does not match ["b"]
    although its second clause is empty. *)
Lemma evaluate_spec_differs :
  search.matches_operator "a ~OR~ b" "a" false = true
  ∧ search.evaluate_spec "a ~OR~ b" "a" false = false
  ∧ search.matches_operator "a~OR~" "b" false = false
  ∧ search.evaluate_spec "a~OR~" "b" false = true.
Proof. repeat split; vm_compute; reflexivity. Qed.

(** C4 (amended).  [matches_operator]: an expression that contains
    [~OR~] matches when one of its clauses (the trimmed, non-empty
    pieces between the [~OR~]) has all of its terms (the trimmed,
    non-empty pieces between the [~AND~]) in the text; an expression with
    [~AND~] only matches when all of its terms are in the text; an
    expression with neither operator is one substring test, on the
    expression as it is.  Text and terms are compared in lower case when
    the search is not case sensitive.  The four examples of the
    specification hold. *)
Theorem matches_operator_grammar (term text : string) (cs : bool) :
  (search.matches_operator term text cs = true ↔
     if contains search.OR term then
       ∃ clause, clause ∈ search.stripped_parts search.OR term
         ∧ ∀ t, t ∈ search.stripped_parts search.AND clause → Found cs t text
     else if contains search.AND term then
       ∀ t, t ∈ search.stripped_parts search.AND term → Found cs t text
     else Found cs term text)
  ∧ search.matches_operator "a~OR~b" "a" false = true
  ∧ search.matches_operator "a~AND~b" "a" false = false
  ∧ search.matches_operator "A~AND~b" "aB" false = true
  ∧ search.matches_operator "a~AND~b" "AB" true = false.
Proof.
  split; [| by vm_compute].
  unfold search.matches_operator.
  destruct (contains search.OR term) eqn:Hor.
  - rewrite any_spec. split.
    + intros (part & Hin & Hm). exists part. split; [done |].
      destruct (stripped_parts_elem _ _ _ Hin) as [Hs Ht].
      by apply part_matches_spec.
    + intros (part & Hin & Hall). exists part. split; [done |].
      destruct (stripped_parts_elem _ _ _ Hin) as [Hs Ht].
      by apply part_matches_spec.
  - destruct (contains search.AND term) eqn:Hand.
    + rewrite all_spec. by setoid_rewrite found_spec.
    + apply found_spec.
Qed.

(** ** The page search (search.py) *)

(** C5.  A page whose text is matched by a non-empty ignore string is
    not reported, whatever the search terms are; ignore strings are
    evaluated by the evaluator of the search terms. *)
Theorem ignore_string_excludes (t : search.task) (ignore_str : string) :
  ignore_str ∈ search.ignore_strings t →
  ignore_str ≠ "" →
  search.matches_ignore ignore_str (search.text t) (search.case_sensitive t) = true →
  search.search_page t = None
  ∧ search.matches_ignore ignore_str (search.text t) (search.case_sensitive t)
    = search.matches_search ignore_str (search.text t) (search.case_sensitive t).
Proof.
  intros Hin Hne Hm. split; [| done].
  unfold search.search_page.
  destruct (search.ignore_country_codes t && _); [done |].
  assert (any (λ ignore_str,
                 truthy ignore_str
                 && search.matches_ignore ignore_str (search.text t) (search.case_sensitive t))
              (search.ignore_strings t) = true) as ->; [| done].
  apply any_spec. exists ignore_str. split; [done |].
  rewrite Hm. by destruct ignore_str.
Qed.

Lemma ignore_string_excludes_witness :
  search.search_page task_both = None
  ∧ search.matches_search "bread" (search.text task_both) false = true.
Proof.
  split; [| reflexivity].
  apply (ignore_string_excludes task_both "WATER").
  - simpl. left.
  - discriminate.
  - reflexivity.
Defined.

(** ** The safety gate (delete_pages.py) *)

Lemma after_nil w : after w [] = w.
Proof. destruct w. unfold after. simpl. by rewrite app_nil_r. Qed.

Lemma after_after w evs1 evs2 : after (after w evs1) evs2 = after w (evs1 ++ evs2).
Proof. unfold after. simpl. by rewrite app_assoc. Qed.

Ltac io_unfold :=
  cbv beta iota delta
    [mbind io_bind ret mret io_ret raise try_except guarded get_site set_site
     log sleep emit page_exists page_text page_revisions page_getReferences
     page_backlinks page_isRedirectPage page_getRedirectTarget
     queue_put queue_get queue_empty queue_qsize future_result run_task].

(** What [check_page_edit_safety] does, case by case. *)
Lemma check_page_edit_safety_run (page_title : string) (w : world) :
  delete_pages.check_page_edit_safety page_title w =
  match raises (wiki w) (c_exists page_title) with
  | Some e =>
      (Ok false,
       after w [ev_exists page_title;
                ev_log ("Error checking edit history for " +:+ page_title +:+ ": " +:+ str e)])
  | None =>
      match pages (wiki w) !! page_title with
      | None => (Ok false, after w [ev_exists page_title])
      | Some p =>
          match raises (wiki w) (c_revisions page_title) with
          | Some e =>
              (Ok false,
               after w [ev_exists page_title;
                        ev_log ("Error checking edit history for " +:+ page_title
                                +:+ ": " +:+ str e)])
          | None =>
              (Ok (delete_pages.only_allowed_editors (history p)),
               after w [ev_exists page_title])
          end
      end
  end.
Proof.
  unfold delete_pages.check_page_edit_safety, after. io_unfold. simpl.
  destruct (raises (wiki w) (c_exists page_title)) as [e|]; simpl.
  { by rewrite <- app_assoc. }
  destruct (pages (wiki w) !! page_title) as [p|] eqn:Hp; simpl; [| done].
  destruct (raises (wiki w) (c_revisions page_title)) as [e|]; simpl.
  - by rewrite <- app_assoc.
  - by rewrite Hp.
Qed.

(** The loop over the revisions stops at the first revision whose
    editor is recorded, not empty, and not on the list. *)
Lemma only_allowed_editors_spec (revisions : list revision) :
  delete_pages.only_allowed_editors revisions = true ↔
  ∀ rev name, rev ∈ revisions → user rev = Some name → name ≠ "" →
    name ∈ delete_pages.allowed_editors.
Proof.
  induction revisions as [|r rest IH]; simpl.
  - split; [| done]. intros _ rev name Hin. by apply not_elem_of_nil in Hin.
  - destruct (user r) as [name|] eqn:Hu; simpl.
    + destruct name as [|c name']; simpl.
      * rewrite IH. split.
        -- intros H rev n [->|Hin]%elem_of_cons Hn Hne; [congruence | eauto].
        -- intros H rev n Hin. apply H. by right.
      * destruct (bool_decide _) eqn:Hd; simpl.
        -- apply bool_decide_eq_true in Hd. rewrite IH. split.
           ++ intros H rev n [->|Hin]%elem_of_cons Hn Hne; [congruence | eauto].
           ++ intros H rev n Hin. apply H. by right.
        -- apply bool_decide_eq_false in Hd. split; [done |].
           intros H. exfalso. apply Hd. apply (H r); [by left | done | done].
    + rewrite IH. split.
      * intros H rev n [->|Hin]%elem_of_cons Hn Hne; [congruence | eauto].
      * intros H rev n Hin. apply H. by right.
Qed.

Lemma only_allowed_editors_false (revisions : list revision) :
  delete_pages.only_allowed_editors revisions = false ↔
  ∃ rev name, rev ∈ revisions ∧ user rev = Some name ∧ name ≠ ""
    ∧ name ∉ delete_pages.allowed_editors.
Proof.
  split.
  - induction revisions as [|r rest IH]; simpl; [done |].
    destruct (user r) as [[|c name']|] eqn:Hu; simpl.
    + intros (rev & n & ? & ? & ? & ?)%IH. exists rev, n. split; [by right | done].
    + destruct (bool_decide _) eqn:Hd; simpl.
      * intros (rev & n & ? & ? & ? & ?)%IH. exists rev, n. split; [by right | done].
      * intros _. apply bool_decide_eq_false in Hd.
        exists r, (String c name'). split; [by left | done].
    + intros (rev & n & ? & ? & ? & ?)%IH. exists rev, n. split; [by right | done].
  - intros (rev & name & Hin & Hu & Hne & Hout).
    destruct (delete_pages.only_allowed_editors revisions) eqn:Hall; [| done].
    exfalso. apply Hout.
    by apply (proj1 (only_allowed_editors_spec revisions) Hall rev name).
Qed.

(** A title the gate refuses is reported as skipped and its scan puts
    nothing on the deletion queue. *)
Lemma unsafe_scan_skips (page_title : string) (w w1 : world) :
  delete_pages.check_page_edit_safety page_title w = (Ok false, w1) →
  delete_pages.process_page_for_redirects page_title w =
  (Ok (page_title, [], "SKIPPED_UNSAFE"),
   after w1 [ev_log ("SKIPPED " +:+ page_title +:+ ": edited by unauthorized users")]).
Proof.
  intros Hc. unfold delete_pages.process_page_for_redirects.
  cbv beta iota delta [try_except mbind io_bind]. rewrite Hc. reflexivity.
Qed.

(** C2, as the specification states it, does not hold.  The page
    ["Bread"] is classified safe although one of its revisions has an
    editor, the empty name, that is not on the allow-list; and the title
    ["Loaf"], classified unsafe, is put on the deletion queue, as a
    redirect to ["Bread"]. *)
Lemma safety_gate_not_every_editor :
  (delete_pages.check_page_edit_safety "Bread" (init gate_site)).1 = Ok true
  ∧ (∃ rev, rev ∈ history bread ∧ user rev = Some ""
       ∧ "" ∉ delete_pages.allowed_editors)
  ∧ (delete_pages.check_page_edit_safety "Loaf" (init gate_site)).1 = Ok false
  ∧ queue (delete_pages.phase_1 (λ _ l, l) ["Bread"; "Loaf"] (init gate_site)).2
    = ["Bread"; "Loaf"].
Proof.
  split; [by vm_compute |]. split.
  - exists (Revision (Some "") 2). split; [| split; [done |]].
    + right. left.
    + unfold delete_pages.allowed_editors. intros H.
      repeat (apply elem_of_cons in H as [H|H]; [discriminate |]).
      by apply not_elem_of_nil in H.
  - split; by vm_compute.
Qed.

(** C2 (amended).  The gate always answers.  It answers "safe" exactly
    when the existence check and the history call do not raise, the page
    exists, and every revision whose editor is recorded and not empty
    has its editor on the allow-list.  When it answers "unsafe" the scan
    of the title reports it as skipped and leaves the deletion queue and
    the wiki as they were. *)
Theorem safety_gate_fail_closed (page_title : string) (w : world) :
  let r := delete_pages.check_page_edit_safety page_title w in
  (∃ is_safe, r.1 = Ok is_safe)
  ∧ (r.1 = Ok true ↔
       raises (wiki w) (c_exists page_title) = None
       ∧ raises (wiki w) (c_revisions page_title) = None
       ∧ ∃ p, pages (wiki w) !! page_title = Some p
           ∧ ∀ rev name, rev ∈ history p → user rev = Some name → name ≠ "" →
               name ∈ delete_pages.allowed_editors)
  ∧ (r.1 = Ok false →
       ∃ w', delete_pages.process_page_for_redirects page_title w
             = (Ok (page_title, [], "SKIPPED_UNSAFE"), w')
           ∧ queue w' = queue w ∧ wiki w' = wiki w).
Proof.
  intros r. split; [| split].
  - subst r. rewrite check_page_edit_safety_run.
    destruct (raises _ (c_exists _)); [by eexists |].
    destruct (pages _ !! _); [| by eexists].
    destruct (raises _ (c_revisions _)); by eexists.
  - subst r. rewrite check_page_edit_safety_run.
    destruct (raises _ (c_exists _)) as [e|]; simpl.
    { split; [done | by intros [? _]]. }
    destruct (pages _ !! _) as [p|]; simpl.
    2: { split; [done | by intros (_ & _ & ? & ? & _)]. }
    destruct (raises _ (c_revisions _)) as [e|]; simpl.
    { split; [done | by intros (_ & ? & _)]. }
    split.
    + intros [= H]. do 2 (split; [done |]). exists p. split; [done |].
      by apply only_allowed_editors_spec.
    + intros (_ & _ & p' & [= <-] & H). f_equal.
      by apply only_allowed_editors_spec.
  - intros Hr. destruct (delete_pages.check_page_edit_safety page_title w) as [r1 w1] eqn:Hc.
    subst r. simpl in Hr. subst r1.
    rewrite (unsafe_scan_skips _ _ _ Hc). eexists. split; [done |].
    rewrite check_page_edit_safety_run in Hc.
    destruct (raises _ (c_exists _)); [by inversion Hc |].
    destruct (pages _ !! _); [| by inversion Hc].
    destruct (raises _ (c_revisions _)); by inversion Hc.
Qed.

(** C10.  For a page that exists and whose history is retrieved: when
    every revision has no editor, an empty editor, or an editor on the
    allow-list, the gate answers "safe"; and it answers "unsafe" exactly
    when some revision has a non-empty editor outside the allow-list. *)
Theorem missing_editor_ignored (page_title : string) (w : world) (p : page) :
  raises (wiki w) (c_exists page_title) = None →
  raises (wiki w) (c_revisions page_title) = None →
  pages (wiki w) !! page_title = Some p →
  ((∀ rev, rev ∈ history p →
      user rev = None ∨ user rev = Some ""
      ∨ ∃ name, user rev = Some name ∧ name ∈ delete_pages.allowed_editors) →
   (delete_pages.check_page_edit_safety page_title w).1 = Ok true)
  ∧ ((delete_pages.check_page_edit_safety page_title w).1 = Ok false ↔
     ∃ rev name, rev ∈ history p ∧ user rev = Some name ∧ name ≠ ""
       ∧ name ∉ delete_pages.allowed_editors).
Proof.
  intros He Hr Hp. rewrite check_page_edit_safety_run, He, Hp, Hr. simpl. split.
  - intros H. f_equal. apply only_allowed_editors_spec.
    intros rev name Hin Hu Hne.
    destruct (H rev Hin) as [Hn|[Hn|(n & Hn & Hin')]]; congruence.
  - rewrite <- only_allowed_editors_false. split; [by intros [= ->] | by intros ->].
Qed.

Lemma missing_editor_ignored_witness :
  (delete_pages.check_page_edit_safety "Bread" (init gate_site)).1 = Ok true.
Proof.
  apply (missing_editor_ignored "Bread" (init gate_site) bread);
    [reflexivity | reflexivity | reflexivity |].
  intros rev Hin. unfold bread in Hin. simpl in Hin.
  apply elem_of_cons in Hin as [->|Hin].
  { right. right. exists "CalvyBot". split; [reflexivity | left]. }
  apply elem_of_cons in Hin as [->|Hin]; [by right; left |].
  apply elem_of_cons in Hin as [->|Hin]; [by left |].
  by apply not_elem_of_nil in Hin.
Defined.

(** ** Mutation calls *)

(** What a mutation call does: it raises and leaves the wiki as it was,
    or it changes the wiki; it is recorded in both cases. *)
Lemma mutate_run (m : mutation) (w : world) :
  mutate m w =
  match raises (wiki w) (call_of m) with
  | Some e => (Raise e, after w [ev_mutate m (Some e)])
  | None =>
      match apply_mutation m (wiki w) with
      | Ok s' => (Ok (), World s' (queue w) (trace w ++ [ev_mutate m None]))
      | Raise e => (Raise e, after w [ev_mutate m (Some e)])
      end
  end.
Proof.
  unfold mutate. io_unfold. simpl.
  destruct (raises (wiki w) (call_of m)); [done |].
  by destruct (apply_mutation m (wiki w)).
Qed.

(** ** The deletions (delete_pages.py) *)

(** C8.  When the title at the head of the queue names a page that is
    absent, the turn checks its existence, writes the "Skipping" line
    and nothing else: no deletion is issued, nothing sleeps, neither
    counter moves, the wiki is as it was; the loop goes on with the
    rest of the queue. *)
Theorem absent_page_skipped (deletion_reason page_title : string) (rest : list string)
    (counts : nat * nat) (turns : nat) (w : world) :
  raises (wiki w) (c_exists page_title) = None →
  pages (wiki w) !! page_title = None →
  queue w = page_title :: rest →
  let skipped :=
    [ev_exists page_title;
     ev_log ("Skipping " +:+ page_title +:+ ": page does not exist")] in
  delete_pages.delete_one deletion_reason page_title counts w = (Ok counts, after w skipped)
  ∧ delete_pages.deletion_loop (S turns) deletion_reason counts w
    = delete_pages.deletion_loop turns deletion_reason counts
        (World (wiki w) rest (trace w ++ skipped)).
Proof.
  intros He Hp Hq skipped.
  assert (∀ w0, wiki w0 = wiki w →
            delete_pages.delete_one deletion_reason page_title counts w0
            = (Ok counts, after w0 skipped)) as Hone.
  { intros w0 Hw. destruct counts as [ok failed]. unfold delete_pages.delete_one, after.
    cbv beta iota delta [mbind io_bind try_except page_exists guarded get_site emit log ret
                         mret io_ret raise].
    simpl. rewrite Hw, He. simpl. rewrite Hp. simpl. by rewrite <- app_assoc. }
  split; [by apply Hone |].
  destruct w as [s q tr]. simpl in Hq. subst q.
  cbn [delete_pages.deletion_loop].
  cbv beta iota delta [mbind io_bind queue_empty queue_get]. simpl.
  by rewrite (Hone (World s rest tr) eq_refl).
Qed.

Lemma absent_page_skipped_witness :
  (delete_pages.process_deletion_queue "cleanup" ghost_first).1 = Ok (1, 0)
  ∧ trace (delete_pages.process_deletion_queue "cleanup" ghost_first).2 =
    [ev_exists "Ghost"; ev_log "Skipping Ghost: page does not exist";
     ev_exists "Bread"; ev_mutate (m_delete "Bread" "cleanup") None].
Proof.
  pose proof (absent_page_skipped "cleanup" "Ghost" ["Bread"] (0, 0) 1 ghost_first
                eq_refl eq_refl eq_refl) as [_ H].
  unfold delete_pages.process_deletion_queue.
  cbv beta iota delta [mbind io_bind queue_qsize]. cbv zeta.
  change (length (queue ghost_first)) with 2.
  rewrite H. split; vm_compute; reflexivity.
Defined.

(** ** The delay between mutation calls (movepages.py, findandreplace.py) *)





(** The loop of [findandreplace.process_edit_queue] has no sleep: on a
    queue of two pages that both need the edit, the second save follows
    the first at once. *)
Lemma process_edit_queue_no_sleep :
  let w := World locked_site ["A"; "B"] [] in
  trace (findandreplace.process_edit_queue [("a", "c"); ("b", "c")] w).2 =
    [ev_exists "A"; ev_mutate (m_save "A" "c" "update research recipe wording.") None;
     ev_exists "B"; ev_mutate (m_save "B" "c" "update research recipe wording.") None].
Proof. vm_compute. reflexivity. Qed.

(** ** Redirect creation (languageredirects.py) *)

(** What [create_redirect] does, case by case. *)
Lemma create_redirect_run (title target : string) (w : world) :
  languageredirects.create_redirect title target w =
  if languageredirects.has_illegal_chars target then (Ok (), w)
  else
    match raises (wiki w) (c_exists target) with
    | Some e => (Raise e, after w [ev_exists target])
    | None =>
        match pages (wiki w) !! target with
        | Some _ => (Ok (), after w [ev_exists target])
        | None =>
            (save ← page_save target ("#REDIRECT [[" +:+ title +:+ "]]")
                      "Create language redirect";
             sleep 10) (after w [ev_exists target])
        end
    end.
Proof.
  unfold languageredirects.create_redirect.
  destruct (languageredirects.has_illegal_chars target); [reflexivity |].
  cbv beta iota delta [mbind io_bind page_exists guarded get_site emit ret mret io_ret raise].
  simpl. destruct (raises (wiki w) (c_exists target)); [reflexivity |].
  destruct (pages (wiki w) !! target) eqn:Hp; simpl; rewrite Hp; reflexivity.
Qed.

(** C9.  [create_redirect] never writes over a page.  When the target
    has an illegal character or a page with the target title exists, the
    events it adds hold no mutation call and the wiki is as it was.  In
    every case, a mutation call it issues is the save of the redirect
    text to the target, the target then names no page and has no illegal
    character, and every page that exists keeps its content. *)
Theorem create_redirect_never_overwrites (title target : string) (w : world) :
  ∃ r w' evs, languageredirects.create_redirect title target w = (r, w')
    ∧ trace w' = trace w ++ evs
    ∧ (languageredirects.has_illegal_chars target = true
       ∨ is_Some (pages (wiki w) !! target) →
       wiki w' = wiki w ∧ ∀ ev, ev ∈ evs → ¬ is_mutation ev)
    ∧ (∀ m raised, ev_mutate m raised ∈ evs →
         m = m_save target ("#REDIRECT [[" +:+ title +:+ "]]") "Create language redirect"
         ∧ pages (wiki w) !! target = None
         ∧ languageredirects.has_illegal_chars target = false)
    ∧ (∀ t p, pages (wiki w) !! t = Some p → pages (wiki w') !! t = Some p).
Proof.
  rewrite create_redirect_run.
  destruct (languageredirects.has_illegal_chars target) eqn:Hill.
  { exists (Ok ()), w, []. rewrite app_nil_r.
    split; [done |]. split; [done |]. split; [| split; [| done]].
    - intros _. split; [done |]. intros ev Hev. by apply not_elem_of_nil in Hev.
    - intros m raised Hin. by apply not_elem_of_nil in Hin. }
  destruct (raises (wiki w) (c_exists target)) as [e|] eqn:He.
  { exists (Raise e), (after w [ev_exists target]), [ev_exists target].
    split; [done |]. split; [done |]. split; [| split; [| done]].
    - intros _. split; [done |]. intros ev ->%list_elem_of_singleton. simpl. tauto.
    - intros m raised Hin. by apply list_elem_of_singleton in Hin. }
  destruct (pages (wiki w) !! target) as [p|] eqn:Hp.
  { exists (Ok ()), (after w [ev_exists target]), [ev_exists target].
    split; [done |]. split; [done |]. split; [| split; [| done]].
    - intros _. split; [done |]. intros ev ->%list_elem_of_singleton. simpl. tauto.
    - intros m raised Hin. by apply list_elem_of_singleton in Hin. }
  unfold page_save. cbv beta iota delta [mbind io_bind sleep emit].
  rewrite mutate_run. simpl. rewrite Hp.
  set (m := m_save target ("#REDIRECT [[" +:+ title +:+ "]]") "Create language redirect").
  destruct (raises (wiki w) (c_save target)) as [e|].
  - exists (Raise e), (after (after w [ev_exists target]) [ev_mutate m (Some e)]),
      [ev_exists target; ev_mutate m (Some e)].
    split; [done |]. split; [simpl; by rewrite <- app_assoc |].
    split; [intros [?|[? ?]]; done |]. split; [| done].
    intros m' raised Hin. apply elem_of_cons in Hin as [?|Hin]; [done |].
    apply list_elem_of_singleton in Hin. by inversion Hin.
  - eexists (Ok ()), _, [ev_exists target; ev_mutate m None; ev_sleep 10].
    split; [done |]. split; [simpl; by rewrite <- !app_assoc |].
    split; [intros [?|[? ?]]; done |]. split.
    + intros m' raised Hin. apply elem_of_cons in Hin as [?|Hin]; [done |].
      apply elem_of_cons in Hin as [Hin|Hin]; [by inversion Hin |].
      by apply list_elem_of_singleton in Hin.
    + intros t p Ht. simpl. rewrite lookup_insert_ne; [done | congruence].
Qed.

(** ** The uniqueness filter (languageredirects.py) *)

Lemma values_count_empty (v : string) : languageredirects.values_count ∅ v = 0.
Proof. unfold languageredirects.values_count. by rewrite map_to_list_empty. Qed.

Lemma values_count_insert (m : gmap string string) (k x v : string) :
  m !! k = None →
  languageredirects.values_count (<[k := x]> m) v
  = (if decide (x = v) then 1 else 0) + languageredirects.values_count m v.
Proof.
  intros Hk. unfold languageredirects.values_count.
  rewrite (map_to_list_insert m k x Hk). rewrite fmap_cons. simpl.
  rewrite filter_cons. by destruct (decide (x = v)).
Qed.

(** No entry has the value [v] exactly when its count is zero. *)
Lemma values_count_zero (m : gmap string string) (v : string) :
  languageredirects.values_count m v = 0 ↔ ∀ k, m !! k ≠ Some v.
Proof.
  induction m as [|k x m Hk _ IH] using map_first_key_ind.
  - rewrite values_count_empty. split; [| done]. intros _ k. by rewrite lookup_empty.
  - rewrite values_count_insert by done. destruct (decide (x = v)) as [->|Hne].
    + split; [done |]. intros H. specialize (H k). by rewrite lookup_insert_eq in H.
    + simpl. rewrite IH. split.
      * intros H k'. destruct (decide (k = k')) as [->|Hkk].
        -- rewrite lookup_insert_eq. congruence.
        -- rewrite lookup_insert_ne by done. apply H.
      * intros H k' Hk'. apply (H k'). rewrite lookup_insert_ne; [done |].
        intros ->. congruence.
Qed.

(** The count of [v] is one exactly when one key, and only one, is
    mapped to [v]. *)
Lemma values_count_one (m : gmap string string) (v : string) :
  languageredirects.values_count m v = 1 ↔
  ∃ k, m !! k = Some v ∧ ∀ k', m !! k' = Some v → k' = k.
Proof.
  induction m as [|k x m Hk _ IH] using map_first_key_ind.
  - rewrite values_count_empty. split; [done |]. intros (k & Hk & _).
    by rewrite lookup_empty in Hk.
  - rewrite values_count_insert by done. destruct (decide (x = v)) as [->|Hne].
    + assert (1 + languageredirects.values_count m v = 1
              ↔ languageredirects.values_count m v = 0) as -> by lia.
      rewrite values_count_zero. split.
      * intros Hnone. exists k. split; [by rewrite lookup_insert_eq |].
        intros k' Hk'. destruct (decide (k = k')) as [->|Hkk]; [done |].
        rewrite lookup_insert_ne in Hk' by done. by destruct (Hnone k').
      * intros (k0 & Hk0 & Huniq) k' Hk'.
        assert (k = k0) as <-. { apply Huniq. by rewrite lookup_insert_eq. }
        assert (k' = k) as ->. { apply Huniq. rewrite lookup_insert_ne; [done |].
                                 intros ->. congruence. }
        congruence.
    + simpl. rewrite IH. split.
      * intros (k0 & Hk0 & Huniq). exists k0.
        assert (k ≠ k0) by (intros ->; congruence).
        split; [by rewrite lookup_insert_ne |].
        intros k' Hk'. destruct (decide (k = k')) as [->|Hkk].
        -- rewrite lookup_insert_eq in Hk'. congruence.
        -- rewrite lookup_insert_ne in Hk' by done. by apply Huniq.
      * intros (k0 & Hk0 & Huniq).
        assert (k ≠ k0).
        { intros ->. rewrite lookup_insert_eq in Hk0. congruence. }
        exists k0. rewrite lookup_insert_ne in Hk0 by done. split; [done |].
        intros k' Hk'. apply Huniq. rewrite lookup_insert_ne; [done |].
        intros ->. congruence.
Qed.

(** C6.  After the uniqueness filter an entry is kept exactly when its
    value occurs once among the values of the dictionary, that is, when
    no other key is mapped to the same value; from
    [{P1: X, P2: X, P3: Y}] exactly [{P3: Y}] is kept. *)
Theorem unique_redirect_dict_spec (redirect_dict : gmap string string) (k v : string) :
  (languageredirects.unique_redirect_dict redirect_dict !! k = Some v ↔
     redirect_dict !! k = Some v ∧ languageredirects.values_count redirect_dict v = 1)
  ∧ (languageredirects.unique_redirect_dict redirect_dict !! k = Some v ↔
     redirect_dict !! k = Some v ∧ ∀ k', redirect_dict !! k' = Some v → k' = k)
  ∧ languageredirects.unique_redirect_dict candidates = {["P3" := "Y"]}.
Proof.
  assert (languageredirects.unique_redirect_dict redirect_dict !! k = Some v ↔
          redirect_dict !! k = Some v
          ∧ languageredirects.values_count redirect_dict v = 1) as Hcount.
  { unfold languageredirects.unique_redirect_dict. by rewrite map_lookup_filter_Some. }
  split; [done |]. split.
  - rewrite Hcount, values_count_one. split.
    + intros (Hk & k0 & Hk0 & Huniq). split; [done |].
      intros k' Hk'. rewrite (Huniq k' Hk'). symmetry. by apply Huniq.
    + intros (Hk & Huniq). split; [done |]. by exists k.
  - apply map_eq. intros key. apply option_eq. intros value.
    unfold languageredirects.unique_redirect_dict. rewrite map_lookup_filter_Some.
    rewrite lookup_singleton_Some. unfold candidates. split.
    + intros [Hl Hc]. simpl in Hc.
      destruct (decide (key = "P1")) as [->|?].
      { rewrite lookup_insert_eq in Hl. inversion Hl; subst. by vm_compute in Hc. }
      rewrite lookup_insert_ne in Hl by done.
      destruct (decide (key = "P2")) as [->|?].
      { rewrite lookup_insert_eq in Hl. inversion Hl; subst. by vm_compute in Hc. }
      rewrite lookup_insert_ne in Hl by done.
      destruct (decide (key = "P3")) as [->|?].
      { rewrite lookup_insert_eq in Hl. by inversion Hl. }
      rewrite lookup_insert_ne in Hl by done. by rewrite lookup_empty in Hl.
    + intros [<- <-]. split; by vm_compute.
Qed.

(** ** The scan pool (delete_pages.py, redirectdictionary.py) *)

(** Submitting never raises: what a worker raises stays in its future.
    There is one future for each input, in the order of the inputs, and
    each holds what the worker returned or raised for that input. *)
Lemma submit_all_run {A B} (worker : A → io B) (xs : list A) (w : world) :
  ∃ futures w', submit_all worker xs w = (Ok futures, w')
    ∧ futures.*1 = xs
    ∧ Forall (λ f, ∃ w1 w2, worker f.1 w1 = (f.2, w2)) futures.
Proof.
  revert w. induction xs as [|x xs IH]; intros w.
  - exists [], w. by repeat split.
  - cbn [submit_all]. cbv beta iota delta [mbind io_bind run_task ret mret io_ret].
    destruct (worker x w) as [r w1] eqn:Hx.
    destruct (IH w1) as (futures & w' & -> & Hfst & Hall).
    exists ((x, r) :: futures), w'. split; [done |]. split; [rewrite fmap_cons; simpl; by f_equal |].
    constructor; [by exists w, w1 | done].
Qed.

(** One turn of the collecting loop of [phase_1], whatever the future
    holds: it returns, and what it does to the variables of [phase_1]
    and what it writes are read off the future. *)
Lemma phase_1_collect_any (st : delete_pages.phase_1_state) (title : string)
    (future : result (string * list string * string)) (w : world) :
  ∃ st',
    delete_pages.phase_1_collect st title future w
    = (Ok st', after w (ev_log <$> option_list (collect_line (title, future))))
    ∧ delete_pages.processed_safe st'
      = delete_pages.processed_safe st + (if is_safe_future (title, future) then 1 else 0)
    ∧ delete_pages.skipped_unsafe st'
      = delete_pages.skipped_unsafe st + (if is_skipped_future (title, future) then 1 else 0)
    ∧ delete_pages.total_redirects_found st'
      = delete_pages.total_redirects_found st + redirects_counted (title, future)
    ∧ delete_pages.redirect_data st'
      = match recorded_entry (title, future) with
        | Some (t, l) => <[t := l]> (delete_pages.redirect_data st)
        | None => delete_pages.redirect_data st
        end.
Proof.
  unfold delete_pages.phase_1_collect, collect_line, is_safe_future, is_skipped_future,
    recorded_entry, redirects_counted.
  cbv beta iota delta [mbind io_bind try_except future_result ret mret io_ret raise log emit].
  destruct future as [[[page_title redirects_list] safety_status]|e]; simpl.
  - destruct (decide (safety_status = "SKIPPED_UNSAFE")) as [->|Hs]; simpl.
    { eexists. rewrite after_nil. split; [reflexivity |]. simpl.
      split; [lia |]. split; [lia |]. split; [lia | done]. }
    rewrite (bool_decide_false _ Hs).
    destruct (decide (safety_status = "SAFE")) as [->|Hsafe]; simpl.
    + destruct (decide (0 < length redirects_list)); simpl.
      * eexists. split; [reflexivity |]. simpl.
        split; [lia |]. split; [lia |]. split; [lia | done].
      * eexists. rewrite after_nil. split; [reflexivity |]. simpl.
        split; [lia |]. split; [lia |]. split; [lia | done].
    + rewrite (bool_decide_false _ Hsafe).
      eexists. rewrite after_nil. split; [reflexivity |]. simpl.
      split; [lia |]. split; [lia |]. split; [lia | done].
  - eexists. split; [reflexivity |]. simpl.
    split; [lia |]. split; [lia |]. split; [lia | done].
Qed.

(** The collecting loop of [phase_1] over any list of futures: it
    returns; its counters count the futures by their status, its lines
    are the lines of the futures, and [redirect_data] holds the entries
    of the futures besides what it held. *)
Lemma phase_1_loop_any (st : delete_pages.phase_1_state)
    (completed : list (string * result (string * list string * string))) (w : world) :
  ∃ st',
    delete_pages.phase_1_loop st completed w
    = (Ok st', after w (ev_log <$> omap collect_line completed))
    ∧ delete_pages.processed_safe st'
      = delete_pages.processed_safe st
        + length (filter (λ f, is_safe_future f = true) completed)
    ∧ delete_pages.skipped_unsafe st'
      = delete_pages.skipped_unsafe st
        + length (filter (λ f, is_skipped_future f = true) completed)
    ∧ delete_pages.total_redirects_found st'
      = delete_pages.total_redirects_found st + sum_list_with redirects_counted completed
    ∧ (∀ t l, delete_pages.redirect_data st' !! t = Some l →
         delete_pages.redirect_data st !! t = Some l
         ∨ ∃ f, f ∈ completed ∧ recorded_entry f = Some (t, l))
    ∧ (∀ t, is_Some (delete_pages.redirect_data st !! t)
            ∨ (∃ f l, f ∈ completed ∧ recorded_entry f = Some (t, l))
            → is_Some (delete_pages.redirect_data st' !! t)).
Proof.
  revert st w. induction completed as [|[title future] completed IH]; intros st w.
  - exists st. simpl. rewrite after_nil. split; [done |]. simpl.
    split; [lia |]. split; [lia |]. split; [lia |]. split; [by left |].
    intros t [? | (f & l & Hin & _)]; [done |]. by apply elem_of_nil in Hin.
  - cbn [delete_pages.phase_1_loop]. cbv beta iota delta [mbind io_bind].
    destruct (phase_1_collect_any st title future w)
      as (st1 & -> & Hsafe1 & Hskip1 & Htotal1 & Hd1).
    destruct (IH st1 (after w (ev_log <$> option_list (collect_line (title, future)))))
      as (st' & -> & Hsafe & Hskip & Htotal & Hfrom & Hto).
    exists st'. split.
    { rewrite after_after. f_equal. f_equal. cbn [omap list_omap].
      change (list_omap _ _ collect_line completed) with (omap collect_line completed).
      destruct (collect_line (title, future)); by rewrite <- fmap_app. }
    split.
    { rewrite Hsafe, Hsafe1. destruct (is_safe_future (title, future)) eqn:H1.
      - rewrite filter_cons_True by done. simpl. lia.
      - rewrite filter_cons_False by congruence. lia. }
    split.
    { rewrite Hskip, Hskip1. destruct (is_skipped_future (title, future)) eqn:H2.
      - rewrite filter_cons_True by done. simpl. lia.
      - rewrite filter_cons_False by congruence. lia. }
    split; [rewrite Htotal, Htotal1; simpl; lia |].
    split.
    + intros t l Hl. destruct (Hfrom t l Hl) as [H1 | (f & Hin & Hf)].
      * rewrite Hd1 in H1.
        destruct (recorded_entry (title, future)) as [[t0 l0]|] eqn:Hr; [| by left].
        destruct (decide (t0 = t)) as [->|Hne].
        -- rewrite lookup_insert_eq in H1. injection H1 as ->.
           right. exists (title, future). split; [by left | done].
        -- rewrite lookup_insert_ne in H1 by done. by left.
      * right. exists f. split; [by right | done].
    + intros t Ht. apply Hto. rewrite Hd1.
      destruct Ht as [Ht | (f & l & Hin & Hf)].
      * left. destruct (recorded_entry (title, future)) as [[t0 l0]|]; [| done].
        apply lookup_insert_is_Some. destruct (decide (t0 = t)); [by left | by right].
      * apply elem_of_cons in Hin as [-> | Hin].
        -- left. rewrite Hf. by rewrite lookup_insert_eq.
        -- right. by exists f, l.
Qed.

(** Every future is safe, skipped or an error, and only one of them. *)
Lemma futures_by_status (futures : list (string * result (string * list string * string))) :
  length (filter (λ f, is_safe_future f = true) futures)
  + length (filter (λ f, is_skipped_future f = true) futures)
  + length (filter (λ f, is_error_future f = true) futures)
  = length futures.
Proof.
  induction futures as [|f futures IH]; [done |].
  assert (is_safe_future f = true → is_skipped_future f = true → False) as Hex.
  { unfold is_safe_future, is_skipped_future.
    destruct f.2 as [[[? ?] status]|]; [| done].
    intros ->%bool_decide_eq_true. by intros ?%bool_decide_eq_true. }
  destruct (is_safe_future f) eqn:H1; [| destruct (is_skipped_future f) eqn:H2].
  - assert (is_skipped_future f = false) as H2.
    { destruct (is_skipped_future f); [by destruct Hex | done]. }
    rewrite (filter_cons_True (λ f, is_safe_future f = true)) by done.
    rewrite (filter_cons_False (λ f, is_skipped_future f = true)) by congruence.
    rewrite (filter_cons_False (λ f, is_error_future f = true))
      by (unfold is_error_future; rewrite H1; done).
    simpl. lia.
  - rewrite (filter_cons_False (λ f, is_safe_future f = true)) by congruence.
    rewrite (filter_cons_True (λ f, is_skipped_future f = true)) by done.
    rewrite (filter_cons_False (λ f, is_error_future f = true))
      by (unfold is_error_future; rewrite H1, H2; done).
    simpl. lia.
  - rewrite (filter_cons_False (λ f, is_safe_future f = true)) by congruence.
    rewrite (filter_cons_False (λ f, is_skipped_future f = true)) by congruence.
    rewrite (filter_cons_True (λ f, is_error_future f = true))
      by (unfold is_error_future; rewrite H1, H2; done).
    simpl. lia.
Qed.

(** [process_article] catches what the wiki raises. *)
Lemma process_article_returns (title : string) (w : world) :
  ∃ r w', redirectdictionary.process_article title w = (Ok r, w').
Proof.
  unfold redirectdictionary.process_article.
  destruct (negb (truthy (strip title))); [by eexists _, _ |].
  cbv beta iota delta [mbind io_bind try_except page_backlinks guarded get_site ret mret
                       io_ret raise log emit].
  simpl. destruct (raises (wiki w) (c_backlinks (strip title))); by eexists _, _.
Qed.

(** The collecting loop of [redirectdictionary.main] does not guard
    [future.result()]: it runs to its end when no future holds an
    exception, and then counts every future. *)
Lemma main_loop_run (st : redirectdictionary.main_state)
    (completed : list (string * result (string * list string))) (w : world) :
  Forall (λ f, ∃ r, f.2 = Ok r) completed →
  ∃ st', redirectdictionary.main_loop st completed w = (Ok st', w)
    ∧ redirectdictionary.pbar st' = redirectdictionary.pbar st + length completed.
Proof.
  revert st. induction completed as [|[title future] completed IH]; intros st Hall.
  - exists st. split; [done | simpl; lia].
  - inversion Hall as [|? ? [[t l] Hr] Hrest]; subst. simpl in Hr. subst future.
    cbn [redirectdictionary.main_loop].
    cbv beta iota delta [mbind io_bind future_result ret mret io_ret].
    destruct (IH (redirectdictionary.Main
                    (if truthy t then <[t := l]> (redirectdictionary.redirect_dict st)
                     else redirectdictionary.redirect_dict st)
                    (redirectdictionary.pbar st + 1)) Hrest) as (st' & -> & Hp).
    exists st'. split; [done |]. rewrite Hp. simpl. lia.
Qed.

(** A future that holds an exception stops that loop. *)
Lemma main_loop_aborts (st : redirectdictionary.main_state) (title : string) (e : exn)
    (rest : list (string * result (string * list string))) (w : world) :
  redirectdictionary.main_loop st ((title, Raise e) :: rest) w = (Raise e, w).
Proof. reflexivity. Qed.

Lemma main_loop_stops (st : redirectdictionary.main_state)
    (completed : list (string * result (string * list string))) (w : world) :
  Exists (λ f, ∃ e, f.2 = Raise e) completed →
  ∃ e, (∃ title, (title, Raise e) ∈ completed)
       ∧ redirectdictionary.main_loop st completed w = (Raise e, w).
Proof.
  revert st. induction completed as [|[title future] completed IH]; intros st Hex;
    [by apply Exists_nil in Hex |].
  destruct future as [[t l]|e].
  - apply Exists_cons in Hex as [[e He] | Hex]; [done |].
    cbn [redirectdictionary.main_loop].
    cbv beta iota delta [mbind io_bind future_result ret mret io_ret].
    destruct (IH (redirectdictionary.Main
                    (if truthy t then <[t := l]> (redirectdictionary.redirect_dict st)
                     else redirectdictionary.redirect_dict st)
                    (redirectdictionary.pbar st + 1)) Hex) as (e & (t0 & Hin) & Heq).
    exists e. split; [exists t0; by right | done].
  - exists e. split; [exists title; by left | reflexivity].
Qed.

(** C3, as the specification states it, does not hold of the pool of
    [redirectdictionary.main]: its loop calls [future.result()] with no
    handler around it.  With a worker that raises for the second of
    three titles, the pool of [phase_1] records the three titles, and
    the pool of [redirectdictionary.main] is left by the exception and
    records none. *)
Lemma pool_boundary_unguarded :
  (redirectdictionary.main_scan_with faulty_article (λ _ l, l) ["Bread"; "Loaf"; "Ghost"]
     (init gate_site)).1
  = Raise (Exn OtherException "connection lost")
  ∧ ∃ st, (delete_pages.phase_1_scan faulty_worker (λ _ l, l) ["Bread"; "Loaf"; "Ghost"]
             (init gate_site)).1 = Ok st
      ∧ delete_pages.redirect_data st !! "Loaf" = Some []
      ∧ delete_pages.processed_safe st = 1
      ∧ delete_pages.skipped_unsafe st = 1.
Proof.
  split; [vm_compute; reflexivity |].
  eexists. split; [vm_compute; reflexivity |]. repeat split; vm_compute; reflexivity.
Qed.

(** C3 (amended).  In [phase_1], whatever the worker does and in
    whatever order the futures complete, there is one future for each
    input title and the collecting loop handles every one of them and
    returns.  A future counts as safe, as skipped, or as an error, so
    the two counters and the number of errors add up to the number of
    titles; the total of redirects is the sum over the safe futures.  A future that holds an exception is caught by the loop: the
    loop writes the error line for the title the future was submitted
    for, records that title with no redirects, and goes on.  The
    entries of [redirect_data] are the entries of the futures.  In
    [redirectdictionary.main] the loop has no handler: it counts every
    line when no future holds an exception (as is the case with
    [process_article], which catches what the wiki raises), and is left
    by the exception of a future otherwise. *)
Theorem phase_1_handles_every_future
    (worker : string → io (string * list string * string))
    (article_worker : string → io (string * list string))
    (as_completed : ∀ A, list A → list A) (titles : list string) (w : world) :
  (∀ A (l : list A), as_completed A l ≡ₚ l) →
  (∃ futures w1 st lines,
     submit_all worker titles w = (Ok futures, w1)
     ∧ futures.*1 = titles
     ∧ delete_pages.phase_1_scan worker as_completed titles w
       = (Ok st, after w1 (ev_log <$> lines))
     ∧ lines ≡ₚ omap collect_line futures
     ∧ delete_pages.processed_safe st
       = length (filter (λ f, is_safe_future f = true) futures)
     ∧ delete_pages.skipped_unsafe st
       = length (filter (λ f, is_skipped_future f = true) futures)
     ∧ delete_pages.processed_safe st + delete_pages.skipped_unsafe st
       + length (filter (λ f, is_error_future f = true) futures) = length titles
     ∧ delete_pages.total_redirects_found st = sum_list_with redirects_counted futures
     ∧ (∀ title e, (title, Raise e) ∈ futures →
          ("Error processing " +:+ title +:+ ": " +:+ str e) ∈ lines
          ∧ is_Some (delete_pages.redirect_data st !! title))
     ∧ (∀ t l, delete_pages.redirect_data st !! t = Some l →
          ∃ f, f ∈ futures ∧ recorded_entry f = Some (t, l))
     ∧ (∀ f t l, f ∈ futures → recorded_entry f = Some (t, l) →
          is_Some (delete_pages.redirect_data st !! t)))
  ∧ (∃ futures w1,
       submit_all article_worker titles w = (Ok futures, w1)
       ∧ futures.*1 = titles
       ∧ ((∀ f, f ∈ futures → ∃ r, f.2 = Ok r) →
          ∃ st, redirectdictionary.main_scan_with article_worker as_completed titles w
                = (Ok st, w1)
                ∧ redirectdictionary.pbar st = length titles)
       ∧ ((∃ title e, (title, Raise e) ∈ futures) →
          ∃ title e, (title, Raise e) ∈ futures
            ∧ redirectdictionary.main_scan_with article_worker as_completed titles w
              = (Raise e, w1)))
  ∧ ∃ st w', redirectdictionary.main_scan as_completed titles w = (Ok st, w')
      ∧ redirectdictionary.pbar st = length titles.
Proof.
  intros Hperm. split; [| split].
  - destruct (submit_all_run worker titles w) as (futures & w1 & Hs & Hfst & _).
    destruct (phase_1_loop_any delete_pages.phase_1_start (as_completed _ futures) w1)
      as (st & Hloop & Hsafe & Hskip & Htotal & Hfrom & Hto).
    simpl in Hsafe, Hskip, Htotal.
    exists futures, w1, st, (omap collect_line (as_completed _ futures)).
    split; [done |]. split; [done |].
    split.
    { unfold delete_pages.phase_1_scan. cbv beta iota delta [mbind io_bind].
      by rewrite Hs. }
    split; [by rewrite Hperm |].
    assert (delete_pages.processed_safe st
            = length (filter (λ f, is_safe_future f = true) futures)) as Hsafe'.
    { rewrite Hsafe. by rewrite Hperm. }
    assert (delete_pages.skipped_unsafe st
            = length (filter (λ f, is_skipped_future f = true) futures)) as Hskip'.
    { rewrite Hskip. by rewrite Hperm. }
    split; [done |]. split; [done |].
    split.
    { rewrite Hsafe', Hskip', futures_by_status, <- Hfst. by rewrite length_fmap. }
    split; [rewrite Htotal; by rewrite Hperm |].
    split.
    { intros title e Hin. split.
      - apply list_elem_of_omap. exists (title, Raise e). split; [by rewrite Hperm | done].
      - apply Hto. right. exists (title, Raise e), []. split; [by rewrite Hperm | done]. }
    split.
    { intros t l Hl. destruct (Hfrom t l Hl) as [Hn | (f & Hin & Hf)].
      - simpl in Hn. by rewrite lookup_empty in Hn.
      - exists f. split; [by rewrite <- Hperm | done]. }
    intros f t l Hin Hf. apply Hto. right. exists f, l. split; [by rewrite Hperm | done].
  - destruct (submit_all_run article_worker titles w) as (futures & w1 & Hs & Hfst & _).
    exists futures, w1. split; [done |]. split; [done |].
    unfold redirectdictionary.main_scan_with. cbv beta iota delta [mbind io_bind].
    rewrite Hs. split.
    + intros Hok.
      destruct (main_loop_run (redirectdictionary.Main ∅ 0) (as_completed _ futures) w1)
        as (st & Hl & Hbar).
      { apply Forall_forall. intros f Hin. apply Hok. by rewrite <- Hperm. }
      exists st. split; [done |]. rewrite Hbar, Hperm, <- Hfst, length_fmap. done.
    + intros (title & e & Hin).
      destruct (main_loop_stops (redirectdictionary.Main ∅ 0) (as_completed _ futures) w1)
        as (e' & (t' & Hin') & Heq).
      { apply Exists_exists. exists (title, Raise e). split; [by rewrite Hperm |].
        by exists e. }
      exists t', e'. split; [by rewrite <- Hperm | done].
  - destruct (submit_all_run redirectdictionary.process_article titles w)
      as (futures & w1 & Hs & Hfst & Hall).
    assert (Forall (λ f : string * result (string * list string), ∃ r, f.2 = Ok r)
              (as_completed _ futures)) as Hok.
    { rewrite Hperm. eapply Forall_impl; [exact Hall |].
      intros [x r] (w3 & w4 & Hw). simpl in *.
      destruct (process_article_returns x w3) as (r' & w5 & Hr'). exists r'. congruence. }
    destruct (main_loop_run (redirectdictionary.Main ∅ 0) _ w1 Hok) as (st & Hl & Hbar).
    exists st, w1. split.
    { unfold redirectdictionary.main_scan, redirectdictionary.main_scan_with.
      cbv beta iota delta [mbind io_bind]. by rewrite Hs. }
    rewrite Hbar, Hperm, <- Hfst, length_fmap. done.
Qed.

Lemma phase_1_handles_every_future_witness :
  ∃ st w',
    delete_pages.phase_1_scan faulty_worker (λ _ l, reverse l) ["Bread"; "Loaf"; "Ghost"]
      (init gate_site) = (Ok st, w')
    ∧ delete_pages.processed_safe st + delete_pages.skipped_unsafe st = 2
    ∧ is_Some (delete_pages.redirect_data st !! "Loaf").
Proof.
  destruct (phase_1_handles_every_future faulty_worker faulty_article (λ _ l, reverse l)
              ["Bread"; "Loaf"; "Ghost"] (init gate_site))
    as [(futures & w1 & st & lines & Hs & _ & Hrun & _ & _ & _ & Hsum & _ & Herr & _) _].
  { intros A l. apply reverse_Permutation. }
  exists st, (after w1 (ev_log <$> lines)). split; [exact Hrun |].
  vm_compute in Hs. injection Hs as <- _.
  split.
  - assert (length (filter (λ f, is_error_future f = true)
                      [("Bread", Ok ("Bread", ["Loaf"], "SAFE"));
                       ("Loaf", Raise (Exn OtherException "connection lost"));
                       ("Ghost", Ok ("Ghost", [], "SKIPPED_UNSAFE"))]) = 1) as Hone
      by (vm_compute; reflexivity).
    rewrite Hone in Hsum. simpl in Hsum. lia.
  - apply (Herr "Loaf" (Exn OtherException "connection lost")). right. left.
Defined.

Lemma is_redirect_to_returns (target referring : string) (w : world) :
  ∃ hit w', delete_pages.is_redirect_to target referring w = (Ok hit, w')
    ∧ queue w' = queue w.
Proof.
  unfold delete_pages.is_redirect_to.
  cbv beta iota delta [mbind io_bind try_except page_isRedirectPage page_getRedirectTarget
                       guarded get_site ret mret io_ret raise log emit].
  simpl.
  destruct (raises (wiki w) (c_isRedirectPage referring)) as [e|]; simpl.
  { destruct (class_of e); by eexists _, _. }
  destruct (from_option _ _ _); simpl; [| by eexists _, _].
  destruct (raises (wiki w) (c_getRedirectTarget referring)) as [e|]; simpl.
  { destruct (class_of e); by eexists _, _. }
  destruct (pages (wiki w) !! referring) as [p|]; simpl; [| by eexists _, _].
  destruct (redirect_target p); simpl; by eexists _, _.
Qed.

Lemma collect_redirects_returns (target : string) (referring_pages redirects : list string)
    (w : world) :
  ∃ l w', delete_pages.collect_redirects target referring_pages redirects w = (Ok l, w')
    ∧ queue w' = queue w.
Proof.
  revert redirects w. induction referring_pages as [|r rest IH]; intros redirects w.
  - by exists redirects, w.
  - cbn [delete_pages.collect_redirects]. cbv beta iota delta [mbind io_bind].
    destruct (is_redirect_to_returns target r w) as (hit & w1 & -> & Hq).
    destruct (IH (if hit then redirects ++ [r] else redirects) w1) as (l & w' & -> & Hq').
    exists l, w'. split; [done | congruence].
Qed.

Lemma find_redirects_to_page_returns (target : string) (w : world) :
  ∃ l w', delete_pages.find_redirects_to_page target w = (Ok l, w')
    ∧ queue w' = queue w.
Proof.
  unfold delete_pages.find_redirects_to_page.
  cbv beta iota delta [mbind io_bind try_except page_getReferences guarded get_site ret
                       mret io_ret raise log emit].
  simpl. destruct (raises (wiki w) (c_getReferences target)) as [e|]; simpl.
  { by eexists _, _. }
  destruct (collect_redirects_returns target (references (wiki w) target) [] w)
    as (l & w' & -> & Hq).
  by exists l, w'.
Qed.

Lemma for_each_queue_put (l : list string) (w : world) :
  for_each l queue_put w = (Ok (), World (wiki w) (queue w ++ l) (trace w)).
Proof.
  revert w. induction l as [|x l IH]; intros w.
  - destruct w. simpl. by rewrite app_nil_r.
  - cbn [for_each]. cbv beta iota delta [mbind io_bind queue_put].
    rewrite IH. simpl. by rewrite <- app_assoc.
Qed.

(** [process_page_for_redirects] returns, with the title it was given;
    what it puts on the queue is the title and its redirects, when the
    page is safe. *)
Lemma process_page_for_redirects_returns (page_title : string) (w : world) :
  ∃ redirects status w',
    delete_pages.process_page_for_redirects page_title w
    = (Ok (page_title, redirects, status), w')
    ∧ (queue w' = queue w ∨ queue w' = queue w ++ page_title :: redirects).
Proof.
  unfold delete_pages.process_page_for_redirects.
  cbv beta iota delta [try_except mbind io_bind].
  destruct (delete_pages.check_page_edit_safety page_title w) as [r w1] eqn:Hc.
  assert (∃ b, r = Ok b ∧ queue w1 = queue w) as (b & -> & Hq1).
  { rewrite check_page_edit_safety_run in Hc.
    destruct (raises _ (c_exists _)); [inversion Hc; by eexists |].
    destruct (pages _ !! _); [| inversion Hc; by eexists].
    destruct (raises _ (c_revisions _)); inversion Hc; by eexists. }
  destruct b; simpl.
  - destruct (find_redirects_to_page_returns page_title w1) as (l & w2 & -> & Hq2).
    cbv beta iota delta [queue_put]. rewrite for_each_queue_put. simpl.
    eexists _, _, _. split; [done |]. right. simpl.
    by rewrite Hq2, Hq1, <- app_assoc.
  - eexists _, _, _. split; [done |]. left. done.
Qed.

(** ** The cache file (search.py) *)

Lemma dump_chunks_run (chunks : list string) (name content : string) (d : search.disk) :
  search.files d !! name = Some content →
  search.files (search.dump_chunks chunks name d).2
  = <[name := content +:+ joined (take (written (search.writes_left d) chunks) chunks)]>
      (search.files d)
  ∧ ((search.dump_chunks chunks name d).1 = Ok ()
     ↔ written (search.writes_left d) chunks = length chunks).
Proof.
  revert content d. induction chunks as [|chunk rest IH]; intros content d Hc.
  - simpl. destruct (search.writes_left d) as [b|]; simpl.
    + rewrite Nat.min_0_r. simpl. rewrite append_empty_r, insert_id by done. done.
    + rewrite append_empty_r, insert_id by done. done.
  - cbn [search.dump_chunks]. unfold search.write.
    destruct (search.writes_left d) as [[|b]|] eqn:Hb; simpl.
    + rewrite append_empty_r, insert_id by done. done.
    + edestruct (IH (content +:+ chunk)
                    (search.Disk (alter (λ c, c +:+ chunk) name (search.files d)) (Some b)))
        as [Hf Hr].
      { simpl. rewrite lookup_alter_eq, Hc. done. }
      simpl in Hf, Hr. rewrite Hf, Hr. split; [| lia].
      rewrite append_assoc. apply map_eq. intros i.
      destruct (decide (name = i)) as [->|Hne].
      * by rewrite !lookup_insert_eq.
      * by rewrite !lookup_insert_ne, lookup_alter_ne by done.
    + edestruct (IH (content +:+ chunk)
                    (search.Disk (alter (λ c, c +:+ chunk) name (search.files d)) None))
        as [Hf Hr].
      { simpl. rewrite lookup_alter_eq, Hc. done. }
      simpl in Hf, Hr. rewrite Hf, Hr. split; [| lia].
      rewrite append_assoc. apply map_eq. intros i.
      destruct (decide (name = i)) as [->|Hne].
      * by rewrite !lookup_insert_eq.
      * by rewrite !lookup_insert_ne, lookup_alter_ne by done.
Qed.

Lemma merge_batches_returns (wiki_cache : gmap string string)
    (completed : list (list string * result (gmap string string))) (w : world) :
  ∃ merged w', search.merge_batches wiki_cache completed w = (Ok merged, w').
Proof.
  revert wiki_cache w. induction completed as [|[batch future] rest IH]; intros wiki_cache w.
  - by eexists _, _.
  - cbn [search.merge_batches].
    cbv beta iota delta [mbind io_bind try_except future_result ret mret io_ret raise log emit].
    destruct future as [batch_dict|e]; simpl; apply IH.
Qed.

Lemma load_batch_run (batch : list string) (w : world) :
  search.load_batch batch w
  = (batch_future (wiki w) batch, w).
Proof.
  unfold search.load_batch, batch_future, guarded, get_site, text_of.
  cbv beta iota delta [mbind io_bind ret mret io_ret raise].
  by destruct (raises (wiki w) (c_preload batch)).
Qed.

Lemma submit_all_load_batch (batches : list (list string)) (w : world) :
  submit_all search.load_batch batches w
  = (Ok ((λ batch, (batch, batch_future (wiki w) batch)) <$> batches), w).
Proof.
  induction batches as [|batch batches IH]; [done |].
  cbn [submit_all]. cbv beta iota delta [mbind io_bind run_task ret mret io_ret].
  rewrite load_batch_run.
  cbv beta iota delta [mbind io_bind run_task ret mret io_ret] in IH. by rewrite IH.
Qed.

Lemma lookup_batch_dict (f : string → string) (batch : list string) (title : string) :
  (list_to_map ((λ t, (t, f t)) <$> batch) : gmap string string) !! title
  = if decide (title ∈ batch) then Some (f title) else None.
Proof.
  induction batch as [|t batch IH].
  - change (list_to_map ((λ t, (t, f t)) <$> [])) with (∅ : gmap string string).
    rewrite lookup_empty. case_decide as Hin; [by apply elem_of_nil in Hin | done].
  - rewrite fmap_cons. cbn [list_to_map foldr uncurry fst snd].
    destruct (decide (t = title)) as [->|Hne].
    + rewrite lookup_insert_eq.
      destruct (decide (title ∈ title :: batch)) as [|Hnin]; [done |].
      destruct Hnin. by left.
    + rewrite lookup_insert_ne, IH by done.
      destruct (decide (title ∈ batch)) as [Hin|Hnin];
        destruct (decide (title ∈ t :: batch)) as [Hin'|Hnin']; try done.
      * destruct Hnin'. by right.
      * apply elem_of_cons in Hin' as [?|?]; congruence.
Qed.

(** The collecting loop of [update_wiki_cache] on the futures of the
    batches: the wiki is not touched, and a title is in the merged
    dictionary when it was there before or is in a batch that was
    loaded. *)
Lemma merge_batches_scan (s : site) (wiki_cache : gmap string string)
    (completed : list (list string)) (w : world) :
  (∀ title text, wiki_cache !! title = Some text → text = text_of s title) →
  ∃ merged lines,
    search.merge_batches wiki_cache ((λ batch, (batch, batch_future s batch)) <$> completed) w
    = (Ok merged, after w (ev_log <$> lines))
    ∧ (∀ title text, merged !! title = Some text → text = text_of s title)
    ∧ ∀ title, is_Some (merged !! title)
        ↔ is_Some (wiki_cache !! title)
          ∨ ∃ batch, batch ∈ completed ∧ title ∈ batch ∧ raises s (c_preload batch) = None.
Proof.
  revert wiki_cache w. induction completed as [|batch completed IH]; intros wiki_cache w Hc.
  - exists wiki_cache, []. simpl. unfold after. rewrite app_nil_r. destruct w.
    split; [done |]. split; [done |]. intros title. split; [by left |].
    intros [? | (batch & Hin & _)]; [done |]. by apply elem_of_nil in Hin.
  - rewrite fmap_cons. cbn [search.merge_batches].
    cbv beta iota delta [mbind io_bind try_except future_result ret mret io_ret raise log emit].
    unfold batch_future at 1.
    destruct (raises s (c_preload batch)) as [e|] eqn:Hr; simpl.
    + destruct (IH wiki_cache
                  (World (wiki w) (queue w)
                     (trace w ++ [ev_log ("Error loading a batch for cache: " +:+ str e)])))
        as (merged & lines & Heq & Hm & Hd); [done |].
      exists merged, (("Error loading a batch for cache: " +:+ str e) :: lines).
      cbv beta iota delta [mbind io_bind try_except future_result ret mret io_ret raise log
                             emit] in Heq.
      rewrite Heq. unfold after. simpl. rewrite <- app_assoc. split; [done |].
      split; [done |]. intros title. rewrite Hd. split.
      * intros [? | (b & Hin & Ht & Hb)]; [by left |]. right. exists b.
        split; [by right | done].
      * intros [? | (b & Hin & Ht & Hb)]; [by left |].
        apply elem_of_cons in Hin as [-> | Hin]; [congruence |]. right. by exists b.
    + destruct (IH (list_to_map ((λ title, (title, text_of s title)) <$> batch) ∪ wiki_cache) w)
        as (merged & lines & Heq & Hm & Hd).
      { intros title text [Hl | [_ Hl]]%lookup_union_Some_raw; [| by apply Hc].
        rewrite lookup_batch_dict in Hl. destruct (decide (title ∈ batch)); congruence. }
      exists merged, lines.
      cbv beta iota delta [mbind io_bind try_except future_result ret mret io_ret raise log
                             emit] in Heq.
      rewrite Heq. split; [done |]. split; [done |]. intros title. rewrite Hd.
      rewrite lookup_union_is_Some, lookup_batch_dict. split.
      * intros [[Hb | ?] | (b & Hin & Ht & Hb)].
        -- right. exists batch. destruct (decide (title ∈ batch)); [| by destruct Hb].
           split; [by left | done].
        -- by left.
        -- right. exists b. split; [by right | done].
      * intros [? | (b & Hin & Ht & Hb)]; [left; by right |].
        apply elem_of_cons in Hin as [-> | Hin].
        -- left. left. by rewrite decide_True.
        -- right. by exists b.
Qed.

(** Futures that hold what a function of their input gives are the
    inputs paired with it. *)
Lemma futures_shape {A B} (g : A → B) (l : list (A * B)) :
  Forall (λ f, f.2 = g f.1) l → l = (λ x, (x, g x)) <$> l.*1.
Proof.
  induction 1 as [|[x y] l Hy _ IH]; [done |].
  rewrite !fmap_cons. simpl in *. by rewrite Hy, <- IH.
Qed.

(** C7, as the specification states it, does not hold: [save_cache]
    opens the cache file itself for writing.  When the second write
    fails, the file that held the previous snapshot holds the opening
    brace alone, and no other file was written. *)
Lemma save_cache_not_atomic :
  (search.save_cache plain_json_chunks new_cache "wiki_cache.json" failing_disk).1
  = Raise (Exn OSError "write failed")
  ∧ search.files failing_disk !! "wiki_cache.json"
    = Some ("{" +:+ quoted "Bread" +:+ ": " +:+ quoted "Bread is food." +:+ "}")
  ∧ search.files
      (search.save_cache plain_json_chunks new_cache "wiki_cache.json" failing_disk).2
    !! "wiki_cache.json" = Some "{"
  ∧ size (search.files
            (search.save_cache plain_json_chunks new_cache "wiki_cache.json"
               failing_disk).2) = 1.
Proof. repeat split; vm_compute; reflexivity. Qed.

(** C7 (amended).  [save_cache] writes into the cache file itself: the
    file is emptied when it is opened and then holds the chunks of the
    encoding that were written, all of them exactly when the call
    returns; no other file is created or changed.  [update_wiki_cache]
    always reaches [save_cache], and what it hands to it is the merged
    mapping of the batches that could be loaded: a title is in it
    exactly when it is in a batch whose loading did not raise, with the
    text of its page, so the titles of a batch that failed are left
    out (unless another batch holds them) and the rest is persisted
    all the same. *)
Theorem save_cache_in_place (json_chunks : gmap string string → list string)
    (cache : gmap string string) (cache_file : string) (d : search.disk) :
  let chunks := json_chunks cache in
  let k := written (search.writes_left d) chunks in
  let r := search.save_cache json_chunks cache cache_file d in
  search.files r.2 !! cache_file = Some (joined (take k chunks))
  ∧ (∀ name, name ≠ cache_file → search.files r.2 !! name = search.files d !! name)
  ∧ (r.1 = Ok () ↔ k = length chunks)
  ∧ (r.1 = Ok () → search.files r.2 !! cache_file = Some (joined chunks))
  ∧ ∀ (as_completed : ∀ A, list A → list A) all_titles w,
      (∀ A (l : list A), as_completed A l ≡ₚ l) →
      ∃ wiki_cache w',
        search.update_wiki_cache json_chunks as_completed all_titles cache_file w d
        = match search.save_cache json_chunks wiki_cache cache_file d with
          | (Ok _, d') => (Ok wiki_cache, w', d')
          | (Raise e, d') => (Raise e, w', d')
          end
        ∧ wiki w' = wiki w
        ∧ ∀ title text,
            wiki_cache !! title = Some text
            ↔ text = text_of (wiki w) title
              ∧ ∃ batch, batch ∈ search.batches_of (length all_titles) 500 all_titles
                  ∧ title ∈ batch ∧ raises (wiki w) (c_preload batch) = None.
Proof.
  intros chunks k r.
  destruct (dump_chunks_run chunks cache_file "" (search.open_w cache_file d)) as [Hf Hr].
  { simpl. by rewrite lookup_insert_eq. }
  change (search.dump_chunks chunks cache_file (search.open_w cache_file d)) with r in Hf, Hr.
  change (search.writes_left (search.open_w cache_file d)) with (search.writes_left d)
    in Hf, Hr.
  change (search.files (search.open_w cache_file d))
    with (<[cache_file := ""]> (search.files d)) in Hf.
  fold k in Hf, Hr. rewrite insert_insert_eq, append_nil_l in Hf.
  split; [by rewrite Hf, lookup_insert_eq |].
  split; [intros name Hne; rewrite Hf; by rewrite lookup_insert_ne |].
  split; [done |].
  split.
  { intros Hok. apply Hr in Hok. rewrite Hf, lookup_insert_eq, Hok.
    by rewrite firstn_all. }
  intros as_completed all_titles w Hperm. unfold search.update_wiki_cache.
  cbv beta iota delta [mbind io_bind]. cbv zeta.
  rewrite submit_all_load_batch.
  set (batches := search.batches_of (length all_titles) 500 all_titles).
  set (future_of := λ batch : list string, (batch, batch_future (wiki w) batch)).
  assert (Forall (λ f, f.2 = batch_future (wiki w) f.1) (as_completed _ (future_of <$> batches)))
    as Hall.
  { rewrite Hperm. apply Forall_fmap, Forall_true. done. }
  pose proof (futures_shape (batch_future (wiki w)) _ Hall) as Hshape.
  fold future_of in Hshape.
  assert ((as_completed _ (future_of <$> batches)).*1 ≡ₚ batches) as Hsame.
  { rewrite Hperm, <- list_fmap_compose. by rewrite list_fmap_id. }
  rewrite Hshape. clear Hshape Hall. subst future_of. cbv beta.
  destruct (merge_batches_scan (wiki w) ∅
              (as_completed _
                 ((λ batch, (batch, batch_future (wiki w) batch)) <$> batches)).*1 w)
    as (merged & lines & -> & Hm & Hd).
  { intros title text. by rewrite lookup_empty. }
  exists merged, (after w (ev_log <$> lines)). split; [done |]. split; [done |].
  intros title text. split.
  - intros Hl. split; [by apply Hm |].
    destruct (proj1 (Hd title)) as [Hn | (b & Hin & Ht & Hb)]; [by eexists | |].
    + rewrite lookup_empty in Hn. by destruct Hn.
    + exists b. by rewrite <- Hsame.
  - intros [-> (b & Hin & Ht & Hb)].
    destruct (proj2 (Hd title)) as [x Hx].
    { right. exists b. by rewrite Hsame. }
    rewrite Hx. f_equal. by apply Hm.
Qed.

Lemma save_cache_in_place_witness :
  ∃ (wiki_cache : gmap string string) w',
    search.update_wiki_cache plain_json_chunks (λ _ l, reverse l) ["Bread"; "Ghost"]
      "wiki_cache.json" (init gate_site) failing_disk
    = match search.save_cache plain_json_chunks wiki_cache "wiki_cache.json" failing_disk with
      | (Ok _, d') => (Ok wiki_cache, w', d')
      | (Raise e, d') => (Raise e, w', d')
      end
    ∧ wiki_cache !! "Bread" = Some "Bread is food."
    ∧ search.files
        (search.save_cache plain_json_chunks wiki_cache "wiki_cache.json" failing_disk).2
      !! "wiki_cache.json"
      = Some (joined (take (written (Some 1) (plain_json_chunks wiki_cache))
                        (plain_json_chunks wiki_cache))).
Proof.
  destruct (save_cache_in_place plain_json_chunks ∅ "wiki_cache.json" failing_disk)
    as (_ & _ & _ & _ & Hupdate).
  destruct (Hupdate (λ _ l, reverse l) ["Bread"; "Ghost"] (init gate_site))
    as (wiki_cache & w' & Heq & _ & Hc).
  { intros A l. apply reverse_Permutation. }
  exists wiki_cache, w'. split; [exact Heq |]. split.
  - apply Hc. split; [vm_compute; reflexivity |].
    exists ["Bread"; "Ghost"]. split; [vm_compute; left |].
    split; [by left | reflexivity].
  - destruct (save_cache_in_place plain_json_chunks wiki_cache "wiki_cache.json"
                failing_disk) as (Hfile & _).
    exact Hfile.
Defined.

(* ===================================================================== *)
(** * Further properties of the scripts *)
(* ===================================================================== *)

(** ** The deletion loop (delete_pages.py) *)

(** One turn of the deletion loop, case by case. *)
Lemma delete_one_run (deletion_reason page_title : string) (s f : nat) (w : world) :
  delete_pages.delete_one deletion_reason page_title (s, f) w =
  match raises (wiki w) (c_exists page_title) with
  | Some e => deletion_answer page_title e s f (after w [ev_exists page_title])
  | None =>
      match pages (wiki w) !! page_title with
      | None =>
          (Ok (s, f),
           after w [ev_exists page_title;
                    ev_log ("Skipping " +:+ page_title +:+ ": page does not exist")])
      | Some _ =>
          match raises (wiki w) (c_delete page_title) with
          | Some e =>
              deletion_answer page_title e s f
                (after w [ev_exists page_title;
                          ev_mutate (m_delete page_title deletion_reason) (Some e)])
          | None =>
              (Ok (s + 1, f),
               World (without_page page_title (wiki w)) (queue w)
                 (trace w ++ [ev_exists page_title;
                              ev_mutate (m_delete page_title deletion_reason) None]))
          end
      end
  end.
Proof.
  unfold delete_pages.delete_one, page_delete, deletion_answer, after, deletion_line,
    counts_as_failure, handled.
  cbv beta iota delta [mbind io_bind try_except page_exists guarded get_site emit log ret
                       mret io_ret raise].
  simpl.
  destruct (raises (wiki w) (c_exists page_title)) as [e|] eqn:He; simpl.
  { destruct (class_of e); simpl; rewrite <- ?app_assoc, ?Nat.add_0_r; reflexivity. }
  destruct (pages (wiki w) !! page_title) as [p|] eqn:Hp; simpl.
  2: { by rewrite <- app_assoc. }
  rewrite mutate_run. simpl. rewrite Hp.
  destruct (raises (wiki w) (c_delete page_title)) as [e|] eqn:Hd; simpl.
  - destruct (class_of e); unfold after; simpl; rewrite <- ?app_assoc, ?Nat.add_0_r;
      reflexivity.
  - by rewrite <- app_assoc.
Qed.

Lemma accepted_deletes_app (evs1 evs2 : list event) :
  accepted_deletes (evs1 ++ evs2) = accepted_deletes evs1 + accepted_deletes evs2.
Proof. unfold accepted_deletes. by rewrite filter_app, length_app. Qed.

Lemma mutated_titles_app (evs1 evs2 : list event) :
  mutated_titles (evs1 ++ evs2) = mutated_titles evs1 ++ mutated_titles evs2.
Proof. unfold mutated_titles. apply omap_app. Qed.

#[local] Arguments delete_pages.delete_one : simpl never.

(** What one turn of the deletion loop does to the wiki, the trace and
    the counters, whether it returns or is left by the
    [AttributeError]. *)
Lemma delete_one_step (deletion_reason page_title : string) (s f : nat) (w : world) :
  ∃ r w1 evs1,
    delete_pages.delete_one deletion_reason page_title (s, f) w = (r, w1)
    ∧ queue w1 = queue w
    ∧ trace w1 = trace w ++ evs1
    ∧ references (wiki w1) = references (wiki w)
    ∧ raises (wiki w1) = raises (wiki w)
    ∧ size (pages (wiki w)) = size (pages (wiki w1)) + accepted_deletes evs1
    ∧ (∀ t, t ≠ page_title → pages (wiki w1) !! t = pages (wiki w) !! t)
    ∧ (∀ t p, pages (wiki w1) !! t = Some p → pages (wiki w) !! t = Some p)
    ∧ (∀ t, t ∈ mutated_titles evs1 → t = page_title)
    ∧ Forall (deletes_with deletion_reason) evs1
    ∧ match r with
      | Ok (s1, f1) => s1 = s + accepted_deletes evs1 ∧ f ≤ f1 ∧ (s1 - s) + (f1 - f) ≤ 1
      | Raise e => e = delete_pages.attribute_error
      end
    ∧ (faults_handled (wiki w) page_title → ∃ counts, r = Ok counts).
Proof.
  rewrite delete_one_run. unfold deletion_answer, faults_handled.
  assert (∀ e, counts_as_failure e ≤ 1) as Hcf.
  { intros e. unfold counts_as_failure. destruct (class_of e); lia. }
  assert (∀ (l : list string) t, t ∈ l → l = [] ∨ l = [page_title] → t = page_title)
    as Hnamed.
  { intros l t Ht [-> | ->]; [by apply elem_of_nil in Ht |].
    by apply list_elem_of_singleton in Ht. }
  destruct (raises (wiki w) (c_exists page_title)) as [e|] eqn:He.
  { destruct (handled e) eqn:Hh.
    - eexists _, _, [ev_exists page_title; ev_log (deletion_line page_title e)].
      split; [reflexivity |]. simpl. rewrite <- app_assoc.
      repeat (split; [done || lia |]).
      split; [intros t Ht; apply (Hnamed _ _ Ht); by left |].
      split; [by repeat constructor |].
      split; [| by eexists]. specialize (Hcf e). unfold accepted_deletes. simpl. lia.
    - eexists _, _, [ev_exists page_title].
      split; [reflexivity |]. simpl.
      repeat (split; [done || lia |]).
      split; [intros t Ht; apply (Hnamed _ _ Ht); by left |].
      split; [by repeat constructor |]. split; [done |].
      intros Hall. rewrite (Hall e) in Hh; [done | by left]. }
  destruct (pages (wiki w) !! page_title) as [p|] eqn:Hp.
  2: { eexists _, _, [ev_exists page_title; ev_log _].
       split; [reflexivity |]. simpl.
       repeat (split; [done || lia |]).
       split; [intros t Ht; apply (Hnamed _ _ Ht); by left |].
       split; [by repeat constructor |].
       split; [| by eexists]. unfold accepted_deletes. simpl. lia. }
  destruct (raises (wiki w) (c_delete page_title)) as [e|] eqn:Hd.
  { destruct (handled e) eqn:Hh.
    - eexists _, _, [ev_exists page_title;
                     ev_mutate (m_delete page_title deletion_reason) (Some e);
                     ev_log (deletion_line page_title e)].
      split; [reflexivity |]. simpl. rewrite <- app_assoc.
      repeat (split; [done || lia |]).
      split; [intros t Ht; apply (Hnamed _ _ Ht); by right |].
      split; [by repeat constructor |].
      split; [| by eexists]. specialize (Hcf e). unfold accepted_deletes. simpl. lia.
    - eexists _, _, [ev_exists page_title;
                     ev_mutate (m_delete page_title deletion_reason) (Some e)].
      split; [reflexivity |]. simpl.
      repeat (split; [done || lia |]).
      split; [intros t Ht; apply (Hnamed _ _ Ht); by right |].
      split; [by repeat constructor |]. split; [done |].
      intros Hall. rewrite (Hall e) in Hh; [done | by right]. }
  eexists _, _, [ev_exists page_title; ev_mutate (m_delete page_title deletion_reason) None].
  split; [reflexivity |]. simpl.
  split; [done |]. split; [done |]. split; [done |]. split; [done |].
  split.
  { rewrite map_size_delete_Some by done.
    assert (0 < size (pages (wiki w))).
    { destruct (decide (size (pages (wiki w)) = 0)) as [Hz|]; [| lia].
      apply map_size_empty_iff in Hz. rewrite Hz, lookup_empty in Hp. done. }
    unfold accepted_deletes. simpl. lia. }
  split; [intros t Ht; by apply lookup_delete_ne |].
  split; [intros t p' Hl; by apply lookup_delete_Some in Hl as [_ ?] |].
  split; [intros t Ht; apply (Hnamed _ _ Ht); by right |].
  split; [by repeat constructor |].
  split; [| by eexists]. unfold accepted_deletes. simpl. lia.
Qed.

(** The deletion loop, from any state of the counters.  It returns with
    the queue empty, or is left by the [AttributeError] with the titles
    it has not taken still on the queue.  Either way it touches no page
    but the queued ones, and the pages that are gone are the deletions
    the wiki accepted. *)
Lemma deletion_loop_run (deletion_reason : string) (turns s f : nat) (w : world) :
  length (queue w) ≤ turns →
  ∃ r w' evs,
    delete_pages.deletion_loop turns deletion_reason (s, f) w = (r, w')
    ∧ trace w' = trace w ++ evs
    ∧ references (wiki w') = references (wiki w)
    ∧ raises (wiki w') = raises (wiki w)
    ∧ size (pages (wiki w)) = size (pages (wiki w')) + accepted_deletes evs
    ∧ (∀ t, t ∉ queue w → pages (wiki w') !! t = pages (wiki w) !! t)
    ∧ (∀ t p, pages (wiki w') !! t = Some p → pages (wiki w) !! t = Some p)
    ∧ (∀ t, t ∈ mutated_titles evs → t ∈ queue w)
    ∧ Forall (deletes_with deletion_reason) evs
    ∧ match r with
      | Ok (s', f') =>
          queue w' = [] ∧ s' = s + accepted_deletes evs ∧ f ≤ f'
          ∧ (s' - s) + (f' - f) ≤ length (queue w)
      | Raise e =>
          e = delete_pages.attribute_error
          ∧ length (queue w') < length (queue w)
          ∧ queue w' `suffix_of` queue w
      end
    ∧ ((∀ t, t ∈ queue w → faults_handled (wiki w) t) → ∃ counts, r = Ok counts).
Proof.
  revert s f w. induction turns as [|turns IH]; intros s f w Hlen.
  - destruct w as [st q tr]. destruct q; simpl in *; [| lia].
    exists (Ok (s, f)), (World st [] tr), []. rewrite app_nil_r. simpl.
    unfold accepted_deletes. simpl.
    repeat split; try done; try lia; try constructor; by eexists.
  - destruct w as [st q tr]. destruct q as [|page_title rest].
    { exists (Ok (s, f)), (World st [] tr), []. rewrite app_nil_r. simpl.
      unfold accepted_deletes. simpl.
      repeat split; try done; try lia; try constructor; by eexists. }
    cbn [delete_pages.deletion_loop].
    cbv beta iota delta [mbind io_bind queue_empty queue_get]. simpl. simpl in Hlen.
    destruct (delete_one_step deletion_reason page_title s f (World st rest tr))
      as (r1 & w1 & evs1 & -> & Hq1 & Htr1 & Href1 & Hra1 & Hsz1 & Hframe1 & Hkeep1 & Hmut1
          & Hall1 & Hr1 & Hok1).
    simpl in *.
    destruct r1 as [[s1 f1]|e1].
    + destruct (IH s1 f1 w1) as (r & w' & evs & Hrun & Htr & Href & Hra & Hsz & Hframe
                                  & Hkeep & Hmut & Hall & Hr & Hok); [rewrite Hq1; lia |].
      exists r, w', (evs1 ++ evs). split; [done |].
      split; [by rewrite Htr, Htr1, app_assoc |].
      split; [congruence |]. split; [congruence |].
      split; [rewrite accepted_deletes_app; lia |].
      split.
      { intros t Ht. rewrite Hframe, Hframe1; [done | |].
        - intros ->. apply Ht. by left.
        - rewrite Hq1. intros Hin. apply Ht. by right. }
      split; [intros t p Hl; by apply Hkeep1, Hkeep |].
      split.
      { intros t Ht. rewrite mutated_titles_app in Ht.
        apply elem_of_app in Ht as [Ht|Ht]; [rewrite (Hmut1 t Ht); by left |].
        right. rewrite <- Hq1. by apply Hmut. }
      split; [by apply Forall_app |].
      split.
      { destruct r as [[s' f']|e].
        - destruct Hr as (Hq & Hs & Hf & Hsum). destruct Hr1 as (Hs1 & Hf1 & Hsum1).
          rewrite Hq1 in Hsum. rewrite accepted_deletes_app.
          split; [done |]. split; [lia |]. split; [lia |]. lia.
        - destruct Hr as (He & Hlt & Hsuf). rewrite Hq1 in Hlt, Hsuf.
          split; [done |]. split; [lia |]. by apply suffix_cons_r. }
      intros Hh. apply Hok. intros t Ht. rewrite Hq1 in Ht.
      unfold faults_handled. rewrite Hra1. apply Hh. by right.
    + exists (Raise e1), w1, evs1. split; [done |]. split; [done |].
      split; [done |]. split; [done |]. split; [done |].
      split; [intros t Ht; apply Hframe1; intros ->; apply Ht; by left |].
      split; [done |].
      split; [intros t Ht; rewrite (Hmut1 t Ht); by left |].
      split; [done |].
      split.
      { split; [done |]. rewrite Hq1. split; [lia |]. apply suffix_cons_r. done. }
      intros Hh. destruct Hok1 as [counts Hc]; [apply Hh; by left | done].
Qed.

(** X1.  Whether [process_deletion_queue] returns or is left by an
    exception, every mutation call it has issued names a title of the
    queue, a page whose title is not in the queue is as it was, and no
    page is created or changed.  When it returns, the queue is empty.
    It is left only by the [AttributeError] of its third [except]
    clause, which an exception other than [NoPageError] and
    [LockedPageError] brings about; the title that raised is then off
    the queue and the titles behind it are still on it. *)
Theorem deletion_run_touches_only_queued (deletion_reason : string) (w : world) :
  ∃ r w' evs,
    delete_pages.process_deletion_queue deletion_reason w = (r, w')
    ∧ trace w' = trace w ++ evs
    ∧ (∀ t, t ∈ mutated_titles evs → t ∈ queue w)
    ∧ (∀ t, t ∉ queue w → pages (wiki w') !! t = pages (wiki w) !! t)
    ∧ (∀ t p, pages (wiki w') !! t = Some p → pages (wiki w) !! t = Some p)
    ∧ (∀ counts, r = Ok counts → queue w' = [])
    ∧ (∀ e, r = Raise e →
         e = delete_pages.attribute_error
         ∧ length (queue w') < length (queue w)
         ∧ queue w' `suffix_of` queue w).
Proof.
  unfold delete_pages.process_deletion_queue.
  cbv beta iota delta [mbind io_bind queue_qsize].
  destruct (deletion_loop_run deletion_reason (length (queue w)) 0 0 w (le_n _))
    as (r & w' & evs & Hrun & Htr & _ & _ & _ & Hframe & Hkeep & Hmut & _ & Hr & _).
  exists r, w', evs. rewrite Hrun.
  split; [done |]. split; [done |]. split; [done |]. split; [done |]. split; [done |].
  destruct r as [[s' f']|e]; split; try done.
  - intros _ _. by destruct Hr.
  - intros e' [= <-]. exact Hr.
Qed.

(** X2.  When every exception the wiki raises for a queued title is a
    [NoPageError] or a [LockedPageError], [process_deletion_queue]
    returns with the queue empty and its counters are exact:
    [successful_deletions] is the number of deletion calls the wiki
    accepted and the number of pages that are gone; the two counters
    together do not exceed the number of queued titles. *)
Theorem deletion_counters_exact (deletion_reason : string) (w : world) :
  (∀ t, t ∈ queue w → faults_handled (wiki w) t) →
  ∃ successful_deletions failed_deletions w' evs,
    delete_pages.process_deletion_queue deletion_reason w
    = (Ok (successful_deletions, failed_deletions), w')
    ∧ queue w' = []
    ∧ trace w' = trace w ++ evs
    ∧ successful_deletions = accepted_deletes evs
    ∧ size (pages (wiki w)) = size (pages (wiki w')) + successful_deletions
    ∧ successful_deletions + failed_deletions ≤ length (queue w).
Proof.
  intros Hh. unfold delete_pages.process_deletion_queue.
  cbv beta iota delta [mbind io_bind queue_qsize].
  destruct (deletion_loop_run deletion_reason (length (queue w)) 0 0 w (le_n _))
    as (r & w' & evs & Hrun & Htr & _ & _ & Hsz & _ & _ & _ & _ & Hr & Hok).
  destruct (Hok Hh) as [[s' f'] ->]. destruct Hr as (Hq & Hs & _ & Hsum).
  exists s', f', w', evs. rewrite Hrun. rewrite Nat.sub_0_r in *. simpl in Hs.
  repeat split; try done; lia.
Qed.

Lemma deletion_counters_exact_witness :
  ∃ successful_deletions failed_deletions w' evs,
    delete_pages.process_deletion_queue "cleanup" (World protected_site ["A"; "B"] [])
    = (Ok (successful_deletions, failed_deletions), w')
    ∧ queue w' = []
    ∧ trace w' = evs
    ∧ successful_deletions = accepted_deletes evs
    ∧ successful_deletions + failed_deletions ≤ 2.
Proof.
  destruct (deletion_counters_exact "cleanup" (World protected_site ["A"; "B"] []))
    as (s' & f' & w' & evs & Hrun & Hq & Htr & Hs & _ & Hsum).
  { intros t Ht e. simpl in Ht.
    apply elem_of_cons in Ht as [-> | Ht].
    - intros [He | He]; vm_compute in He; [discriminate | by injection He as <-].
    - apply elem_of_cons in Ht as [-> | Ht]; [| by apply elem_of_nil in Ht].
      intros [He | He]; vm_compute in He; discriminate. }
  exists s', f', w', evs. split; [exact Hrun |]. split; [exact Hq |].
  split; [exact Htr |]. split; [exact Hs | exact Hsum].
Defined.

(** X3.  A deletion that raises.  When the page at the head of the queue
    exists and its deletion raises a [LockedPageError], the page is kept,
    the failure counter goes up by one, one line is written, and the
    loop goes on with the rest of the queue; a [NoPageError] (the page
    vanished after the check) is not counted.  Any other exception
    stops the run: the loop is left by the [AttributeError] of the third
    [except] clause, no line is written, no counter moves, and the rest
    of the queue stays where it is. *)
Theorem deletion_exception_counted_or_fatal (deletion_reason page_title : string)
    (rest : list string) (s f turns : nat) (e : exn) (w : world) :
  raises (wiki w) (c_exists page_title) = None →
  is_Some (pages (wiki w) !! page_title) →
  raises (wiki w) (c_delete page_title) = Some e →
  queue w = page_title :: rest →
  delete_pages.deletion_loop (S turns) deletion_reason (s, f) w
  = match class_of e with
    | NoPageError | LockedPageError =>
        delete_pages.deletion_loop turns deletion_reason
          (s, f + match class_of e with NoPageError => 0 | _ => 1 end)
          (World (wiki w) rest
             (trace w ++ [ev_exists page_title;
                          ev_mutate (m_delete page_title deletion_reason) (Some e);
                          ev_log (deletion_line page_title e)]))
    | _ =>
        (Raise delete_pages.attribute_error,
         World (wiki w) rest
           (trace w ++ [ev_exists page_title;
                        ev_mutate (m_delete page_title deletion_reason) (Some e)]))
    end.
Proof.
  intros He [p Hp] Hd Hq. destruct w as [st q tr]. simpl in *. subst q.
  cbn [delete_pages.deletion_loop].
  cbv beta iota delta [mbind io_bind queue_empty queue_get]. simpl.
  rewrite delete_one_run. simpl. rewrite He, Hp, Hd.
  unfold deletion_answer, handled, counts_as_failure, after. simpl.
  destruct (class_of e); simpl; rewrite <- ?app_assoc; reflexivity.
Qed.

Lemma deletion_exception_counted_or_fatal_witness :
  (delete_pages.process_deletion_queue "cleanup" (World protected_site ["A"; "B"] [])).1
  = Ok (1, 1)
  ∧ is_Some (pages (wiki (delete_pages.process_deletion_queue "cleanup"
                            (World protected_site ["A"; "B"] [])).2) !! "A").
Proof.
  unfold delete_pages.process_deletion_queue.
  cbv beta iota delta [mbind io_bind queue_qsize]. cbv zeta.
  change (length (queue (World protected_site ["A"; "B"] []))) with 2.
  rewrite (deletion_exception_counted_or_fatal "cleanup" "A" ["B"] 0 0 1
             (Exn LockedPageError "Page A is protected.")
             (World protected_site ["A"; "B"] []) eq_refl (mk_is_Some _ _ eq_refl)
             eq_refl eq_refl).
  split; [vm_compute; reflexivity |]. vm_compute. eexists. reflexivity.
Defined.

(** ** The redirect scan (delete_pages.py) *)

Lemma mutated_titles_logs (lines : list string) :
  mutated_titles (ev_log <$> lines) = [].
Proof. induction lines as [|l lines IH]; [done | by simpl]. Qed.

Lemma is_redirect_to_run (target referring : string) (w : world) :
  ∃ lines, delete_pages.is_redirect_to target referring w
           = (Ok (redirects_to (wiki w) target referring), after w (ev_log <$> lines)).
Proof.
  unfold delete_pages.is_redirect_to, redirects_to, after.
  cbv beta iota delta [mbind io_bind try_except page_isRedirectPage page_getRedirectTarget
                       guarded get_site ret mret io_ret raise log emit].
  simpl.
  destruct (raises (wiki w) (c_isRedirectPage referring)) as [e|]; simpl.
  { destruct (class_of e); simpl;
      first [by exists []; simpl; rewrite app_nil_r; destruct w
            | by eexists [_]]. }
  destruct (pages (wiki w) !! referring) as [p|] eqn:Hp; simpl.
  2: { exists []. simpl. rewrite app_nil_r. by destruct w. }
  destruct (redirect_target p) as [t|] eqn:Ht; simpl.
  2: { exists []. simpl. rewrite app_nil_r. by destruct w. }
  destruct (raises (wiki w) (c_getRedirectTarget referring)) as [e|]; simpl.
  { destruct (class_of e); simpl;
      first [by exists []; simpl; rewrite app_nil_r; destruct w
            | by eexists [_]]. }
  rewrite Hp, Ht. exists []. simpl. rewrite app_nil_r. by destruct w.
Qed.

Lemma collect_redirects_run (target : string) (referring_pages redirects : list string)
    (w : world) :
  ∃ lines,
    delete_pages.collect_redirects target referring_pages redirects w
    = (Ok (redirects
           ++ filter (λ r, redirects_to (wiki w) target r = true) referring_pages),
       after w (ev_log <$> lines)).
Proof.
  revert redirects w. induction referring_pages as [|r rest IH]; intros redirects w.
  - exists []. simpl. unfold after. simpl. rewrite !app_nil_r. by destruct w.
  - cbn [delete_pages.collect_redirects]. cbv beta iota delta [mbind io_bind].
    destruct (is_redirect_to_run target r w) as (lines1 & ->).
    destruct (IH (if redirects_to (wiki w) target r then redirects ++ [r] else redirects)
                (after w (ev_log <$> lines1))) as (lines2 & ->).
    exists (lines1 ++ lines2). rewrite after_after, fmap_app. f_equal. f_equal. simpl.
    rewrite filter_cons. destruct (redirects_to (wiki w) target r); simpl.
    + by rewrite <- app_assoc.
    + done.
Qed.

Lemma find_redirects_to_page_run (target : string) (w : world) :
  ∃ lines,
    delete_pages.find_redirects_to_page target w
    = (Ok (redirects_found (wiki w) target), after w (ev_log <$> lines)).
Proof.
  unfold delete_pages.find_redirects_to_page, redirects_found.
  cbv beta iota delta [mbind io_bind try_except page_getReferences guarded get_site ret
                       mret io_ret raise log emit].
  simpl. destruct (raises (wiki w) (c_getReferences target)) as [e|]; simpl.
  { by eexists [_]. }
  destruct (collect_redirects_run target (references (wiki w) target) [] w) as (lines & ->).
  by exists lines.
Qed.

(** X4.  [find_redirects_to_page] never raises and changes neither the
    wiki nor the queue.  Every title it returns is one the wiki lists
    as referring to the page and is a redirect page whose target is the
    page; when no call raises, every such title is returned.  When the
    listing call raises, the result is empty. *)
Theorem find_redirects_sound (target : string) (w : world) :
  ∃ redirects lines,
    delete_pages.find_redirects_to_page target w
    = (Ok redirects, after w (ev_log <$> lines))
    ∧ (∀ r, r ∈ redirects →
         r ∈ references (wiki w) target
         ∧ ∃ p, pages (wiki w) !! r = Some p ∧ redirect_target p = Some target)
    ∧ (∀ r p, raises (wiki w) (c_getReferences target) = None →
         r ∈ references (wiki w) target →
         raises (wiki w) (c_isRedirectPage r) = None →
         raises (wiki w) (c_getRedirectTarget r) = None →
         pages (wiki w) !! r = Some p → redirect_target p = Some target →
         r ∈ redirects)
    ∧ (is_Some (raises (wiki w) (c_getReferences target)) → redirects = []).
Proof.
  destruct (find_redirects_to_page_run target w) as (lines & Hrun).
  exists (redirects_found (wiki w) target), lines. split; [done |].
  unfold redirects_found. split; [| split].
  - intros r Hr. destruct (raises (wiki w) (c_getReferences target)).
    { by apply not_elem_of_nil in Hr. }
    apply list_elem_of_filter in Hr as [Hto Hin]. split; [done |].
    unfold redirects_to in Hto.
    destruct (raises (wiki w) (c_isRedirectPage r)); [done |].
    destruct (pages (wiki w) !! r) as [p|]; [| done]. exists p. split; [done |].
    destruct (redirect_target p) as [t|]; [| done].
    destruct (raises (wiki w) (c_getRedirectTarget r)); [done |].
    by apply bool_decide_eq_true in Hto as ->.
  - intros r p Hg Hin Hi Ht Hp Hr. rewrite Hg. apply list_elem_of_filter. split; [| done].
    unfold redirects_to. rewrite Hi, Hp, Hr, Ht. by apply bool_decide_eq_true.
  - intros [e ->]. done.
Qed.

Lemma check_page_edit_safety_is_safe (page_title : string) (w : world) :
  ∃ evs, delete_pages.check_page_edit_safety page_title w
         = (Ok (is_safe (wiki w) page_title), after w evs)
    ∧ mutated_titles evs = [].
Proof.
  rewrite check_page_edit_safety_run. unfold is_safe.
  destruct (raises _ (c_exists _)); [by eexists |].
  destruct (pages _ !! _); [| by eexists].
  destruct (raises _ (c_revisions _)); by eexists.
Qed.

(** The scan of a title, read off the wiki. *)
Lemma process_page_for_redirects_run (page_title : string) (w : world) :
  ∃ evs,
    delete_pages.process_page_for_redirects page_title w
    = (Ok (scan_result (wiki w) page_title),
       World (wiki w) (queue w ++ scan_queued (wiki w) page_title) (trace w ++ evs))
    ∧ mutated_titles evs = [].
Proof.
  unfold delete_pages.process_page_for_redirects, scan_result, scan_queued.
  cbv beta iota delta [try_except mbind io_bind].
  destruct (check_page_edit_safety_is_safe page_title w) as (evs1 & -> & Hm1).
  destruct (is_safe (wiki w) page_title); simpl.
  - destruct (find_redirects_to_page_run page_title (after w evs1)) as (lines & ->).
    cbv beta iota delta [queue_put]. rewrite for_each_queue_put. simpl.
    exists (evs1 ++ (ev_log <$> lines)). unfold after. simpl.
    rewrite <- !app_assoc. split; [done |].
    by rewrite mutated_titles_app, Hm1, mutated_titles_logs.
  - eexists (evs1 ++ [_]). rewrite app_nil_r, <- app_assoc. split; [done |].
    by rewrite mutated_titles_app, Hm1.
Qed.

(** X5.  The scan of a title never raises and never changes the wiki.
    When the gate answers "safe" it returns the title with its
    redirects and the status SAFE, and puts the title, then its
    redirects, at the end of the deletion queue; otherwise it returns
    the status SKIPPED_UNSAFE with no redirects and the queue is as it
    was. *)
Theorem scan_queues_safe_title_and_redirects (page_title : string) (w : world) :
  ∃ w' evs,
    trace w' = trace w ++ evs ∧ mutated_titles evs = [] ∧ wiki w' = wiki w
    ∧ if is_safe (wiki w) page_title then
        delete_pages.process_page_for_redirects page_title w
        = (Ok (page_title, redirects_found (wiki w) page_title, "SAFE"), w')
        ∧ queue w' = queue w ++ page_title :: redirects_found (wiki w) page_title
      else
        delete_pages.process_page_for_redirects page_title w
        = (Ok (page_title, [], "SKIPPED_UNSAFE"), w')
        ∧ queue w' = queue w.
Proof.
  destruct (process_page_for_redirects_run page_title w) as (evs & Hrun & Hm).
  exists (World (wiki w) (queue w ++ scan_queued (wiki w) page_title) (trace w ++ evs)), evs.
  split; [done |]. split; [done |]. split; [done |].
  unfold scan_result, scan_queued in *.
  destruct (is_safe (wiki w) page_title); (split; [exact Hrun |]); simpl; [done |].
  by rewrite app_nil_r.
Qed.

(** The futures of the scan of [phase_1], read off the wiki. *)
Lemma submit_all_scan (titles : list string) (w : world) :
  ∃ evs,
    submit_all delete_pages.process_page_for_redirects titles w
    = (Ok ((λ t, (t, Ok (scan_result (wiki w) t))) <$> titles),
       World (wiki w) (queue w ++ concat (scan_queued (wiki w) <$> titles))
         (trace w ++ evs))
    ∧ mutated_titles evs = [].
Proof.
  revert w. induction titles as [|t titles IH]; intros w.
  - exists []. simpl. rewrite !app_nil_r. by destruct w.
  - cbn [submit_all]. cbv beta iota delta [mbind io_bind run_task ret mret io_ret].
    destruct (process_page_for_redirects_run t w) as (evs1 & -> & Hm1).
    destruct (IH (World (wiki w) (queue w ++ scan_queued (wiki w) t) (trace w ++ evs1)))
      as (evs2 & -> & Hm2).
    exists (evs1 ++ evs2). simpl. rewrite <- !app_assoc. split; [done |].
    by rewrite mutated_titles_app, Hm1, Hm2.
Qed.

(** One turn of the collecting loop of [phase_1] on a future of the
    scan. *)
Lemma phase_1_collect_scan (s : site) (st : delete_pages.phase_1_state) (t : string)
    (w : world) :
  ∃ lines,
    delete_pages.phase_1_collect st t (Ok (scan_result s t)) w
    = (Ok (if is_safe s t
           then delete_pages.Phase1
                  (<[t := redirects_found s t]> (delete_pages.redirect_data st))
                  (delete_pages.total_redirects_found st + length (redirects_found s t))
                  (delete_pages.skipped_unsafe st) (delete_pages.processed_safe st + 1)
           else delete_pages.Phase1 (delete_pages.redirect_data st)
                  (delete_pages.total_redirects_found st)
                  (delete_pages.skipped_unsafe st + 1) (delete_pages.processed_safe st)),
       after w (ev_log <$> lines)).
Proof.
  unfold delete_pages.phase_1_collect, scan_result, after.
  cbv beta iota delta [mbind io_bind try_except future_result ret mret io_ret raise log emit].
  destruct (is_safe s t); simpl.
  - destruct (decide (0 < length (redirects_found s t))); simpl.
    + by eexists [_].
    + exists []. simpl. rewrite app_nil_r. by destruct w.
  - exists []. simpl. rewrite app_nil_r. by destruct w.
Qed.

(** The collecting loop of [phase_1] over futures of the scan: the
    titles it records are the safe ones, with their redirects, and its
    counters count the safe and the other titles. *)
Lemma phase_1_loop_scan (s : site) (st : delete_pages.phase_1_state)
    (completed : list (string * result (string * list string * string))) (w : world) :
  Forall (λ f, f.2 = Ok (scan_result s f.1)) completed →
  ∃ st' lines,
    delete_pages.phase_1_loop st completed w = (Ok st', after w (ev_log <$> lines))
    ∧ (∀ k, delete_pages.redirect_data st' !! k
            = if decide (k ∈ completed.*1 ∧ is_safe s k = true)
              then Some (redirects_found s k)
              else delete_pages.redirect_data st !! k)
    ∧ delete_pages.processed_safe st'
      = delete_pages.processed_safe st
        + length (filter (λ t, is_safe s t = true) completed.*1)
    ∧ delete_pages.skipped_unsafe st'
      = delete_pages.skipped_unsafe st
        + length (filter (λ t, ¬ is_safe s t = true) completed.*1)
    ∧ delete_pages.total_redirects_found st'
      = delete_pages.total_redirects_found st
        + sum_list_with (λ t, length (redirects_found s t))
            (filter (λ t, is_safe s t = true) completed.*1).
Proof.
  revert st w. induction completed as [|[t r] completed IH]; intros st w Hall.
  - exists st, []. split; [| split; [| simpl; lia]].
    + unfold after. simpl. rewrite app_nil_r. by destruct w.
    + intros k. rewrite decide_False; [done |].
      intros [Hin _]. by apply not_elem_of_nil in Hin.
  - inversion Hall as [|? ? Hr Hrest]; subst. simpl in Hr. subst r.
    cbn [delete_pages.phase_1_loop]. cbv beta iota delta [mbind io_bind].
    destruct (phase_1_collect_scan s st t w) as (lines1 & ->).
    match goal with |- context [delete_pages.phase_1_loop ?st1 _ _] =>
      destruct (IH st1 (after w (ev_log <$> lines1)) Hrest)
        as (st' & lines2 & -> & Hrd & Hsafe & Hskip & Htot)
    end.
    exists st', (lines1 ++ lines2). rewrite after_after, fmap_app. split; [done |].
    rewrite fmap_cons. cbn [fst]. rewrite !filter_cons.
    destruct (is_safe s t) eqn:Ht; simpl in *.
    + split; [| lia].
      intros k. rewrite Hrd.
      destruct (decide (k = t)) as [->|Hne].
      * rewrite lookup_insert_eq.
        destruct (decide (t ∈ completed.*1 ∧ is_safe s t = true)).
        -- by rewrite decide_True by (split; [by left | done]).
        -- by rewrite decide_True by (split; [by left | done]).
      * rewrite lookup_insert_ne by done.
        destruct (decide (k ∈ completed.*1 ∧ is_safe s k = true)) as [[Hin Hk]|Hn].
        -- by rewrite decide_True by (split; [by right | done]).
        -- rewrite decide_False; [done |]. intros [Hin Hk]. apply Hn. split; [| done].
           by apply elem_of_cons in Hin as [?|?].
    + split; [| lia].
      intros k. rewrite Hrd.
      destruct (decide (k ∈ completed.*1 ∧ is_safe s k = true)) as [[Hin Hk]|Hn].
      * by rewrite decide_True by (split; [by right | done]).
      * rewrite decide_False; [done |]. intros [Hin Hk]. apply Hn. split; [| done].
        apply elem_of_cons in Hin as [->|?]; [congruence | done].
Qed.

(** The scan of [phase_1] with its own worker, whatever the order in
    which the futures complete. *)
Lemma phase_1_run (as_completed : ∀ A, list A → list A) (titles : list string) (w : world) :
  (∀ A (l : list A), as_completed A l ≡ₚ l) →
  ∃ st evs,
    delete_pages.phase_1 as_completed titles w
    = (Ok st, World (wiki w) (queue w ++ concat (scan_queued (wiki w) <$> titles))
                (trace w ++ evs))
    ∧ mutated_titles evs = []
    ∧ (∀ k, delete_pages.redirect_data st !! k
            = if decide (k ∈ titles ∧ is_safe (wiki w) k = true)
              then Some (redirects_found (wiki w) k) else None)
    ∧ delete_pages.processed_safe st
      = length (filter (λ t, is_safe (wiki w) t = true) titles)
    ∧ delete_pages.skipped_unsafe st
      = length (filter (λ t, ¬ is_safe (wiki w) t = true) titles)
    ∧ delete_pages.total_redirects_found st
      = sum_list_with (λ t, length (redirects_found (wiki w) t))
          (filter (λ t, is_safe (wiki w) t = true) titles).
Proof.
  intros Hperm. unfold delete_pages.phase_1, delete_pages.phase_1_scan.
  cbv beta iota delta [mbind io_bind].
  destruct (submit_all_scan titles w) as (evs1 & -> & Hm1).
  set (futures := (λ t, (t, Ok (scan_result (wiki w) t))) <$> titles).
  assert (Forall (λ f : string * result (string * list string * string),
                    f.2 = Ok (scan_result (wiki w) f.1))
                 (as_completed _ futures)) as Hall.
  { rewrite Hperm. unfold futures. apply Forall_fmap. by apply Forall_true. }
  assert ((as_completed _ futures).*1 ≡ₚ titles) as Hfst.
  { rewrite Hperm. unfold futures. rewrite <- list_fmap_compose.
    by rewrite list_fmap_id. }
  match goal with |- context [delete_pages.phase_1_loop _ _ ?w1] =>
    destruct (phase_1_loop_scan (wiki w) delete_pages.phase_1_start _ w1 Hall)
      as (st & lines & -> & Hrd & Hsafe & Hskip & Htot)
  end.
  exists st, (evs1 ++ (ev_log <$> lines)). unfold after. simpl. rewrite <- app_assoc.
  split; [done |]. split; [by rewrite mutated_titles_app, Hm1, mutated_titles_logs |].
  simpl in Hsafe, Hskip, Htot. rewrite Hfst in Hsafe, Hskip, Htot.
  split; [| done].
  intros k. rewrite Hrd. simpl. rewrite lookup_empty.
  destruct (decide (k ∈ titles ∧ is_safe (wiki w) k = true)) as [[Hin Hk]|Hn].
  - rewrite decide_True; [done |]. split; [by rewrite Hfst | done].
  - rewrite decide_False; [done |]. intros [Hin Hk]. apply Hn. split; [| done].
    by rewrite <- Hfst.
Qed.

(** X6.  Whatever the order in which the futures complete, the scan of
    [phase_1] returns, issues no mutation call, and the dictionary it
    builds for the JSON file holds exactly the input titles the safety
    gate accepts, each with the redirects found for it. *)
Theorem phase_1_records_safe_titles (as_completed : ∀ A, list A → list A)
    (titles : list string) (w : world) :
  (∀ A (l : list A), as_completed A l ≡ₚ l) →
  ∃ st w' evs,
    delete_pages.phase_1 as_completed titles w = (Ok st, w')
    ∧ wiki w' = wiki w
    ∧ trace w' = trace w ++ evs ∧ mutated_titles evs = []
    ∧ ∀ k l, delete_pages.redirect_data st !! k = Some l ↔
        k ∈ titles ∧ is_safe (wiki w) k = true ∧ l = redirects_found (wiki w) k.
Proof.
  intros Hperm.
  destruct (phase_1_run as_completed titles w Hperm) as (st & evs & Hrun & Hm & Hrd & _).
  eexists st, _, evs. split; [exact Hrun |]. split; [done |]. split; [done |].
  split; [done |]. intros k l. rewrite Hrd. case_decide as Hk.
  - destruct Hk as [Hin Hs]. split; [by intros [= <-] | by intros (_ & _ & ->)].
  - split; [done |]. intros (Hin & Hs & _). by destruct Hk.
Qed.

Lemma phase_1_records_safe_titles_witness :
  ∃ st w',
    delete_pages.phase_1 (λ _ l, reverse l) ["Bread"; "Loaf"; "Ghost"] (init gate_site)
    = (Ok st, w')
    ∧ delete_pages.redirect_data st !! "Bread" = Some ["Loaf"]
    ∧ delete_pages.redirect_data st !! "Loaf" = None.
Proof.
  destruct (phase_1_records_safe_titles (λ _ l, reverse l) ["Bread"; "Loaf"; "Ghost"]
              (init gate_site))
    as (st & w' & evs & Hrun & _ & _ & _ & Hrd).
  { intros A l. apply reverse_Permutation. }
  exists st, w'. split; [exact Hrun |]. split.
  - apply Hrd. split; [left |]. split; reflexivity.
  - destruct (delete_pages.redirect_data st !! "Loaf") as [l|] eqn:Hl; [| reflexivity].
    apply Hrd in Hl as (_ & Hs & _). vm_compute in Hs. discriminate Hs.
Defined.

(** X7.  The counters of [phase_1] partition the input: the safe and the
    skipped titles together are all the titles (a title listed twice
    counts twice, none is counted as an error), and the total of
    redirects is the sum over the safe titles.  The titles put on the
    deletion queue are, up to order, each safe title with its redirects. *)
Theorem phase_1_counters_partition (as_completed : ∀ A, list A → list A)
    (titles : list string) (w : world) :
  (∀ A (l : list A), as_completed A l ≡ₚ l) →
  ∃ st w',
    delete_pages.phase_1 as_completed titles w = (Ok st, w')
    ∧ delete_pages.processed_safe st
      = length (filter (λ t, is_safe (wiki w) t = true) titles)
    ∧ delete_pages.processed_safe st + delete_pages.skipped_unsafe st = length titles
    ∧ delete_pages.total_redirects_found st
      = sum_list_with (λ t, length (redirects_found (wiki w) t))
          (filter (λ t, is_safe (wiki w) t = true) titles)
    ∧ queue w' ≡ₚ queue w ++ concat (scan_queued (wiki w) <$> titles).
Proof.
  intros Hperm.
  destruct (phase_1_run as_completed titles w Hperm)
    as (st & evs & Hrun & _ & _ & Hsafe & Hskip & Htot).
  eexists st, _. split; [exact Hrun |]. split; [done |]. split; [| by split].
  rewrite Hsafe, Hskip, <- length_app.
  by rewrite (filter_app_complement (λ t, is_safe (wiki w) t = true) titles).
Qed.

Lemma phase_1_counters_partition_witness :
  ∃ st w',
    delete_pages.phase_1 (λ _ l, reverse l) ["Bread"; "Loaf"; "Ghost"] (init gate_site)
    = (Ok st, w')
    ∧ delete_pages.processed_safe st = 1
    ∧ delete_pages.processed_safe st + delete_pages.skipped_unsafe st = 3.
Proof.
  destruct (phase_1_counters_partition (λ _ l, reverse l) ["Bread"; "Loaf"; "Ghost"]
              (init gate_site))
    as (st & w' & Hrun & Hsafe & Hsum & _).
  { intros A l. apply reverse_Permutation. }
  exists st, w'. split; [exact Hrun |]. split; [| exact Hsum].
  rewrite Hsafe. reflexivity.
Defined.

(** ** The second phase (delete_pages.py) *)

Lemma clear_loop_run (turns : nat) (w : world) :
  length (queue w) ≤ turns →
  delete_pages.clear_loop turns w = (Ok (), World (wiki w) [] (trace w)).
Proof.
  revert w. induction turns as [|turns IH]; intros [s q tr] Hlen; simpl in Hlen.
  - destruct q; simpl in *; [done | lia].
  - destruct q as [|item rest]; [done |].
    cbn [delete_pages.clear_loop]. cbv beta iota delta [mbind io_bind queue_empty queue_get].
    simpl. rewrite IH by (simpl in *; lia). done.
Qed.

Lemma put_redirects_run (redirects : list string) (total_pages : nat) (w : world) :
  delete_pages.put_redirects redirects total_pages w
  = (Ok (total_pages + length redirects),
     World (wiki w) (queue w ++ redirects) (trace w)).
Proof.
  revert total_pages w. induction redirects as [|r rest IH]; intros total_pages w.
  - simpl. rewrite app_nil_r, Nat.add_0_r. by destruct w.
  - cbn [delete_pages.put_redirects]. cbv beta iota delta [mbind io_bind queue_put].
    rewrite IH. simpl. rewrite <- app_assoc. simpl.
    by replace (total_pages + 1 + length rest) with (total_pages + S (length rest)) by lia.
Qed.

Lemma fill_queue_run (items : list (string * list string)) (total_pages : nat) (w : world) :
  delete_pages.fill_queue items total_pages w
  = (Ok (total_pages + length (listed_titles items)),
     World (wiki w) (queue w ++ listed_titles items) (trace w)).
Proof.
  revert total_pages w. induction items as [|[t rs] items IH]; intros total_pages w.
  - simpl. rewrite app_nil_r, Nat.add_0_r. by destruct w.
  - cbn [delete_pages.fill_queue]. cbv beta iota delta [mbind io_bind queue_put].
    rewrite put_redirects_run. rewrite IH. unfold listed_titles. simpl.
    rewrite length_app, <- !app_assoc. simpl.
    by replace (total_pages + 1 + length rs
                + length (concat ((λ item, item.1 :: item.2) <$> items)))
      with (total_pages
            + S (length rs + length (concat ((λ item, item.1 :: item.2) <$> items))))
      by lia.
Qed.

(** Every mutation call of the deletion loop is a deletion with the
    reason the loop was given. *)
Lemma clear_queue_run (w : world) :
  delete_pages.clear_queue w = (Ok (), World (wiki w) [] (trace w)).
Proof.
  unfold delete_pages.clear_queue. cbv beta iota delta [mbind io_bind queue_qsize].
  by apply clear_loop_run.
Qed.

Lemma deletes_with_logs (reason : string) (lines : list string) :
  Forall (deletes_with reason) (ev_log <$> lines).
Proof. induction lines; by constructor. Qed.

(** X8.  [phase_2] deletes nothing unless the answer to its question is
    "yes" (in any letter case).  When the JSON file could not be loaded,
    or the answer is anything else, the login at its start is its only
    call to the wiki: when the login raises, [phase_2] is left by that
    exception with nothing written; otherwise it returns [False], the
    wiki is as it was, and it has written lines and nothing else. *)
Theorem phase_2_needs_confirmation (loaded : option (list (string * list string)))
    (confirm deletion_reason_input : string) (w : world) :
  loaded = None ∨ lower confirm ≠ "yes" →
  match raises (wiki w) c_login with
  | Some e => delete_pages.phase_2 loaded confirm deletion_reason_input w = (Raise e, w)
  | None =>
      ∃ w' lines,
        delete_pages.phase_2 loaded confirm deletion_reason_input w = (Ok false, w')
        ∧ wiki w' = wiki w
        ∧ trace w' = trace w ++ (ev_log <$> lines)
  end.
Proof.
  intros Hno. unfold delete_pages.phase_2.
  cbv beta iota delta [mbind io_bind site_login guarded get_site raise log emit ret mret
                       io_ret].
  simpl. destruct (raises (wiki w) c_login) as [e|]; [reflexivity |]. simpl.
  destruct loaded as [redirect_data|].
  - destruct Hno as [|Hno]; [done |].
    rewrite clear_queue_run. simpl. rewrite fill_queue_run. simpl.
    rewrite decide_True by done. simpl.
    eexists _, [_; _; _; _; _]. split; [reflexivity |]. split; [done |].
    simpl. by rewrite <- !app_assoc.
  - eexists _, [_; _]. split; [reflexivity |]. split; [done |].
    simpl. by rewrite <- !app_assoc.
Qed.

Lemma phase_2_needs_confirmation_witness :
  ∃ w' lines,
    delete_pages.phase_2 (Some [("Bread", ["Loaf"])]) "y" "cleanup" (init gate_site)
    = (Ok false, w')
    ∧ wiki w' = gate_site
    ∧ trace w' = ev_log <$> lines.
Proof.
  apply (phase_2_needs_confirmation (Some [("Bread", ["Loaf"])]) "y" "cleanup"
           (init gate_site)).
  right. discriminate.
Defined.



(** ** The page search, continued (search.py) *)

(** X10.  [search_page] reports a title exactly when it is the title of
    the task, the page is not passed over as a language variant, no
    non-empty ignore string matches the text, and some search term
    matches it.  With no search term nothing is reported. *)
Theorem search_page_reports_iff (t : search.task) (reported : string) :
  search.search_page t = Some reported ↔
    reported = search.title t
    ∧ search.ignore_country_codes t && search.country_code_pattern t (search.title t)
      = false
    ∧ (∀ ignore_str, ignore_str ∈ search.ignore_strings t → ignore_str ≠ "" →
         search.matches_ignore ignore_str (search.text t) (search.case_sensitive t)
         = false)
    ∧ ∃ term, term ∈ search.search_terms_list t
        ∧ search.matches_search term (search.text t) (search.case_sensitive t) = true.
Proof.
  unfold search.search_page.
  destruct (search.ignore_country_codes t && _) eqn:Hcc.
  { split; [done | by intros (_ & ? & _)]. }
  destruct (any (λ ignore_str, truthy ignore_str && _) (search.ignore_strings t)) eqn:Hig.
  { split; [done |]. intros (_ & _ & Hno & _).
    apply any_spec in Hig as (ig & Hin & Hm). apply andb_true_iff in Hm as [Ht Hm].
    rewrite Hno in Hm; [done | done |]. by destruct ig. }
  destruct (any (λ term, search.matches_search term _ _) (search.search_terms_list t))
    eqn:Hterm.
  - apply any_spec in Hterm. split.
    + intros [= <-]. split; [done |]. split; [done |]. split; [| done].
      intros ig Hin Hne.
      destruct (search.matches_ignore ig (search.text t) (search.case_sensitive t))
        eqn:Hm; [| done].
      assert (any (λ ignore_str,
                     truthy ignore_str
                     && search.matches_ignore ignore_str (search.text t)
                          (search.case_sensitive t))
                  (search.ignore_strings t) = true) as Hyes; [| congruence].
      apply any_spec. exists ig. split; [done |]. rewrite Hm. by destruct ig.
    + by intros (-> & _).
  - split; [done |]. intros (_ & _ & _ & Hex). apply any_spec in Hex. congruence.
Qed.

Lemma all_impl {A} (f g : A → bool) (l : list A) :
  (∀ x, f x = true → g x = true) → all f l = true → all g l = true.
Proof. rewrite !all_spec. eauto. Qed.

Lemma any_impl {A} (f g : A → bool) (l : list A) :
  (∀ x, f x = true → g x = true) → any f l = true → any g l = true.
Proof. rewrite !any_spec. intros H (x & ? & ?). eauto. Qed.

(** Whatever makes a term found makes an expression match. *)
Lemma matches_operator_impl (term text1 text2 : string) (cs1 cs2 : bool) :
  (∀ sub, search.found cs1 sub text1 = true → search.found cs2 sub text2 = true) →
  search.matches_operator term text1 cs1 = true →
  search.matches_operator term text2 cs2 = true.
Proof.
  intros Hf. unfold search.matches_operator, search.part_matches.
  destruct (contains search.OR term).
  - apply any_impl. intros part. destruct (contains search.AND part); [| apply Hf].
    by apply all_impl.
  - destruct (contains search.AND term); [| apply Hf]. by apply all_impl.
Qed.

(** X11.  Case-sensitive matching is monotone in the text: an
    expression that matches a text matches every text that contains it,
    so adding to a page never undoes a case-sensitive match. *)
Theorem match_survives_more_text (term text before after_ : string) :
  search.matches_operator term text true = true →
  search.matches_operator term (before +:+ text +:+ after_) true = true.
Proof.
  apply matches_operator_impl. intros sub. rewrite !found_spec. unfold Found.
  intros (a & b & ->). exists (before +:+ a), (b +:+ after_).
  by rewrite !append_assoc.
Qed.

Lemma match_survives_more_text_witness :
  search.matches_operator "Bread~AND~Water" "== Bread, Water ==" true = true.
Proof.
  apply (match_survives_more_text "Bread~AND~Water" "Bread, Water" "== " " ==").
  reflexivity.
Defined.

(** Sorting does not depend on the order in which the items came. *)
Lemma merge_sort_perm (l1 l2 : list string) :
  l1 ≡ₚ l2 → merge_sort String.le l1 = merge_sort String.le l2.
Proof.
  intros Hp. apply (Sorted_unique String.le).
  - apply (Sorted_merge_sort String.le).
  - apply (Sorted_merge_sort String.le).
  - by rewrite !merge_sort_Permutation.
Qed.

Lemma omap_sublist {A B} (h : A → option B) (f : A → B) (l : list A) :
  (∀ x y, h x = Some y → y = f x) → omap h l `sublist_of` f <$> l.
Proof.
  intros Hh. induction l as [|x l IH]; simpl; [constructor |].
  destruct (h x) as [y|] eqn:Hx; simpl.
  - rewrite (Hh x y Hx). by constructor.
  - by constructor.
Qed.

Lemma omap_of_fmap {A B C} (h : B → option C) (f : A → B) (l : list A) :
  omap h (f <$> l) = omap (λ x, h (f x)) l.
Proof.
  induction l as [|x l IH]; [done |]. rewrite fmap_cons. simpl.
  change (list_omap B C h (f <$> l)) with (omap h (f <$> l)). by rewrite IH.
Qed.

Lemma search_page_title (t : search.task) (reported : string) :
  search.search_page t = Some reported → reported = search.title t.
Proof.
  unfold search.search_page. repeat (case_match; try done). by intros [= <-].
Qed.

(** X12.  The titles [main] saves to [search_results.txt]: whatever the
    order in which the searches complete, the list is the same; it is
    sorted, holds no title twice, and holds a title exactly when the
    title is not empty, is in the cache, and [search_page] reports it
    for its cached text. *)
Theorem main_search_sorted_matches (as_completed : ∀ A, list A → list A)
    (wiki_cache : gmap string string) (search_terms_list : list string)
    (case_sensitive : bool) (ignore_strings : list string)
    (ignore_country_codes : bool) (country_code_pattern : string → bool) :
  (∀ A (l : list A), as_completed A l ≡ₚ l) →
  let found :=
    search.main_search as_completed wiki_cache search_terms_list case_sensitive
      ignore_strings ignore_country_codes country_code_pattern in
  found = search.main_search (λ _ l, l) wiki_cache search_terms_list case_sensitive
            ignore_strings ignore_country_codes country_code_pattern
  ∧ Sorted String.le found
  ∧ NoDup found
  ∧ ∀ title, title ∈ found ↔
      title ≠ ""
      ∧ ∃ text, wiki_cache !! title = Some text
          ∧ search.search_page
              (search.Task title text search_terms_list case_sensitive ignore_strings
                 ignore_country_codes country_code_pattern) = Some title.
Proof.
  intros Hperm found. subst found. unfold search.main_search. cbv zeta.
  set (mk := λ item : string * string,
         search.Task item.1 item.2 search_terms_list case_sensitive ignore_strings
           ignore_country_codes country_code_pattern).
  set (keep := λ result : option string,
         match result with
         | Some title => if truthy title then Some title else None
         | None => None
         end).
  assert (∀ item y, keep (search.search_page (mk item)) = Some y → y = item.1) as Hkey.
  { intros item y. unfold keep.
    destruct (search.search_page (mk item)) as [r|] eqn:Hs; [| done].
    apply search_page_title in Hs. simpl in Hs. subst r.
    destruct (truthy item.1); [by intros [= <-] | done]. }
  split; [apply merge_sort_perm; by rewrite Hperm |].
  split; [apply (Sorted_merge_sort String.le) |].
  assert (merge_sort String.le (omap keep (as_completed _ (search.search_page <$> (mk <$> map_to_list wiki_cache))))
          ≡ₚ omap (λ item, keep (search.search_page (mk item))) (map_to_list wiki_cache))
    as Hp.
  { by rewrite merge_sort_Permutation, Hperm, !omap_of_fmap. }
  split.
  - rewrite Hp. eapply sublist_NoDup; [| by apply (omap_sublist _ fst)].
    apply NoDup_fst_map_to_list.
  - intros title. rewrite Hp, list_elem_of_omap. split.
    + intros ([k text] & Hin & Hk). pose proof (Hkey _ _ Hk) as Ht. simpl in Ht. subst k.
      apply elem_of_map_to_list in Hin. unfold keep, mk in Hk. simpl in Hk.
      destruct (search.search_page _) as [r|] eqn:Hs; [| done].
      destruct (truthy r) eqn:Hr; [| done]. inversion Hk; subst r.
      split; [by intros -> |]. by exists text.
    + intros (Hne & text & Hl & Hs). exists (title, text).
      split; [by apply elem_of_map_to_list |].
      unfold keep, mk. simpl. rewrite Hs. by destruct title.
Qed.

Lemma main_search_sorted_matches_witness :
  search.main_search (λ _ l, reverse l) small_cache ["bread"] false [] true (λ _, false)
  = ["Bread"; "Loaf"].
Proof.
  destruct (main_search_sorted_matches (λ _ l, reverse l) small_cache ["bread"] false []
              true (λ _, false)) as [Heq _].
  { intros A l. apply reverse_Permutation. }
  rewrite Heq. vm_compute. reflexivity.
Defined.

(** ** The cache, continued (search.py) *)

Lemma batches_of_spec (turns batch_size : nat) (l : list string) :
  0 < batch_size → length l ≤ turns →
  concat (search.batches_of turns batch_size l) = l
  ∧ Forall (λ batch, 0 < length batch ≤ batch_size) (search.batches_of turns batch_size l)
  ∧ length (search.batches_of turns batch_size l) * batch_size < length l + batch_size
  ∧ length l ≤ length (search.batches_of turns batch_size l) * batch_size.
Proof.
  intros Hsize. revert l. induction turns as [|turns IH]; intros l Hlen.
  - destruct l; simpl in *; [| lia]. split; [done |]. split; [constructor | lia].
  - destruct l as [|x l]; [simpl; split; [done |]; split; [constructor | lia] |].
    cbn [search.batches_of].
    destruct (IH (drop batch_size (x :: l))) as (Hc & Hf & Hn1 & Hn2).
    { rewrite length_drop. simpl in *. lia. }
    cbn [concat length]. rewrite Hc, take_drop. split; [done |].
    rewrite length_drop in Hn1, Hn2. split.
    { constructor; [| done]. rewrite length_take. simpl. lia. }
    destruct (decide (length (x :: l) ≤ batch_size)) as [Hle|Hgt].
    + rewrite (drop_ge (x :: l)) by done.
      assert (search.batches_of turns batch_size [] = []) as -> by (by destruct turns).
      simpl in *. lia.
    + simpl length in *. lia.
Qed.

(** X13.  The batches of [update_wiki_cache] partition the titles: put
    end to end they are the list of titles; each holds at least one and
    at most 500 titles; and their number is the number of titles over
    500, rounded up. *)
Theorem batches_partition_titles (all_titles : list string) :
  let batches := search.batches_of (length all_titles) 500 all_titles in
  concat batches = all_titles
  ∧ Forall (λ batch, 1 ≤ length batch ≤ 500) batches
  ∧ length batches = (length all_titles + 499) / 500.
Proof.
  intros batches.
  destruct (batches_of_spec (length all_titles) 500 all_titles) as (Hc & Hf & Hn1 & Hn2);
    [lia | lia |].
  fold batches in Hc, Hf, Hn1, Hn2. split; [done |]. split.
  - eapply Forall_impl; [exact Hf |]. simpl. intros; lia.
  - apply (Nat.div_unique _ _ _ (length all_titles + 499 - length batches * 500)); lia.
Qed.

(** X14.  The cache [update_wiki_cache] builds and hands to
    [save_cache]: whatever the order in which the batches complete, it
    holds a title exactly when the title is in a batch that could be
    loaded, with the text of its page (the empty text for a title that
    names no page); the titles of a batch that failed are left out
    unless another batch holds them.  The wiki is left as it was. *)
Theorem cache_holds_loaded_batches (json_chunks : gmap string string → list string)
    (as_completed : ∀ A, list A → list A) (all_titles : list string)
    (cache_file : string) (w : world) (d : search.disk) :
  (∀ A (l : list A), as_completed A l ≡ₚ l) →
  ∃ wiki_cache w',
    search.update_wiki_cache json_chunks as_completed all_titles cache_file w d
    = match search.save_cache json_chunks wiki_cache cache_file d with
      | (Ok _, d') => (Ok wiki_cache, w', d')
      | (Raise e, d') => (Raise e, w', d')
      end
    ∧ wiki w' = wiki w
    ∧ ∀ title text,
        wiki_cache !! title = Some text
        ↔ text = text_of (wiki w) title
          ∧ ∃ batch, batch ∈ search.batches_of (length all_titles) 500 all_titles
              ∧ title ∈ batch ∧ raises (wiki w) (c_preload batch) = None.
Proof.
  intros Hperm. unfold search.update_wiki_cache.
  cbv beta iota delta [mbind io_bind]. cbv zeta.
  rewrite submit_all_load_batch.
  set (batches := search.batches_of (length all_titles) 500 all_titles).
  set (futures := (λ batch, (batch, batch_future (wiki w) batch)) <$> batches).
  assert (∃ completed, as_completed _ futures
            = (λ batch, (batch, batch_future (wiki w) batch)) <$> completed
            ∧ completed ≡ₚ batches) as (completed & -> & Hc).
  { exists ((as_completed _ futures).*1). split.
    - assert (Forall (λ f, f.2 = batch_future (wiki w) f.1) (as_completed _ futures)) as Hall.
      { rewrite Hperm. unfold futures. apply Forall_fmap, Forall_true. done. }
      induction Hall as [|[b f] l Hf _ IH]; [done |].
      rewrite !fmap_cons. simpl in *. by rewrite Hf, <- IH.
    - rewrite Hperm. unfold futures. rewrite <- list_fmap_compose.
      by rewrite list_fmap_id. }
  destruct (merge_batches_scan (wiki w) ∅ completed w) as (merged & lines & -> & Hm & Hd).
  { intros title text. by rewrite lookup_empty. }
  exists merged, (after w (ev_log <$> lines)). split; [done |]. split; [done |].
  intros title text. split.
  - intros Hl. split; [by apply Hm |].
    destruct (proj1 (Hd title)) as [Hn | (b & Hin & Ht & Hb)]; [by eexists | |].
    + rewrite lookup_empty in Hn. by destruct Hn.
    + exists b. by rewrite <- Hc.
  - intros [-> (b & Hin & Ht & Hb)].
    destruct (proj2 (Hd title)) as [x Hx].
    { right. exists b. by rewrite Hc. }
    rewrite Hx. f_equal. by apply Hm.
Qed.

Lemma cache_holds_loaded_batches_witness :
  ∃ (wiki_cache : gmap string string) w',
    search.update_wiki_cache plain_json_chunks (λ _ l, reverse l) ["Bread"; "Ghost"]
      "wiki_cache.json" (init gate_site) failing_disk
    = match search.save_cache plain_json_chunks wiki_cache "wiki_cache.json" failing_disk with
      | (Ok _, d') => (Ok wiki_cache, w', d')
      | (Raise e, d') => (Raise e, w', d')
      end
    ∧ wiki_cache !! "Ghost" = Some "".
Proof.
  destruct (cache_holds_loaded_batches plain_json_chunks (λ _ l, reverse l)
              ["Bread"; "Ghost"] "wiki_cache.json" (init gate_site) failing_disk)
    as (wiki_cache & w' & Heq & _ & Hc).
  { intros A l. apply reverse_Permutation. }
  exists wiki_cache, w'. split; [exact Heq |].
  apply Hc. split; [vm_compute; reflexivity |].
  exists ["Bread"; "Ghost"]. split; [vm_compute; left |].
  split; [| reflexivity]. apply elem_of_cons. right. apply elem_of_cons. by left.
Defined.

(** ** The dictionary of redirects (redirectdictionary.py) *)

Lemma process_article_run (line : string) (w : world) :
  ∃ lines, redirectdictionary.process_article line w
           = (Ok (article_result (wiki w) line), after w (ev_log <$> lines)).
Proof.
  unfold redirectdictionary.process_article, article_result, backlinks_found, after.
  destruct (truthy (strip line)); simpl.
  - cbv beta iota delta [mbind io_bind try_except page_backlinks guarded get_site ret mret
                         io_ret raise log emit].
    simpl. destruct (raises (wiki w) (c_backlinks (strip line))) as [e|]; simpl.
    + by exists [("Error processing page " +:+ strip line +:+ ": " +:+ str e)].
    + exists []. simpl. rewrite app_nil_r. by destruct w.
  - exists []. simpl. rewrite app_nil_r. by destruct w.
Qed.

Lemma submit_all_articles (article_titles : list string) (w : world) :
  ∃ lines,
    submit_all redirectdictionary.process_article article_titles w
    = (Ok ((λ line, (line, Ok (article_result (wiki w) line))) <$> article_titles),
       after w (ev_log <$> lines)).
Proof.
  revert w. induction article_titles as [|line article_titles IH]; intros w.
  - exists []. simpl. unfold after. simpl. rewrite app_nil_r. by destruct w.
  - cbn [submit_all]. cbv beta iota delta [mbind io_bind run_task ret mret io_ret].
    destruct (process_article_run line w) as (lines1 & ->).
    destruct (IH (after w (ev_log <$> lines1))) as (lines2 & Heq).
    cbv beta iota delta [mbind io_bind run_task ret mret io_ret] in Heq. rewrite Heq.
    exists (lines1 ++ lines2). unfold after. simpl. by rewrite fmap_app, app_assoc.
Qed.

(** The collecting loop of [redirectdictionary.main] on the futures of
    the scan. *)
Lemma main_loop_scan (s : site) (st : redirectdictionary.main_state)
    (completed : list string) (w : world) :
  (∀ title l, redirectdictionary.redirect_dict st !! title = Some l
              → l = backlinks_found s title) →
  ∃ st',
    redirectdictionary.main_loop st
      ((λ line, (line, Ok (article_result s line))) <$> completed) w = (Ok st', w)
    ∧ redirectdictionary.pbar st' = redirectdictionary.pbar st + length completed
    ∧ (∀ title l, redirectdictionary.redirect_dict st' !! title = Some l
                  → l = backlinks_found s title)
    ∧ ∀ title, is_Some (redirectdictionary.redirect_dict st' !! title)
        ↔ is_Some (redirectdictionary.redirect_dict st !! title)
          ∨ (title ≠ "" ∧ ∃ line, line ∈ completed ∧ title = strip line).
Proof.
  revert st. induction completed as [|line completed IH]; intros st Hst.
  - exists st. split; [done |]. split; [simpl; lia |]. split; [done |].
    intros title. split; [by left |].
    intros [? | (_ & line & Hin & _)]; [done |]. by apply elem_of_nil in Hin.
  - rewrite fmap_cons. cbn [redirectdictionary.main_loop].
    cbv beta iota delta [mbind io_bind future_result ret mret io_ret].
    unfold article_result at 1.
    destruct (truthy (strip line)) eqn:Ht.
    + destruct (IH (redirectdictionary.Main
                      (<[strip line := backlinks_found s (strip line)]>
                         (redirectdictionary.redirect_dict st))
                      (redirectdictionary.pbar st + 1))) as (st' & Heq & Hp & Hv & Hd).
      { simpl. intros title l. destruct (decide (strip line = title)) as [<-|Hne].
        - rewrite lookup_insert_eq. congruence.
        - rewrite lookup_insert_ne by done. apply Hst. }
      exists st'. cbv beta iota delta [mbind io_bind future_result ret mret io_ret] in Heq.
      rewrite Ht. rewrite Heq. split; [done |]. split; [rewrite Hp; simpl; lia |].
      split; [done |]. intros title. rewrite Hd. simpl.
      rewrite lookup_insert_is_Some. split.
      * intros [[<- | [_ ?]] | (Hne & l & Hin & ->)].
        -- right. split; [by destruct (strip line) |]. exists line. split; [by left | done].
        -- by left.
        -- right. split; [done |]. exists l. split; [by right | done].
      * intros [? | (Hne & l & Hin & ->)].
        -- destruct (decide (strip line = title)); [left; by left | left; by right].
        -- apply elem_of_cons in Hin as [-> | Hin]; [left; by left |].
           right. split; [done |]. by exists l.
    + destruct (IH (redirectdictionary.Main (redirectdictionary.redirect_dict st)
                      (redirectdictionary.pbar st + 1))) as (st' & Heq & Hp & Hv & Hd);
        [done |].
      exists st'. cbv beta iota delta [mbind io_bind future_result ret mret io_ret] in Heq.
      rewrite Ht. rewrite Heq. split; [done |]. split; [rewrite Hp; simpl; lia |].
      split; [done |]. intros title. rewrite Hd. simpl. split.
      * intros [? | (Hne & l & Hin & ->)]; [by left |].
        right. split; [done |]. exists l. split; [by right | done].
      * intros [? | (Hne & l & Hin & ->)]; [by left |].
        apply elem_of_cons in Hin as [-> | Hin].
        -- destruct (strip line); [done | discriminate].
        -- right. split; [done |]. by exists l.
Qed.

(** X15.  The dictionary [redirectdictionary.main] builds: whatever the
    order in which the futures complete, the scan returns, has counted
    every line of the input, and has left the wiki and the queue as they
    were; its dictionary has a key exactly for the stripped, non-empty
    lines of the input, and the value of a key is the list of redirects
    the wiki reports for it, or the empty list when that call raised. *)
Theorem dictionary_of_stripped_titles (as_completed : ∀ A, list A → list A)
    (article_titles : list string) (w : world) :
  (∀ A (l : list A), as_completed A l ≡ₚ l) →
  ∃ st lines,
    redirectdictionary.main_scan as_completed article_titles w
    = (Ok st, after w (ev_log <$> lines))
    ∧ redirectdictionary.pbar st = length article_titles
    ∧ ∀ title l,
        redirectdictionary.redirect_dict st !! title = Some l
        ↔ title ≠ "" ∧ (∃ line, line ∈ article_titles ∧ title = strip line)
          ∧ l = backlinks_found (wiki w) title.
Proof.
  intros Hperm. unfold redirectdictionary.main_scan, redirectdictionary.main_scan_with.
  cbv beta iota delta [mbind io_bind].
  destruct (submit_all_articles article_titles w) as (lines & ->).
  set (futures := (λ line, (line, Ok (article_result (wiki w) line))) <$> article_titles).
  assert (∃ completed, as_completed _ futures
            = (λ line, (line, Ok (article_result (wiki w) line))) <$> completed
            ∧ completed ≡ₚ article_titles) as (completed & -> & Hc).
  { exists ((as_completed _ futures).*1). split.
    - assert (Forall (λ f, f.2 = Ok (article_result (wiki w) f.1)) (as_completed _ futures))
        as Hall.
      { rewrite Hperm. unfold futures. apply Forall_fmap, Forall_true. done. }
      induction Hall as [|[b f] l Hf _ IH]; [done |].
      rewrite !fmap_cons. simpl in *. by rewrite Hf, <- IH.
    - rewrite Hperm. unfold futures. rewrite <- list_fmap_compose.
      by rewrite list_fmap_id. }
  destruct (main_loop_scan (wiki w) (redirectdictionary.Main ∅ 0) completed
              (after w (ev_log <$> lines))) as (st & -> & Hp & Hv & Hd).
  { simpl. intros title l. by rewrite lookup_empty. }
  exists st, lines. split; [done |].
  split; [rewrite Hp; simpl; by rewrite Hc |].
  intros title l. split.
  - intros Hl. destruct (proj1 (Hd title)) as [Hn | (Hne & line & Hin & ->)]; [by eexists | |].
    + simpl in Hn. rewrite lookup_empty in Hn. by destruct Hn.
    + split; [done |]. split; [| by apply Hv]. exists line. by rewrite <- Hc.
  - intros (Hne & (line & Hin & ->) & ->).
    destruct (proj2 (Hd (strip line))) as [x Hx].
    { right. split; [done |]. exists line. by rewrite Hc. }
    rewrite Hx. f_equal. by apply Hv.
Qed.

Lemma dictionary_of_stripped_titles_witness :
  ∃ st lines,
    redirectdictionary.main_scan (λ _ l, reverse l) [" Bread "; ""; "Loaf"] (init gate_site)
    = (Ok st, after (init gate_site) (ev_log <$> lines))
    ∧ redirectdictionary.pbar st = 3
    ∧ redirectdictionary.redirect_dict st !! "Bread" = Some ["Loaf"].
Proof.
  destruct (dictionary_of_stripped_titles (λ _ l, reverse l) [" Bread "; ""; "Loaf"]
              (init gate_site)) as (st & lines & Heq & Hp & Hd).
  { intros A l. apply reverse_Permutation. }
  exists st, lines. split; [exact Heq |]. split; [exact Hp |].
  apply Hd. split; [done |]. split; [| vm_compute; reflexivity].
  exists " Bread ". split; [left | vm_compute; reflexivity].
Defined.

(** ** The edits (findandreplace.py) *)

(** One turn of the loop of [process_edit_queue]: it returns; it saves
    the page exactly when the page needs the edit, and then the wiki
    either takes the new text or answers with an exception and is left
    as it was. *)
Lemma edit_one_run (mappings : list (string * string)) (page_title : string) (w : world) :
  ∃ s' evs,
    findandreplace.edit_one mappings page_title w
    = (Ok (), World s' (queue w) (trace w ++ evs))
    ∧ mutated_titles evs = (if needs_edit mappings (wiki w) page_title then [page_title] else [])
    ∧ (s' = wiki w
       ∨ needs_edit mappings (wiki w) page_title = true
         ∧ s' = edited mappings page_title (wiki w)).
Proof.
  unfold findandreplace.edit_one, needs_edit, edited, page_save.
  cbv beta iota delta [mbind io_bind try_except page_exists page_text guarded get_site emit
                       log ret mret io_ret raise].
  simpl.
  destruct (raises (wiki w) (c_exists page_title)) as [e|] eqn:He; simpl.
  { eexists _, [_; _]. rewrite <- app_assoc. split; [done |]. split; [done | by left]. }
  destruct (pages (wiki w) !! page_title) as [p|] eqn:Hp; simpl.
  2: { eexists _, [_]. split; [done |]. split; [done | by left]. }
  destruct (raises (wiki w) (c_text page_title)) as [e|] eqn:Ht; simpl.
  { eexists _, [_; _]. rewrite <- app_assoc. split; [done |]. split; [done | by left]. }
  rewrite Hp. simpl.
  destruct (decide (findandreplace.apply_mappings mappings (text p) ≠ text p)) as [Hne|Heq];
    simpl.
  2: { rewrite bool_decide_false by done.
       eexists _, [_]. split; [done |]. split; [done | by left]. }
  rewrite bool_decide_true by done. rewrite mutate_run. simpl. rewrite Hp.
  destruct (raises (wiki w) (c_save page_title)) as [e|] eqn:Hs; simpl.
  - eexists _, [_; _; _]. rewrite <- !app_assoc. split; [done |]. split; [done | by left].
  - eexists _, [_; _]. rewrite <- !app_assoc. split; [done |]. split; [done |]. by right.
Qed.

Lemma changed_in_refl (titles : list string) (s : site) :
  changed_in titles s s.
Proof. by repeat split. Qed.

Lemma changed_in_edited (mappings : list (string * string)) (title : string) (s : site) :
  changed_in [title] s (edited mappings title s).
Proof.
  unfold edited. destruct (pages s !! title) as [p|] eqn:Hp; [| apply changed_in_refl].
  split; [done |]. split; [done |]. split; [done |]. intros t. simpl.
  destruct (decide (title = t)) as [<-|Hne].
  - rewrite lookup_insert_eq, Hp. split; [done |]. intros Hn. destruct Hn. by left.
  - by rewrite lookup_insert_ne by done.
Qed.

Lemma changed_in_trans (titles1 titles2 : list string) (s s' s'' : site) :
  changed_in titles1 s s' → changed_in titles2 s' s'' →
  changed_in (titles1 ++ titles2) s s''.
Proof.
  intros (Hr1 & Hf1 & Hs1 & Hp1) (Hr2 & Hf2 & Hs2 & Hp2).
  split; [congruence |]. split; [congruence |]. split; [congruence |]. intros title.
  destruct (Hp1 title) as [He1 Hx1]. destruct (Hp2 title) as [He2 Hx2].
  split; [by rewrite He2 |].
  intros Hn. rewrite Hx2, Hx1; [done | |]; intros Hin; apply Hn, elem_of_app; tauto.
Qed.

(** The loop of [process_edit_queue]: it returns with the queue empty;
    no page comes or goes and no page but the queued ones changes; its
    saves follow the order of the queue, at most one for each item; and
    it saves nothing when no queued page needs the edit. *)
Lemma edit_loop_run (mappings : list (string * string)) (turns : nat) (w : world) :
  length (queue w) ≤ turns →
  ∃ s' evs,
    findandreplace.edit_loop turns mappings w = (Ok (), World s' [] (trace w ++ evs))
    ∧ changed_in (queue w) (wiki w) s'
    ∧ mutated_titles evs `sublist_of` queue w
    ∧ ((∀ title, title ∈ queue w → needs_edit mappings (wiki w) title = false)
       → s' = wiki w ∧ mutated_titles evs = []).
Proof.
  revert w. induction turns as [|turns IH]; intros [s q tr] Hlen; simpl in Hlen.
  - destruct q; simpl in *; [| lia]. exists s, []. rewrite app_nil_r.
    split; [done |]. split; [apply changed_in_refl |]. done.
  - destruct q as [|item rest].
    { exists s, []. simpl. rewrite app_nil_r.
      split; [done |]. split; [apply changed_in_refl |]. done. }
    cbn [findandreplace.edit_loop]. cbv beta iota delta [mbind io_bind queue_empty queue_get].
    simpl.
    destruct (edit_one_run mappings item (World s rest tr)) as (s1 & evs1 & Heq & Hm1 & Hs1).
    cbv beta iota delta [mbind io_bind] in Heq. rewrite Heq. simpl.
    destruct (IH (World s1 rest (tr ++ evs1))) as (s2 & evs2 & Heq2 & Hc2 & Hm2 & Hq2);
      [simpl in *; lia |].
    rewrite Heq2. simpl in *. exists s2, (evs1 ++ evs2). rewrite app_assoc.
    split; [done |]. split; [| split].
    + apply (changed_in_trans [item] rest s s1 s2); [| done].
      destruct Hs1 as [-> | [_ ->]]; [apply changed_in_refl | apply changed_in_edited].
    + rewrite mutated_titles_app, Hm1.
      destruct (needs_edit mappings s item); simpl; by constructor.
    + intros Hno. assert (needs_edit mappings s item = false) as Hi by (apply Hno; by left).
      rewrite Hi in Hm1. destruct Hs1 as [-> | [Hc _]]; [| congruence].
      destruct Hq2 as [-> Hm2']; [intros title Hin; apply Hno; by right |].
      by rewrite mutated_titles_app, Hm1, Hm2'.
Qed.

(** X16.  [process_edit_queue] returns and leaves the queue empty.  It
    never creates or deletes a page: a title names a page afterwards
    exactly when it did before, and a page whose title was not on the
    queue is as it was.  It issues at most one save for each queued
    item, in the order of the queue. *)
Theorem edit_queue_changes_queued_only (mappings : list (string * string)) (w : world) :
  ∃ s' evs,
    findandreplace.process_edit_queue mappings w = (Ok (), World s' [] (trace w ++ evs))
    ∧ changed_in (queue w) (wiki w) s'
    ∧ mutated_titles evs `sublist_of` queue w.
Proof.
  unfold findandreplace.process_edit_queue. cbv beta iota delta [mbind io_bind queue_qsize].
  destruct (edit_loop_run mappings (length (queue w)) w) as (s' & evs & Heq & Hc & Hm & _);
    [done |].
  by exists s', evs.
Qed.

(** X17.  [process_edit_queue] saves no page whose text the mappings
    leave as it is: when that holds of every queued page, the run makes
    no mutation call at all and the wiki is as it was. *)
Theorem converted_pages_not_saved (mappings : list (string * string)) (w : world) :
  (∀ title p, title ∈ queue w → pages (wiki w) !! title = Some p →
     findandreplace.apply_mappings mappings (text p) = text p) →
  ∃ evs,
    findandreplace.process_edit_queue mappings w
    = (Ok (), World (wiki w) [] (trace w ++ evs))
    ∧ mutated_titles evs = [].
Proof.
  intros Hdone.
  unfold findandreplace.process_edit_queue. cbv beta iota delta [mbind io_bind queue_qsize].
  destruct (edit_loop_run mappings (length (queue w)) w) as (s' & evs & Heq & _ & _ & Hq);
    [done |].
  destruct Hq as [-> Hm].
  { intros title Hin. unfold needs_edit.
    destruct (raises (wiki w) (c_exists title)); [done |].
    destruct (pages (wiki w) !! title) as [p|] eqn:Hp; [| done].
    destruct (raises (wiki w) (c_text title)); [done |].
    apply bool_decide_eq_false. intros Hne. by apply Hne, (Hdone title p). }
  by exists evs.
Qed.

Lemma converted_pages_not_saved_witness :
  ∃ evs,
    findandreplace.process_edit_queue [("x", "y")] (World gate_site ["Bread"; "Ghost"] [])
    = (Ok (), World gate_site [] ([] ++ evs))
    ∧ mutated_titles evs = [].
Proof.
  apply (converted_pages_not_saved [("x", "y")] (World gate_site ["Bread"; "Ghost"] [])).
  intros title p Hin Hp. simpl in Hin.
  apply elem_of_cons in Hin as [-> | Hin].
  - vm_compute in Hp. injection Hp as <-. vm_compute. reflexivity.
  - apply elem_of_cons in Hin as [-> | Hin]; [vm_compute in Hp; discriminate |].
    by apply elem_of_nil in Hin.
Defined.










(** ** The redirects of a run (languageredirects.py) *)

(** The pages before and after [create_redirect]. *)
Lemma create_redirect_pages (title target : string) (w : world) :
  ∃ r w',
    languageredirects.create_redirect title target w = (r, w')
    ∧ references (wiki w') = references (wiki w)
    ∧ raises (wiki w') = raises (wiki w)
    ∧ (pages (wiki w') = pages (wiki w)
       ∨ languageredirects.has_illegal_chars target = false
         ∧ pages (wiki w) !! target = None
         ∧ ∃ p, text p = "#REDIRECT [[" +:+ title +:+ "]]"
                ∧ pages (wiki w') = <[target := p]> (pages (wiki w)))
    ∧ ((∀ c, raises (wiki w) c = None) →
       r = Ok ()
       ∧ (languageredirects.has_illegal_chars target = false
          → is_Some (pages (wiki w') !! target))).
Proof.
  rewrite create_redirect_run.
  destruct (languageredirects.has_illegal_chars target) eqn:Hill.
  { exists (Ok ()), w. split; [done |]. split; [done |]. split; [done |].
    split; [by left |]. done. }
  destruct (raises (wiki w) (c_exists target)) as [e|] eqn:He.
  { exists (Raise e), (after w [ev_exists target]).
    split; [done |]. split; [done |]. split; [done |]. split; [by left |].
    intros Hno. rewrite Hno in He. done. }
  destruct (pages (wiki w) !! target) as [p|] eqn:Hp.
  { exists (Ok ()), (after w [ev_exists target]).
    split; [done |]. split; [done |]. split; [done |]. split; [by left |].
    intros _. split; [done |]. intros _. simpl. by rewrite Hp. }
  unfold page_save. cbv beta iota delta [mbind io_bind sleep emit].
  rewrite mutate_run. simpl. rewrite Hp.
  destruct (raises (wiki w) (c_save target)) as [e|] eqn:Hs.
  - eexists (Raise e), _. split; [done |]. split; [done |]. split; [done |].
    split; [by left |]. intros Hno. rewrite Hno in Hs. done.
  - eexists (Ok ()), _. split; [done |]. simpl. split; [done |]. split; [done |].
    split.
    { right. split; [done |]. split; [done |]. by eexists (Page _ _ _). }
    intros _. split; [done |]. intros _.
    by rewrite lookup_insert_eq.
Qed.

(** The loop of [main] over the entries it creates redirects for, in
    whatever order the dictionary yields them. *)
Lemma create_loop_run (items : list (string * string)) (w : world) :
  ∃ r w',
    for_each items (λ '(page_name, target), languageredirects.create_redirect page_name target)
      w = (r, w')
    ∧ raises (wiki w') = raises (wiki w)
    ∧ (∀ t p, pages (wiki w) !! t = Some p → pages (wiki w') !! t = Some p)
    ∧ (∀ t p, pages (wiki w) !! t = None → pages (wiki w') !! t = Some p →
         languageredirects.has_illegal_chars t = false
         ∧ ∃ k, (k, t) ∈ items ∧ text p = "#REDIRECT [[" +:+ k +:+ "]]")
    ∧ ((∀ c, raises (wiki w) c = None) →
       r = Ok ()
       ∧ ∀ k t, (k, t) ∈ items → languageredirects.has_illegal_chars t = false
                → is_Some (pages (wiki w') !! t)).
Proof.
  revert w. induction items as [|[k t] items IH]; intros w.
  - exists (Ok ()), w. split; [done |]. split; [done |]. split; [done |].
    split; [intros ? ? H1 H2; congruence |]. intros _. split; [done |].
    intros ? ? Hin. by apply elem_of_nil in Hin.
  - cbn [for_each]. cbv beta iota delta [mbind io_bind].
    destruct (create_redirect_pages k t w) as (r1 & w1 & -> & _ & Hf1 & Hp1 & Hok1).
    assert (∀ t0 p, pages (wiki w) !! t0 = Some p → pages (wiki w1) !! t0 = Some p) as Hkeep1.
    { intros t0 p Hl. destruct Hp1 as [-> | (_ & Hn & p1 & _ & ->)]; [done |].
      rewrite lookup_insert_ne; [done |]. intros ->. congruence. }
    assert (∀ t0 p, pages (wiki w) !! t0 = None → pages (wiki w1) !! t0 = Some p →
              languageredirects.has_illegal_chars t0 = false
              ∧ t0 = t ∧ text p = "#REDIRECT [[" +:+ k +:+ "]]") as Hnew1.
    { intros t0 p Hn Hl.
      destruct Hp1 as [Heq | (Hill & _ & p1 & Htext & Heq)]; rewrite Heq in Hl;
        [congruence |].
      destruct (decide (t = t0)) as [<-|Hne].
      - rewrite lookup_insert_eq in Hl. by injection Hl as <-.
      - rewrite lookup_insert_ne in Hl by done. congruence. }
    destruct r1 as [[]|e].
    + destruct (IH w1) as (r & w' & -> & Hf & Hkeep & Hnew & Hok).
      exists r, w'. split; [done |]. split; [congruence |].
      split; [intros t0 p Hl; by apply Hkeep, Hkeep1 |]. split.
      * intros t0 p Hn Hl. destruct (pages (wiki w1) !! t0) as [p1|] eqn:H1.
        -- destruct (Hnew1 t0 p1 Hn H1) as (Hill & -> & Htext). split; [done |].
           exists k. split; [left |]. apply Hkeep in H1. congruence.
        -- destruct (Hnew t0 p H1 Hl) as (Hill & k0 & Hin & Htext). split; [done |].
           exists k0. split; [by right | done].
      * intros Hno. destruct (Hok1 Hno) as [_ Hthere].
        destruct Hok as [-> Hall]; [intros c; by rewrite Hf1 |]. split; [done |].
        intros k0 t0 Hin Hill. apply elem_of_cons in Hin as [[= -> ->] | Hin].
        -- destruct (Hthere Hill) as [p Hp]. exists p. by apply Hkeep.
        -- by eapply Hall.
    + exists (Raise e), w1. split; [done |]. split; [done |]. split; [done |]. split.
      * intros t0 p Hn Hl. destruct (Hnew1 t0 p Hn Hl) as (Hill & -> & Htext).
        split; [done |]. exists k. split; [left | done].
      * intros Hno. by destruct (Hok1 Hno).
Qed.

(** X19.  The redirects of a run of [languageredirects.main], for the
    dictionary the scan has filled and in whatever order its entries are
    taken.  No page that exists is changed.  A page that is new has a
    title without illegal character that is the translated title of
    one, and only one, page of the dictionary, and its text is the
    redirect to that page.  When no call to the wiki raises, the run
    returns and every such title names a page afterwards. *)
Theorem redirects_fill_gaps_only (redirect_dict : gmap string string)
    (items : list (string * string)) (w : world) :
  items ≡ₚ map_to_list (languageredirects.unique_redirect_dict redirect_dict) →
  ∃ r w',
    for_each items (λ '(page_name, target), languageredirects.create_redirect page_name target)
      w = (r, w')
    ∧ (∀ t p, pages (wiki w) !! t = Some p → pages (wiki w') !! t = Some p)
    ∧ (∀ t p, pages (wiki w) !! t = None → pages (wiki w') !! t = Some p →
         languageredirects.has_illegal_chars t = false
         ∧ ∃ k, redirect_dict !! k = Some t
                ∧ (∀ k', redirect_dict !! k' = Some t → k' = k)
                ∧ text p = "#REDIRECT [[" +:+ k +:+ "]]")
    ∧ ((∀ c, raises (wiki w) c = None) →
       r = Ok ()
       ∧ ∀ k t, redirect_dict !! k = Some t
                → (∀ k', redirect_dict !! k' = Some t → k' = k)
                → languageredirects.has_illegal_chars t = false
                → is_Some (pages (wiki w') !! t)).
Proof.
  intros Hitems.
  assert (∀ k t, (k, t) ∈ items ↔
            redirect_dict !! k = Some t ∧ ∀ k', redirect_dict !! k' = Some t → k' = k)
    as Hin.
  { intros k t. rewrite Hitems, elem_of_map_to_list.
    unfold languageredirects.unique_redirect_dict. rewrite map_lookup_filter_Some. simpl.
    rewrite values_count_one. split.
    - intros (Hk & k0 & Hk0 & Huniq). split; [done |].
      intros k' Hk'. rewrite (Huniq k' Hk'). symmetry. by apply Huniq.
    - intros (Hk & Huniq). split; [done |]. by exists k. }
  destruct (create_loop_run items w) as (r & w' & Heq & _ & Hkeep & Hnew & Hok).
  exists r, w'. split; [done |]. split; [done |]. split.
  - intros t p Hn Hl. destruct (Hnew t p Hn Hl) as (Hill & k & Hk & Htext).
    split; [done |]. apply Hin in Hk as [Hk Huniq]. by exists k.
  - intros Hno. destruct (Hok Hno) as [-> Hall]. split; [done |].
    intros k t Hk Huniq Hill. apply (Hall k t); [| done]. by apply Hin.
Qed.

Lemma redirects_fill_gaps_only_witness :
  ∃ r w',
    languageredirects.main_create candidates (init gate_site) = (r, w')
    ∧ ∀ t p, pages gate_site !! t = Some p → pages (wiki w') !! t = Some p.
Proof.
  destruct (redirects_fill_gaps_only candidates
              (map_to_list (languageredirects.unique_redirect_dict candidates))
              (init gate_site)) as (r & w' & Heq & Hkeep & _); [done |].
  by exists r, w'.
Defined.

(** ** The scan of the translated titles (languageredirects.py) *)

Lemma process_line_run (line : string) (w : world) :
  languageredirects.process_line line w
  = (line_future (wiki w) line, after w [ev_exists (strip line)]).
Proof.
  unfold languageredirects.process_line, line_future, after.
  cbv beta iota delta [mbind io_bind page_exists page_text guarded get_site emit ret mret
                       io_ret raise].
  simpl.
  destruct (raises (wiki w) (c_exists (strip line))) as [e|]; [done |].
  destruct (pages (wiki w) !! strip line) as [p|] eqn:Hp; simpl; rewrite Hp;
    [| reflexivity].
  change (negb (bool_decide (is_Some (Some p)))) with false. cbv beta iota. simpl.
  destruct (raises (wiki w) (c_text (strip line))) as [e|]; [reflexivity |].
  simpl. by rewrite Hp.
Qed.

Lemma submit_all_lines (lines : list string) (w : world) :
  submit_all languageredirects.process_line lines w
  = (Ok ((λ line, (line, line_future (wiki w) line)) <$> lines),
     after w (ev_exists <$> (strip <$> lines))).
Proof.
  revert w. induction lines as [|line lines IH]; intros w.
  - simpl. unfold after. simpl. rewrite app_nil_r. by destruct w.
  - cbn [submit_all]. cbv beta iota delta [mbind io_bind run_task ret mret io_ret].
    rewrite process_line_run.
    specialize (IH (after w [ev_exists (strip line)])).
    cbv beta iota delta [mbind io_bind run_task ret mret io_ret] in IH. rewrite IH.
    unfold after. simpl. by rewrite <- app_assoc.
Qed.




(** A future that holds an exception stops the loop of [main]. *)
Lemma collect_aborts (redirect_dict : gmap string string)
    (completed : list (string * result (option (string * string)))) (w : world) :
  Exists (λ f, ∃ e, f.2 = Raise e) completed →
  ∃ e, languageredirects.collect redirect_dict completed w = (Raise e, w).
Proof.
  revert redirect_dict. induction completed as [|[line future] completed IH];
    intros redirect_dict Hex; [by apply Exists_nil in Hex |].
  cbn [languageredirects.collect].
  cbv beta iota delta [mbind io_bind future_result ret mret io_ret raise].
  destruct future as [entry|e]; [| by exists e].
  apply Exists_cons in Hex as [[e He] | Hex]; [done |].
  destruct (IH (match entry with
                | Some (title, title_value) => <[title := title_value]> redirect_dict
                | None => redirect_dict
                end) Hex) as [e He].
  exists e. cbv beta iota delta [mbind io_bind future_result ret mret io_ret raise] in He.
  exact He.
Qed.

(** X20.  [languageredirects.main] does not guard [future.result()]:
    when the scan of one line of the input raises (the existence check
    or the reading of the text of its page), the run ends with an
    exception before any redirect is created; the wiki is as it was and
    the run has made no mutation call, whatever the other lines are. *)
Theorem scan_fault_stops_redirects (as_completed : ∀ A, list A → list A)
    (lines : list string) (line : string) (fault : exn) (w : world) :
  (∀ A (l : list A), as_completed A l ≡ₚ l) →
  line ∈ lines →
  line_future (wiki w) line = Raise fault →
  ∃ e,
    languageredirects.main as_completed lines w
    = (Raise e, after w (ev_exists <$> (strip <$> lines))).
Proof.
  intros Hperm Hin Hfault. unfold languageredirects.main.
  cbv beta iota delta [mbind io_bind]. rewrite submit_all_lines.
  destruct (collect_aborts ∅
              (as_completed _ ((λ line, (line, line_future (wiki w) line)) <$> lines))
              (after w (ev_exists <$> (strip <$> lines)))) as [e He].
  { apply Exists_exists. exists (line, line_future (wiki w) line). split.
    - rewrite Hperm. apply list_elem_of_fmap. by exists line.
    - by exists fault. }
  exists e. cbv beta iota delta [mbind io_bind] in He. by rewrite He.
Qed.

Lemma scan_fault_stops_redirects_witness :
  ∃ e,
    languageredirects.main (λ _ l, reverse l) ["Bread/fr"; "Ghost"] (init offline_site)
    = (Raise e, after (init offline_site) (ev_exists <$> (strip <$> ["Bread/fr"; "Ghost"]))).
Proof.
  apply (scan_fault_stops_redirects (λ _ l, reverse l) ["Bread/fr"; "Ghost"] "Ghost"
           (Exn OtherException "connection lost") (init offline_site)).
  - intros A l. apply reverse_Permutation.
  - apply elem_of_cons. right. apply elem_of_cons. by left.
  - vm_compute. reflexivity.
Defined.


